(** * Beacon state getters and Clone (package state)

    A shallow embedding of the read layer of the beacon state: the
    accessor methods of [*BeaconState] and [Clone], which composes them.

    The Go code hands out slices, and a slice is a reference into a
    backing array.  Whether a returned value shares storage with the
    state is exactly what the specification is about, so backing arrays
    live in an explicit memory and a slice is a header pointing into it.
    Message structs are built by the getters themselves ([&T{...}]); they
    are values here, with a nil pointer as [None].  A slice of messages
    or of roots is nil or made, and holds its elements as values
    ([slice_of]): the getters make the ones they return and only read the
    ones of the state. *)

From Stdlib Require Import ZArith.
From Stdlib.Strings Require Import Byte.
From stdpp Require Import base option list.

Open Scope Z_scope.
Open Scope nat_scope.

(** ** Memory: backing arrays and slice headers *)

(** A Go slice header: [ptr] names the backing array ([None] is the nil
    slice), [off] is where the slice starts in it, [len] and [cap] are
    Go's [len] and [cap]. *)
Record slice := Slice { ptr : option nat; off : nat; len : nat; cap : nat }.

Definition nil_slice : slice := Slice None 0 0 0.

Definition is_nil (s : slice) : bool :=
  match ptr s with None => true | Some _ => false end.

(** A heap of arrays with elements in [A].  Addresses are positions in the
    list, and allocation appends: a new array never reuses an address. *)
Abbreviation heap A := (list (list A)).

Section heap_ops.
Context {A : Type}.

(** The elements a slice denotes. *)
Definition read (h : heap A) (s : slice) : list A :=
  match ptr s with
  | None => []
  | Some p => take (len s) (drop (off s) (default [] (h !! p)))
  end.

(** [make([]T, n)], also [var a [n]T; a[:]]: a zeroed array of its own,
    with [len = cap = n]. *)
Definition make (zero : A) (n : nat) (h : heap A) : slice * heap A :=
  (Slice (Some (length h)) 0 n n, h ++ [replicate n zero]).

(** Go's builtin [copy(dst, src)]: [min(len(dst), len(src))] elements,
    source read before the destination is written. *)
Definition copy (dst src : slice) (h : heap A) : nat * heap A :=
  let n := min (len dst) (len src) in
  (n, match ptr dst with
      | None => h
      | Some p => alter (list_inserts (off dst) (take n (read h src))) p h
      end).

(** [s[i] = x] for [i < len(s)]. *)
Definition set_index (s : slice) (i : nat) (x : A) (h : heap A) : heap A :=
  match ptr s with
  | None => h
  | Some p => alter (<[off s + i := x]>) p h
  end.

(** The slice is nil or points at an allocated array that holds its
    whole capacity. *)
Definition valid (h : heap A) (s : slice) : Prop :=
  match ptr s with
  | None => len s = 0 ∧ cap s = 0
  | Some p => ∃ arr, h !! p = Some arr ∧ len s ≤ cap s ∧ off s + cap s ≤ length arr
  end.

(** The slice does not point at address [length h] or above. *)
Definition allocated (h : heap A) (s : slice) : Prop :=
  match ptr s with None => True | Some p => p < length h end.
End heap_ops.

(** The memory: one heap for [byte] arrays, one for [uint64] arrays. *)
Record mem := Mem { bytes : heap byte; words : heap Z }.

Definition empty_mem : mem := Mem [] [].

(** ** Computations: memory passing, with Go's run-time panic *)

Inductive outcome (A : Type) : Type :=
  | Ok (a : A) (m : mem)
  | Panic.
Arguments Ok {A} a m.
Arguments Panic {A}.

Definition M (A : Type) : Type := mem → outcome A.

Definition ret {A} (a : A) : M A := λ m, Ok a m.

Definition bind {A B} (c : M A) (k : A → M B) : M B :=
  λ m, match c m with
       | Ok a m' => k a m'
       | Panic => Panic
       end.

Definition panic {A} : M A := λ _, Panic.

Notation "'let*' x ':=' c 'in' k" := (bind c (λ x, k))
  (at level 10, x pattern, c at level 100, k at level 200).

(** ** Slices of messages and of roots *)

(** A [[]*T] or a [[][]byte] as a value: the nil slice, or a slice that
    was made, with its elements.  (The [[]byte] and [[]uint64] slices,
    which a caller can write through, are the [slice] headers above.) *)
Inductive slice_of (A : Type) : Type :=
  | Nil
  | Made (l : list A).
Arguments Nil {A}.
Arguments Made {A} l.

(** The elements.  Go's [len] and [range] go by them: the nil slice has
    length 0, and a loop over it does nothing. *)
Definition elems {A} (s : slice_of A) : list A :=
  match s with
  | Nil => []
  | Made l => l
  end.

(** The slice with [f] applied to every element; nil stays nil. *)
Definition map_of {A B} (f : A → B) (s : slice_of A) : slice_of B :=
  match s with
  | Nil => Nil
  | Made l => Made (f <$> l)
  end.

(** [make([]T, n)]: a slice of [n] zero values.  It is never nil, also
    when [n] is 0. *)
Definition make_of {A} (zero : A) (n : nat) : slice_of A :=
  Made (replicate n zero).

(** [res[i] = y]; an index out of range panics. *)
Definition set_at {A} (res : slice_of A) (i : nat) (y : A) : M (slice_of A) :=
  if decide (i < length (elems res))
  then ret (Made (<[i := y]> (elems res)))
  else panic.

(** The loops of the getters: [res[i] = f(xs[i])] for every index of
    [xs], in order, written [for i, x := range xs] or
    [for i := 0; i < len(res); i++] with [res] made as long as [xs].
    [i] is the index of the first element still to do, [xs] the elements
    from there on. *)
Fixpoint fill {A B} (f : A → M B) (i : nat) (xs : list A) (res : slice_of B)
  : M (slice_of B) :=
  match xs with
  | [] => ret res
  | x :: xs' =>
      let* y := f x in
      let* res := set_at res i y in
      fill f (S i) xs' res
  end.

(** The values such a loop assigns, in order. *)
Fixpoint mapM {A B} (f : A → M B) (xs : list A) : M (list B) :=
  match xs with
  | [] => ret []
  | x :: xs' => let* y := f x in let* ys := mapM f xs' in ret (y :: ys)
  end.

(** [p.f] on a pointer: a nil dereference panics. *)
Definition deref {A} (p : option A) : M A :=
  match p with
  | Some a => ret a
  | None => panic
  end.

Definition make_bytes (n : nat) : M slice :=
  λ m, let '(s, h) := make x00 n (bytes m) in Ok s (Mem h (words m)).

Definition copy_bytes (dst src : slice) : M nat :=
  λ m, let '(n, h) := copy dst src (bytes m) in Ok n (Mem h (words m)).

Definition make_uint64 (n : nat) : M slice :=
  λ m, let '(s, h) := make 0%Z n (words m) in Ok s (Mem (bytes m) h).

Definition copy_uint64 (dst src : slice) : M nat :=
  λ m, let '(n, h) := copy dst src (words m) in Ok n (Mem (bytes m) h).

(** The idiom every root goes through on its way out:
<<
      var root [32]byte
      copy(root[:], src)
      ... = root[:]
>>
    (FixedRootCodec's [normalize] in the specification). *)
Definition normalize (src : slice) : M slice :=
  let* root := make_bytes 32 in
  let* _ := copy_bytes root src in
  ret root.

(** What a zeroed array of [n] elements holds after [copy] from a slice
    holding [xs]: the first [n] of [xs], then the zeros that are left. *)
Definition pad {A} (zero : A) (n : nat) (xs : list A) : list A :=
  take n xs ++ replicate (n - length xs) zero.

(** What [normalize] computes, on contents. *)
Definition pad32 (bs : list byte) : list byte := pad x00 32 bs.

(** ** Messages

    The protobuf messages the getters read and build.  A [[]byte] field has
    type [B] and a [[]uint64] field type [W]: at [slice] they are the
    messages as Go holds them, at [list byte] and [list Z] they are the
    contents found behind the slices ([view], below).  A pointer to a
    message is an [option], a slice of messages or of roots a
    [slice_of]. *)

Module ethpb.
Record BeaconBlockHeader (B : Type) := {
  Header_Slot : Z;
  Header_ParentRoot : B;
  Header_StateRoot : B;
  Header_BodyRoot : B;
}.

Record Eth1Data (B : Type) := {
  Eth1_DepositRoot : B;
  Eth1_DepositCount : Z;
  Eth1_BlockHash : B;
}.

Record Validator (B : Type) := {
  Val_PublicKey : B;
  Val_WithdrawalCredentials : B;
  Val_EffectiveBalance : Z;
  Val_Slashed : bool;
  Val_ActivationEligibilityEpoch : Z;
  Val_ActivationEpoch : Z;
  Val_ExitEpoch : Z;
  Val_WithdrawableEpoch : Z;
}.

Record Checkpoint (B : Type) := {
  Cp_Epoch : Z;
  Cp_Root : B;
}.

Record AttestationData (B : Type) := {
  AttData_Slot : Z;
  AttData_CommitteeIndex : Z;
  AttData_BeaconBlockRoot : B;
  AttData_Source : option (Checkpoint B);
  AttData_Target : option (Checkpoint B);
}.

Arguments Header_Slot {B}.
Arguments Header_ParentRoot {B}.
Arguments Header_StateRoot {B}.
Arguments Header_BodyRoot {B}.
Arguments Eth1_DepositRoot {B}.
Arguments Eth1_DepositCount {B}.
Arguments Eth1_BlockHash {B}.
Arguments Val_PublicKey {B}.
Arguments Val_WithdrawalCredentials {B}.
Arguments Val_EffectiveBalance {B}.
Arguments Val_Slashed {B}.
Arguments Val_ActivationEligibilityEpoch {B}.
Arguments Val_ActivationEpoch {B}.
Arguments Val_ExitEpoch {B}.
Arguments Val_WithdrawableEpoch {B}.
Arguments Cp_Epoch {B}.
Arguments Cp_Root {B}.
Arguments AttData_Slot {B}.
Arguments AttData_CommitteeIndex {B}.
Arguments AttData_BeaconBlockRoot {B}.
Arguments AttData_Source {B}.
Arguments AttData_Target {B}.
End ethpb.

Module pbp2p.
Record Fork (B : Type) := {
  Fork_PreviousVersion : B;
  Fork_CurrentVersion : B;
  Fork_Epoch : Z;
}.

(** Modelled from the spec: the [PendingAttestation] message, declared in
    proto/beacon/p2p/v1, which is not among the sources.  The
    specification has it as a composite with nested variable-length
    sub-structures, a bitfield and a data payload; the fields are those
    of the protobuf message. *)
Record PendingAttestation (B : Type) := {
  Att_AggregationBits : B;
  Att_Data : option (ethpb.AttestationData B);
  Att_InclusionDelay : Z;
  Att_ProposerIndex : Z;
}.

Record BeaconState (B W : Type) := {
  st_GenesisTime : Z;
  st_Slot : Z;
  st_Fork : option (Fork B);
  st_LatestBlockHeader : option (ethpb.BeaconBlockHeader B);
  st_BlockRoots : slice_of B;
  st_StateRoots : slice_of B;
  st_HistoricalRoots : slice_of B;
  st_Eth1Data : option (ethpb.Eth1Data B);
  st_Eth1DataVotes : slice_of (option (ethpb.Eth1Data B));
  st_Eth1DepositIndex : Z;
  st_Validators : slice_of (option (ethpb.Validator B));
  st_Balances : W;
  st_RandaoMixes : slice_of B;
  st_Slashings : W;
  st_PreviousEpochAttestations : slice_of (option (PendingAttestation B));
  st_CurrentEpochAttestations : slice_of (option (PendingAttestation B));
  st_JustificationBits : B;
  st_PreviousJustifiedCheckpoint : option (ethpb.Checkpoint B);
  st_CurrentJustifiedCheckpoint : option (ethpb.Checkpoint B);
  st_FinalizedCheckpoint : option (ethpb.Checkpoint B);
}.

Arguments Fork_PreviousVersion {B}.
Arguments Fork_CurrentVersion {B}.
Arguments Fork_Epoch {B}.
Arguments Att_AggregationBits {B}.
Arguments Att_Data {B}.
Arguments Att_InclusionDelay {B}.
Arguments Att_ProposerIndex {B}.
Arguments st_GenesisTime {B W}.
Arguments st_Slot {B W}.
Arguments st_Fork {B W}.
Arguments st_LatestBlockHeader {B W}.
Arguments st_BlockRoots {B W}.
Arguments st_StateRoots {B W}.
Arguments st_HistoricalRoots {B W}.
Arguments st_Eth1Data {B W}.
Arguments st_Eth1DataVotes {B W}.
Arguments st_Eth1DepositIndex {B W}.
Arguments st_Validators {B W}.
Arguments st_Balances {B W}.
Arguments st_RandaoMixes {B W}.
Arguments st_Slashings {B W}.
Arguments st_PreviousEpochAttestations {B W}.
Arguments st_CurrentEpochAttestations {B W}.
Arguments st_JustificationBits {B W}.
Arguments st_PreviousJustifiedCheckpoint {B W}.
Arguments st_CurrentJustifiedCheckpoint {B W}.
Arguments st_FinalizedCheckpoint {B W}.
End pbp2p.

(** ** [proto.Clone] *)

(** Modelled from the spec: [proto.Clone] on a [PendingAttestation] is a
    full deep copy of the element, nested variable-length sub-structures
    included.  A nil message or a nil bytes field stays nil; any other
    bytes field gets an array of its own. *)
Definition clone_bytes (s : slice) : M slice :=
  if is_nil s then ret nil_slice
  else
    let* d := make_bytes (len s) in
    let* _ := copy_bytes d s in
    ret d.

Definition clone_Checkpoint (c : option (ethpb.Checkpoint slice))
  : M (option (ethpb.Checkpoint slice)) :=
  match c with
  | None => ret None
  | Some c =>
      let* root := clone_bytes (ethpb.Cp_Root c) in
      ret (Some {| ethpb.Cp_Epoch := ethpb.Cp_Epoch c; ethpb.Cp_Root := root |})
  end.

Definition clone_AttestationData (d : option (ethpb.AttestationData slice))
  : M (option (ethpb.AttestationData slice)) :=
  match d with
  | None => ret None
  | Some d =>
      let* root := clone_bytes (ethpb.AttData_BeaconBlockRoot d) in
      let* source := clone_Checkpoint (ethpb.AttData_Source d) in
      let* target := clone_Checkpoint (ethpb.AttData_Target d) in
      ret (Some {| ethpb.AttData_Slot := ethpb.AttData_Slot d;
                   ethpb.AttData_CommitteeIndex := ethpb.AttData_CommitteeIndex d;
                   ethpb.AttData_BeaconBlockRoot := root;
                   ethpb.AttData_Source := source;
                   ethpb.AttData_Target := target |})
  end.

Definition proto_Clone (a : option (pbp2p.PendingAttestation slice))
  : M (option (pbp2p.PendingAttestation slice)) :=
  match a with
  | None => ret None
  | Some a =>
      let* bits := clone_bytes (pbp2p.Att_AggregationBits a) in
      let* data := clone_AttestationData (pbp2p.Att_Data a) in
      ret (Some {| pbp2p.Att_AggregationBits := bits;
                   pbp2p.Att_Data := data;
                   pbp2p.Att_InclusionDelay := pbp2p.Att_InclusionDelay a;
                   pbp2p.Att_ProposerIndex := pbp2p.Att_ProposerIndex a |})
  end.

(** ** The getters (package state) *)

Module state.

(** [BeaconState] wraps the protobuf it owns, [b.state]. *)
Record BeaconState := { state : pbp2p.BeaconState slice slice }.

(** GenesisTime of the beacon state as a uint64. *)
Definition GenesisTime (b : BeaconState) : M Z :=
  ret (pbp2p.st_GenesisTime (state b)).

(** Slot of the current beacon chain state. *)
Definition Slot (b : BeaconState) : M Z :=
  ret (pbp2p.st_Slot (state b)).

(** Fork version of the beacon chain.  The two version fields are assigned
    as slices: the new message points at the state's arrays. *)
Definition Fork (b : BeaconState) : M (option (pbp2p.Fork slice)) :=
  let* f := deref (pbp2p.st_Fork (state b)) in
  ret (Some {| pbp2p.Fork_PreviousVersion := pbp2p.Fork_PreviousVersion f;
               pbp2p.Fork_CurrentVersion := pbp2p.Fork_CurrentVersion f;
               pbp2p.Fork_Epoch := pbp2p.Fork_Epoch f |}).

(** LatestBlockHeader stored within the beacon state.  As in the source,
    the array called [bodyRoot] is filled from [StateRoot] and the array
    called [stateRoot] from [BodyRoot]. *)
Definition LatestBlockHeader (b : BeaconState)
  : M (option (ethpb.BeaconBlockHeader slice)) :=
  let* h := deref (pbp2p.st_LatestBlockHeader (state b)) in
  let hdr_Slot := ethpb.Header_Slot h in
  let* parentRoot := make_bytes 32 in
  let* bodyRoot := make_bytes 32 in
  let* stateRoot := make_bytes 32 in
  let* _ := copy_bytes parentRoot (ethpb.Header_ParentRoot h) in
  let* _ := copy_bytes bodyRoot (ethpb.Header_StateRoot h) in
  let* _ := copy_bytes stateRoot (ethpb.Header_BodyRoot h) in
  ret (Some {| ethpb.Header_Slot := hdr_Slot;
               ethpb.Header_ParentRoot := parentRoot;
               ethpb.Header_StateRoot := stateRoot;
               ethpb.Header_BodyRoot := bodyRoot |}).

(** BlockRoots kept track of in the beacon state. *)
Definition BlockRoots (b : BeaconState) : M (slice_of slice) :=
  let roots :=
    make_of nil_slice (length (elems (pbp2p.st_BlockRoots (state b)))) in
  fill normalize 0 (elems (pbp2p.st_BlockRoots (state b))) roots.

(** StateRoots kept track of in the beacon state. *)
Definition StateRoots (b : BeaconState) : M (slice_of slice) :=
  let roots :=
    make_of nil_slice (length (elems (pbp2p.st_StateRoots (state b)))) in
  fill normalize 0 (elems (pbp2p.st_StateRoots (state b))) roots.

(** HistoricalRoots based on epochs stored in the beacon state. *)
Definition HistoricalRoots (b : BeaconState) : M (slice_of slice) :=
  let roots :=
    make_of nil_slice (length (elems (pbp2p.st_HistoricalRoots (state b)))) in
  fill normalize 0 (elems (pbp2p.st_HistoricalRoots (state b))) roots.

(** Eth1Data corresponding to the proof-of-work chain information stored in
    the beacon state. *)
Definition Eth1Data (b : BeaconState) : M (option (ethpb.Eth1Data slice)) :=
  let* e := deref (pbp2p.st_Eth1Data (state b)) in
  let eth1data_DepositCount := ethpb.Eth1_DepositCount e in
  let* depositRoot := make_bytes 32 in
  let* blockHash := make_bytes 32 in
  let* _ := copy_bytes depositRoot (ethpb.Eth1_DepositRoot e) in
  let* _ := copy_bytes blockHash (ethpb.Eth1_BlockHash e) in
  ret (Some {| ethpb.Eth1_DepositRoot := depositRoot;
               ethpb.Eth1_DepositCount := eth1data_DepositCount;
               ethpb.Eth1_BlockHash := blockHash |}).

(** One round of the loop of [Eth1DataVotes]: [res[i]] from
    [b.state.Eth1DataVotes[i]].  [DepositCount] is read from
    [b.state.Eth1Data], as in the source. *)
Definition Eth1DataVotes_at (b : BeaconState) (vote : option (ethpb.Eth1Data slice))
  : M (option (ethpb.Eth1Data slice)) :=
  let* e := deref (pbp2p.st_Eth1Data (state b)) in
  let res_i_DepositCount := ethpb.Eth1_DepositCount e in
  let* depositRoot := make_bytes 32 in
  let* blockHash := make_bytes 32 in
  let* v := deref vote in
  let* _ := copy_bytes depositRoot (ethpb.Eth1_DepositRoot v) in
  let* _ := copy_bytes blockHash (ethpb.Eth1_BlockHash v) in
  ret (Some {| ethpb.Eth1_DepositRoot := depositRoot;
               ethpb.Eth1_DepositCount := res_i_DepositCount;
               ethpb.Eth1_BlockHash := blockHash |}).

(** Eth1DataVotes corresponds to votes from eth2 on the canonical
    proof-of-work chain data retrieved from eth1. *)
Definition Eth1DataVotes (b : BeaconState)
  : M (slice_of (option (ethpb.Eth1Data slice))) :=
  let res :=
    make_of None (length (elems (pbp2p.st_Eth1DataVotes (state b)))) in
  fill (Eth1DataVotes_at b) 0 (elems (pbp2p.st_Eth1DataVotes (state b))) res.

(** Eth1DepositIndex corresponds to the index of the deposit made to the
    validator deposit contract at the time of this state's eth1 data. *)
Definition Eth1DepositIndex (b : BeaconState) : M Z :=
  ret (pbp2p.st_Eth1DepositIndex (state b)).

(** One round of the loop of [Validators].  [PublicKey] and
    [WithdrawalCredentials] are assigned as slices. *)
Definition Validators_at (val : option (ethpb.Validator slice))
  : M (option (ethpb.Validator slice)) :=
  let* v := deref val in
  ret (Some {| ethpb.Val_PublicKey := ethpb.Val_PublicKey v;
               ethpb.Val_WithdrawalCredentials := ethpb.Val_WithdrawalCredentials v;
               ethpb.Val_EffectiveBalance := ethpb.Val_EffectiveBalance v;
               ethpb.Val_Slashed := ethpb.Val_Slashed v;
               ethpb.Val_ActivationEligibilityEpoch := ethpb.Val_ActivationEligibilityEpoch v;
               ethpb.Val_ActivationEpoch := ethpb.Val_ActivationEpoch v;
               ethpb.Val_ExitEpoch := ethpb.Val_ExitEpoch v;
               ethpb.Val_WithdrawableEpoch := ethpb.Val_WithdrawableEpoch v |}).

(** Validators participating in consensus on the beacon chain. *)
Definition Validators (b : BeaconState)
  : M (slice_of (option (ethpb.Validator slice))) :=
  let res :=
    make_of None (length (elems (pbp2p.st_Validators (state b)))) in
  fill Validators_at 0 (elems (pbp2p.st_Validators (state b))) res.

(** Balances of validators participating in consensus on the beacon chain. *)
Definition Balances (b : BeaconState) : M slice :=
  let* res := make_uint64 (len (pbp2p.st_Balances (state b))) in
  let* _ := copy_uint64 res (pbp2p.st_Balances (state b)) in
  ret res.

(** RandaoMixes of block proposers on the beacon chain. *)
Definition RandaoMixes (b : BeaconState) : M (slice_of slice) :=
  let mixes :=
    make_of nil_slice (length (elems (pbp2p.st_RandaoMixes (state b)))) in
  fill normalize 0 (elems (pbp2p.st_RandaoMixes (state b))) mixes.

(** Slashings of validators on the beacon chain. *)
Definition Slashings (b : BeaconState) : M slice :=
  let* res := make_uint64 (len (pbp2p.st_Slashings (state b))) in
  let* _ := copy_uint64 res (pbp2p.st_Slashings (state b)) in
  ret res.

(** PreviousEpochAttestations corresponding to blocks on the beacon chain. *)
Definition PreviousEpochAttestations (b : BeaconState)
  : M (slice_of (option (pbp2p.PendingAttestation slice))) :=
  let res :=
    make_of None (length (elems (pbp2p.st_PreviousEpochAttestations (state b)))) in
  fill proto_Clone 0 (elems (pbp2p.st_PreviousEpochAttestations (state b))) res.

(** CurrentEpochAttestations corresponding to blocks on the beacon chain. *)
Definition CurrentEpochAttestations (b : BeaconState)
  : M (slice_of (option (pbp2p.PendingAttestation slice))) :=
  let res :=
    make_of None (length (elems (pbp2p.st_CurrentEpochAttestations (state b)))) in
  fill proto_Clone 0 (elems (pbp2p.st_CurrentEpochAttestations (state b))) res.

(** JustificationBits marking which epochs have been justified in the beacon
    chain.  [bitfield.Bitvector4{}] is a slice literal with no elements, so
    [res] has length 0 when [copy] runs. *)
Definition JustificationBits (b : BeaconState) : M slice :=
  let* res := make_bytes 0 in
  let* _ := copy_bytes res (pbp2p.st_JustificationBits (state b)) in
  ret res.

(** The body shared by the three checkpoint getters. *)
Definition checkpoint (c : option (ethpb.Checkpoint slice))
  : M (option (ethpb.Checkpoint slice)) :=
  let* c := deref c in
  let cp_Epoch := ethpb.Cp_Epoch c in
  let* root := make_bytes 32 in
  let* _ := copy_bytes root (ethpb.Cp_Root c) in
  ret (Some {| ethpb.Cp_Epoch := cp_Epoch; ethpb.Cp_Root := root |}).

(** PreviousJustifiedCheckpoint denoting an epoch and block root. *)
Definition PreviousJustifiedCheckpoint (b : BeaconState) :=
  checkpoint (pbp2p.st_PreviousJustifiedCheckpoint (state b)).

(** CurrentJustifiedCheckpoint denoting an epoch and block root. *)
Definition CurrentJustifiedCheckpoint (b : BeaconState) :=
  checkpoint (pbp2p.st_CurrentJustifiedCheckpoint (state b)).

(** FinalizedCheckpoint denoting an epoch and block root. *)
Definition FinalizedCheckpoint (b : BeaconState) :=
  checkpoint (pbp2p.st_FinalizedCheckpoint (state b)).

(** Clone the beacon state into a protobuf for usage. *)
Definition Clone (b : BeaconState) : M (option (pbp2p.BeaconState slice slice)) :=
  let* genesisTime := GenesisTime b in
  let* slot := Slot b in
  let* fork := Fork b in
  let* latestBlockHeader := LatestBlockHeader b in
  let* blockRoots := BlockRoots b in
  let* stateRoots := StateRoots b in
  let* historicalRoots := HistoricalRoots b in
  let* eth1Data := Eth1Data b in
  let* eth1DataVotes := Eth1DataVotes b in
  let* eth1DepositIndex := Eth1DepositIndex b in
  let* validators := Validators b in
  let* balances := Balances b in
  let* randaoMixes := RandaoMixes b in
  let* slashings := Slashings b in
  let* previousEpochAttestations := PreviousEpochAttestations b in
  let* currentEpochAttestations := CurrentEpochAttestations b in
  let* justificationBits := JustificationBits b in
  let* previousJustifiedCheckpoint := PreviousJustifiedCheckpoint b in
  let* currentJustifiedCheckpoint := CurrentJustifiedCheckpoint b in
  let* finalizedCheckpoint := FinalizedCheckpoint b in
  ret (Some {| pbp2p.st_GenesisTime := genesisTime;
               pbp2p.st_Slot := slot;
               pbp2p.st_Fork := fork;
               pbp2p.st_LatestBlockHeader := latestBlockHeader;
               pbp2p.st_BlockRoots := blockRoots;
               pbp2p.st_StateRoots := stateRoots;
               pbp2p.st_HistoricalRoots := historicalRoots;
               pbp2p.st_Eth1Data := eth1Data;
               pbp2p.st_Eth1DataVotes := eth1DataVotes;
               pbp2p.st_Eth1DepositIndex := eth1DepositIndex;
               pbp2p.st_Validators := validators;
               pbp2p.st_Balances := balances;
               pbp2p.st_RandaoMixes := randaoMixes;
               pbp2p.st_Slashings := slashings;
               pbp2p.st_PreviousEpochAttestations := previousEpochAttestations;
               pbp2p.st_CurrentEpochAttestations := currentEpochAttestations;
               pbp2p.st_JustificationBits := justificationBits;
               pbp2p.st_PreviousJustifiedCheckpoint := previousJustifiedCheckpoint;
               pbp2p.st_CurrentJustifiedCheckpoint := currentJustifiedCheckpoint;
               pbp2p.st_FinalizedCheckpoint := finalizedCheckpoint |}).

End state.

(** ** What a value holds: contents and well-formedness

    A [shape R V] says how to go over the slices of a value of type [R]:
    [sh_all P Q r] holds when [P] holds of every [[]byte] slice in [r] and
    [Q] of every [[]uint64] slice, and [sh_map f g r] is [r] with every
    slice replaced by what [f] or [g] finds behind it. *)
Record shape (R V : Type) := Shape {
  sh_all : (slice → Prop) → (slice → Prop) → R → Prop;
  sh_map : (slice → list byte) → (slice → list Z) → R → V;
}.
Arguments Shape {R V} sh_all sh_map.
Arguments sh_all {R V} s P Q r.
Arguments sh_map {R V} s f g r.

(** The contents of [r] in memory [m]. *)
Definition view {R V} (sh : shape R V) (m : mem) (r : R) : V :=
  sh_map sh (read (bytes m)) (read (words m)) r.

(** Every slice of [r] is valid in [m]. *)
Definition ok {R V} (sh : shape R V) (m : mem) (r : R) : Prop :=
  sh_all sh (valid (bytes m)) (valid (words m)) r.

Definition sh_pure (A : Type) : shape A A :=
  Shape (λ _ _ _, True) (λ _ _ a, a).

Definition sh_bytes : shape slice (list byte) :=
  Shape (λ P _ s, P s) (λ f _ s, f s).

Definition sh_uint64s : shape slice (list Z) :=
  Shape (λ _ Q s, Q s) (λ _ g s, g s).

Definition sh_option {R V} (sh : shape R V) : shape (option R) (option V) :=
  Shape (λ P Q o, match o with Some r => sh_all sh P Q r | None => True end)
        (λ f g o, sh_map sh f g <$> o).

Definition sh_list {R V} (sh : shape R V) : shape (list R) (list V) :=
  Shape (λ P Q l, Forall (sh_all sh P Q) l)
        (λ f g l, sh_map sh f g <$> l).

Definition sh_slice_of {R V} (sh : shape R V) : shape (slice_of R) (slice_of V) :=
  Shape (λ P Q s, Forall (sh_all sh P Q) (elems s))
        (λ f g s, map_of (sh_map sh f g) s).

Definition sh_Fork : shape (pbp2p.Fork slice) (pbp2p.Fork (list byte)) :=
  Shape
    (λ P _ x, P (pbp2p.Fork_PreviousVersion x) ∧ P (pbp2p.Fork_CurrentVersion x))
    (λ f _ x, {| pbp2p.Fork_PreviousVersion := f (pbp2p.Fork_PreviousVersion x);
                 pbp2p.Fork_CurrentVersion := f (pbp2p.Fork_CurrentVersion x);
                 pbp2p.Fork_Epoch := pbp2p.Fork_Epoch x |}).

Definition sh_Header
  : shape (ethpb.BeaconBlockHeader slice) (ethpb.BeaconBlockHeader (list byte)) :=
  Shape
    (λ P _ x, P (ethpb.Header_ParentRoot x) ∧ P (ethpb.Header_StateRoot x)
              ∧ P (ethpb.Header_BodyRoot x))
    (λ f _ x, {| ethpb.Header_Slot := ethpb.Header_Slot x;
                 ethpb.Header_ParentRoot := f (ethpb.Header_ParentRoot x);
                 ethpb.Header_StateRoot := f (ethpb.Header_StateRoot x);
                 ethpb.Header_BodyRoot := f (ethpb.Header_BodyRoot x) |}).

Definition sh_Eth1Data : shape (ethpb.Eth1Data slice) (ethpb.Eth1Data (list byte)) :=
  Shape
    (λ P _ x, P (ethpb.Eth1_DepositRoot x) ∧ P (ethpb.Eth1_BlockHash x))
    (λ f _ x, {| ethpb.Eth1_DepositRoot := f (ethpb.Eth1_DepositRoot x);
                 ethpb.Eth1_DepositCount := ethpb.Eth1_DepositCount x;
                 ethpb.Eth1_BlockHash := f (ethpb.Eth1_BlockHash x) |}).

Definition sh_Validator : shape (ethpb.Validator slice) (ethpb.Validator (list byte)) :=
  Shape
    (λ P _ x, P (ethpb.Val_PublicKey x) ∧ P (ethpb.Val_WithdrawalCredentials x))
    (λ f _ x,
       {| ethpb.Val_PublicKey := f (ethpb.Val_PublicKey x);
          ethpb.Val_WithdrawalCredentials := f (ethpb.Val_WithdrawalCredentials x);
          ethpb.Val_EffectiveBalance := ethpb.Val_EffectiveBalance x;
          ethpb.Val_Slashed := ethpb.Val_Slashed x;
          ethpb.Val_ActivationEligibilityEpoch := ethpb.Val_ActivationEligibilityEpoch x;
          ethpb.Val_ActivationEpoch := ethpb.Val_ActivationEpoch x;
          ethpb.Val_ExitEpoch := ethpb.Val_ExitEpoch x;
          ethpb.Val_WithdrawableEpoch := ethpb.Val_WithdrawableEpoch x |}).

Definition sh_Checkpoint : shape (ethpb.Checkpoint slice) (ethpb.Checkpoint (list byte)) :=
  Shape
    (λ P _ x, P (ethpb.Cp_Root x))
    (λ f _ x, {| ethpb.Cp_Epoch := ethpb.Cp_Epoch x;
                 ethpb.Cp_Root := f (ethpb.Cp_Root x) |}).

Definition sh_AttestationData
  : shape (ethpb.AttestationData slice) (ethpb.AttestationData (list byte)) :=
  Shape
    (λ P Q x, P (ethpb.AttData_BeaconBlockRoot x)
              ∧ sh_all (sh_option sh_Checkpoint) P Q (ethpb.AttData_Source x)
              ∧ sh_all (sh_option sh_Checkpoint) P Q (ethpb.AttData_Target x))
    (λ f g x,
       {| ethpb.AttData_Slot := ethpb.AttData_Slot x;
          ethpb.AttData_CommitteeIndex := ethpb.AttData_CommitteeIndex x;
          ethpb.AttData_BeaconBlockRoot := f (ethpb.AttData_BeaconBlockRoot x);
          ethpb.AttData_Source := sh_map (sh_option sh_Checkpoint) f g (ethpb.AttData_Source x);
          ethpb.AttData_Target := sh_map (sh_option sh_Checkpoint) f g (ethpb.AttData_Target x) |}).

Definition sh_PendingAttestation
  : shape (pbp2p.PendingAttestation slice) (pbp2p.PendingAttestation (list byte)) :=
  Shape
    (λ P Q x, P (pbp2p.Att_AggregationBits x)
              ∧ sh_all (sh_option sh_AttestationData) P Q (pbp2p.Att_Data x))
    (λ f g x,
       {| pbp2p.Att_AggregationBits := f (pbp2p.Att_AggregationBits x);
          pbp2p.Att_Data := sh_map (sh_option sh_AttestationData) f g (pbp2p.Att_Data x);
          pbp2p.Att_InclusionDelay := pbp2p.Att_InclusionDelay x;
          pbp2p.Att_ProposerIndex := pbp2p.Att_ProposerIndex x |}).

(** The shapes of the fields of the state, under the getters' names. *)
Abbreviation sh_roots := (sh_slice_of sh_bytes).
Abbreviation sh_votes := (sh_slice_of (sh_option sh_Eth1Data)).
Abbreviation sh_validators := (sh_slice_of (sh_option sh_Validator)).
Abbreviation sh_attestations := (sh_slice_of (sh_option sh_PendingAttestation)).

Definition sh_State
  : shape (pbp2p.BeaconState slice slice) (pbp2p.BeaconState (list byte) (list Z)) :=
  Shape
    (λ P Q x,
       sh_all (sh_option sh_Fork) P Q (pbp2p.st_Fork x)
       ∧ sh_all (sh_option sh_Header) P Q (pbp2p.st_LatestBlockHeader x)
       ∧ sh_all sh_roots P Q (pbp2p.st_BlockRoots x)
       ∧ sh_all sh_roots P Q (pbp2p.st_StateRoots x)
       ∧ sh_all sh_roots P Q (pbp2p.st_HistoricalRoots x)
       ∧ sh_all (sh_option sh_Eth1Data) P Q (pbp2p.st_Eth1Data x)
       ∧ sh_all sh_votes P Q (pbp2p.st_Eth1DataVotes x)
       ∧ sh_all sh_validators P Q (pbp2p.st_Validators x)
       ∧ Q (pbp2p.st_Balances x)
       ∧ sh_all sh_roots P Q (pbp2p.st_RandaoMixes x)
       ∧ Q (pbp2p.st_Slashings x)
       ∧ sh_all sh_attestations P Q (pbp2p.st_PreviousEpochAttestations x)
       ∧ sh_all sh_attestations P Q (pbp2p.st_CurrentEpochAttestations x)
       ∧ P (pbp2p.st_JustificationBits x)
       ∧ sh_all (sh_option sh_Checkpoint) P Q (pbp2p.st_PreviousJustifiedCheckpoint x)
       ∧ sh_all (sh_option sh_Checkpoint) P Q (pbp2p.st_CurrentJustifiedCheckpoint x)
       ∧ sh_all (sh_option sh_Checkpoint) P Q (pbp2p.st_FinalizedCheckpoint x))
    (λ f g x,
       {| pbp2p.st_GenesisTime := pbp2p.st_GenesisTime x;
          pbp2p.st_Slot := pbp2p.st_Slot x;
          pbp2p.st_Fork := sh_map (sh_option sh_Fork) f g (pbp2p.st_Fork x);
          pbp2p.st_LatestBlockHeader :=
            sh_map (sh_option sh_Header) f g (pbp2p.st_LatestBlockHeader x);
          pbp2p.st_BlockRoots := sh_map sh_roots f g (pbp2p.st_BlockRoots x);
          pbp2p.st_StateRoots := sh_map sh_roots f g (pbp2p.st_StateRoots x);
          pbp2p.st_HistoricalRoots := sh_map sh_roots f g (pbp2p.st_HistoricalRoots x);
          pbp2p.st_Eth1Data := sh_map (sh_option sh_Eth1Data) f g (pbp2p.st_Eth1Data x);
          pbp2p.st_Eth1DataVotes := sh_map sh_votes f g (pbp2p.st_Eth1DataVotes x);
          pbp2p.st_Eth1DepositIndex := pbp2p.st_Eth1DepositIndex x;
          pbp2p.st_Validators := sh_map sh_validators f g (pbp2p.st_Validators x);
          pbp2p.st_Balances := g (pbp2p.st_Balances x);
          pbp2p.st_RandaoMixes := sh_map sh_roots f g (pbp2p.st_RandaoMixes x);
          pbp2p.st_Slashings := g (pbp2p.st_Slashings x);
          pbp2p.st_PreviousEpochAttestations :=
            sh_map sh_attestations f g (pbp2p.st_PreviousEpochAttestations x);
          pbp2p.st_CurrentEpochAttestations :=
            sh_map sh_attestations f g (pbp2p.st_CurrentEpochAttestations x);
          pbp2p.st_JustificationBits := f (pbp2p.st_JustificationBits x);
          pbp2p.st_PreviousJustifiedCheckpoint :=
            sh_map (sh_option sh_Checkpoint) f g (pbp2p.st_PreviousJustifiedCheckpoint x);
          pbp2p.st_CurrentJustifiedCheckpoint :=
            sh_map (sh_option sh_Checkpoint) f g (pbp2p.st_CurrentJustifiedCheckpoint x);
          pbp2p.st_FinalizedCheckpoint :=
            sh_map (sh_option sh_Checkpoint) f g (pbp2p.st_FinalizedCheckpoint x) |}).

(** [sh] behaves like a container: [sh_all] is monotone, and [sh_map]
    depends only on what the functions do on the slices of the value. *)
Definition lawful {R V} (sh : shape R V) : Prop :=
  (∀ (P P' Q Q' : slice → Prop) r,
      (∀ s, P s → P' s) → (∀ s, Q s → Q' s) →
      sh_all sh P Q r → sh_all sh P' Q' r)
  ∧ (∀ f f' g g' r,
      sh_all sh (λ s, f s = f' s) (λ s, g s = g' s) r →
      sh_map sh f g r = sh_map sh f' g' r).

(** [m'] is [m] with more arrays allocated after the ones of [m]. *)
Definition extends (m m' : mem) : Prop :=
  bytes m `prefix_of` bytes m' ∧ words m `prefix_of` words m'.

(** The computation [c], started in [m], does not panic, and its result and
    final memory satisfy [Q]. *)
Definition wp {A} (c : M A) (m : mem) (Q : A → mem → Prop) : Prop :=
  match c m with
  | Ok a m' => Q a m'
  | Panic => False
  end.

(** ** Well-formed states *)

(** The nested messages are there: no nil pointer where a getter
    dereferences one. *)
Definition present (st : pbp2p.BeaconState slice slice) : Prop :=
  is_Some (pbp2p.st_Fork st)
  ∧ is_Some (pbp2p.st_LatestBlockHeader st)
  ∧ is_Some (pbp2p.st_Eth1Data st)
  ∧ Forall is_Some (elems (pbp2p.st_Eth1DataVotes st))
  ∧ Forall is_Some (elems (pbp2p.st_Validators st))
  ∧ is_Some (pbp2p.st_PreviousJustifiedCheckpoint st)
  ∧ is_Some (pbp2p.st_CurrentJustifiedCheckpoint st)
  ∧ is_Some (pbp2p.st_FinalizedCheckpoint st).

(** A state as Go can hold it: nested messages present, every slice valid
    in the memory.  Nothing is asked of the widths of the roots. *)
Definition wf (m : mem) (b : state.BeaconState) : Prop :=
  present (state.state b) ∧ ok sh_State m (state.state b).

(** ** The getters on contents

    What each getter returns, as a function of the contents of the state.
    They are read off the getters above, field for field, and
    [getter_spec] ties each of them to its getter.  A getter that makes
    a slice returns a made one, whether the stored one is nil or not. *)
Module contents.

Abbreviation State := (pbp2p.BeaconState (list byte) (list Z)).

Definition Header (h : ethpb.BeaconBlockHeader (list byte))
  : ethpb.BeaconBlockHeader (list byte) :=
  {| ethpb.Header_Slot := ethpb.Header_Slot h;
     ethpb.Header_ParentRoot := pad32 (ethpb.Header_ParentRoot h);
     ethpb.Header_StateRoot := pad32 (ethpb.Header_BodyRoot h);
     ethpb.Header_BodyRoot := pad32 (ethpb.Header_StateRoot h) |}.

Definition Eth1 (e : ethpb.Eth1Data (list byte)) : ethpb.Eth1Data (list byte) :=
  {| ethpb.Eth1_DepositRoot := pad32 (ethpb.Eth1_DepositRoot e);
     ethpb.Eth1_DepositCount := ethpb.Eth1_DepositCount e;
     ethpb.Eth1_BlockHash := pad32 (ethpb.Eth1_BlockHash e) |}.

Definition Vote (count : Z) (v : ethpb.Eth1Data (list byte))
  : ethpb.Eth1Data (list byte) :=
  {| ethpb.Eth1_DepositRoot := pad32 (ethpb.Eth1_DepositRoot v);
     ethpb.Eth1_DepositCount := count;
     ethpb.Eth1_BlockHash := pad32 (ethpb.Eth1_BlockHash v) |}.

Definition Checkpoint (c : ethpb.Checkpoint (list byte))
  : ethpb.Checkpoint (list byte) :=
  {| ethpb.Cp_Epoch := ethpb.Cp_Epoch c;
     ethpb.Cp_Root := pad32 (ethpb.Cp_Root c) |}.

Definition GenesisTime (v : State) : Z := pbp2p.st_GenesisTime v.
Definition Slot (v : State) : Z := pbp2p.st_Slot v.
Definition Fork (v : State) := pbp2p.st_Fork v.
Definition LatestBlockHeader (v : State) := Header <$> pbp2p.st_LatestBlockHeader v.
Definition BlockRoots (v : State) := Made (pad32 <$> elems (pbp2p.st_BlockRoots v)).
Definition StateRoots (v : State) := Made (pad32 <$> elems (pbp2p.st_StateRoots v)).
Definition HistoricalRoots (v : State) :=
  Made (pad32 <$> elems (pbp2p.st_HistoricalRoots v)).
Definition Eth1Data (v : State) := Eth1 <$> pbp2p.st_Eth1Data v.
Definition Eth1DataVotes (v : State) :=
  Made ((λ vote, e ← pbp2p.st_Eth1Data v; Vote (ethpb.Eth1_DepositCount e) <$> vote)
          <$> elems (pbp2p.st_Eth1DataVotes v)).
Definition Eth1DepositIndex (v : State) : Z := pbp2p.st_Eth1DepositIndex v.
Definition Validators (v : State) := Made (elems (pbp2p.st_Validators v)).
Definition Balances (v : State) := pbp2p.st_Balances v.
Definition RandaoMixes (v : State) :=
  Made (pad32 <$> elems (pbp2p.st_RandaoMixes v)).
Definition Slashings (v : State) := pbp2p.st_Slashings v.
Definition PreviousEpochAttestations (v : State) :=
  Made (elems (pbp2p.st_PreviousEpochAttestations v)).
Definition CurrentEpochAttestations (v : State) :=
  Made (elems (pbp2p.st_CurrentEpochAttestations v)).
Definition JustificationBits (v : State) : list byte := [].
Definition PreviousJustifiedCheckpoint (v : State) :=
  Checkpoint <$> pbp2p.st_PreviousJustifiedCheckpoint v.
Definition CurrentJustifiedCheckpoint (v : State) :=
  Checkpoint <$> pbp2p.st_CurrentJustifiedCheckpoint v.
Definition FinalizedCheckpoint (v : State) :=
  Checkpoint <$> pbp2p.st_FinalizedCheckpoint v.

Definition Clone (v : State) : option State :=
  Some {| pbp2p.st_GenesisTime := GenesisTime v;
          pbp2p.st_Slot := Slot v;
          pbp2p.st_Fork := Fork v;
          pbp2p.st_LatestBlockHeader := LatestBlockHeader v;
          pbp2p.st_BlockRoots := BlockRoots v;
          pbp2p.st_StateRoots := StateRoots v;
          pbp2p.st_HistoricalRoots := HistoricalRoots v;
          pbp2p.st_Eth1Data := Eth1Data v;
          pbp2p.st_Eth1DataVotes := Eth1DataVotes v;
          pbp2p.st_Eth1DepositIndex := Eth1DepositIndex v;
          pbp2p.st_Validators := Validators v;
          pbp2p.st_Balances := Balances v;
          pbp2p.st_RandaoMixes := RandaoMixes v;
          pbp2p.st_Slashings := Slashings v;
          pbp2p.st_PreviousEpochAttestations := PreviousEpochAttestations v;
          pbp2p.st_CurrentEpochAttestations := CurrentEpochAttestations v;
          pbp2p.st_JustificationBits := JustificationBits v;
          pbp2p.st_PreviousJustifiedCheckpoint := PreviousJustifiedCheckpoint v;
          pbp2p.st_CurrentJustifiedCheckpoint := CurrentJustifiedCheckpoint v;
          pbp2p.st_FinalizedCheckpoint := FinalizedCheckpoint v |}.

End contents.

(** In memory [m] the value [r] is well-formed and has contents [v]. *)
Definition holds {R V} (sh : shape R V) (r : R) (v : V) (m : mem) : Prop :=
  ok sh m r ∧ view sh m r = v.

(** The getter [acc], on a well-formed state, does not panic, only
    allocates, and returns a well-formed value whose contents are [F] of
    the contents of the state. *)
Definition getter_spec {R V} (sh : shape R V)
    (acc : state.BeaconState → M R) (F : contents.State → V) : Prop :=
  ∀ b m, wf m b →
    wp (acc b) m (λ r m',
      extends m m' ∧ holds sh r (F (view sh_State m (state.state b))) m').

(** The same for a function [f] that copies one value: on a well-formed
    [x] that satisfies [P] it returns a well-formed value with contents
    [G] of the contents of [x]. *)
Definition copier_spec {A B VA VB} (shA : shape A VA) (shB : shape B VB)
    (P : A → Prop) (f : A → M B) (G : VA → VB) : Prop :=
  ∀ x m, P x → ok shA m x →
    wp (f x) m (λ y m', extends m m' ∧ holds shB y (G (view shA m x)) m').

(** [Clone]'s field [r], read in the memory [m'] that [Clone] left, has the
    contents of what the getter [acc] returns on its own from [m]. *)
Definition agrees {R V} (sh : shape R V) (acc : M R) (m : mem) (r : R) (m' : mem) : Prop :=
  ∃ a m1, acc m = Ok a m1 ∧ view sh m' r = view sh m1 a.

(** The contents behind a root are 32 bytes. *)
Definition root32 (m : mem) (s : slice) : Prop :=
  length (read (bytes m) s) = 32.

(** The slice was allocated after everything in [h]. *)
Definition fresh_in {A} (h : heap A) (s : slice) : Prop :=
  ∃ p, ptr s = Some p ∧ length h ≤ p.

(** ** What a caller can do with a returned value *)

(** [s[i] = x] on a [[]byte]; an index out of range panics. *)
Definition set_byte (s : slice) (i : nat) (x : byte) : M unit :=
  λ m, if decide (i < len s)
       then Ok () (Mem (set_index s i x (bytes m)) (words m))
       else Panic.

(** Go's builtin [append(s, x)] on a [[]uint64]: in place when the backing
    array has room, otherwise into a new, larger array (the new capacity is
    Go's to choose; doubling here). *)
Definition append_uint64 (s : slice) (x : Z) : M slice :=
  if decide (len s < cap s) then
    λ m, Ok (Slice (ptr s) (off s) (S (len s)) (cap s))
            (Mem (bytes m) (set_index s (len s) x (words m)))
  else
    let newcap := max (S (len s)) (2 * cap s) in
    let* d := make_uint64 newcap in
    let* _ := copy_uint64 d s in
    λ m, Ok (Slice (ptr d) 0 (S (len s)) newcap)
            (Mem (bytes m) (set_index d (len s) x (words m))).

(** [Bitvector4.BitAt] of go-bitfield: false out of bounds, and out of
    bounds includes a vector that is not exactly one byte. *)
Definition BitAt (b : list byte) (idx : nat) : bool :=
  if decide (4 ≤ idx ∨ length b ≠ 1) then false
  else match b with
       | b0 :: _ =>
           let i := N.shiftl 1 (N.of_nat idx) in
           N.eqb (N.land (Byte.to_N b0) i) i
       | [] => false
       end.

(** ** A sample state

    Three validators with balances 32, 31.5 and 32 ETH in Gwei; a header
    whose parent root is stored 40 bytes wide; a block root stored 3 bytes
    wide; one eth1 vote whose deposit count differs from the one of
    [Eth1Data]; justification bits with bit 0 set. *)
Definition sample_mem : mem :=
  {| bytes :=
       [ replicate 40 xaa;          (* 0: header parent root, too wide *)
         replicate 32 x22;          (* 1: header state root *)
         replicate 32 x33;          (* 2: header body root *)
         replicate 3 x01;           (* 3: a block root, too narrow *)
         replicate 48 x07;          (* 4: public key of validator 0 *)
         replicate 32 x08;          (* 5: withdrawal credentials *)
         [x01];                     (* 6: justification bits *)
         replicate 4 x00;           (* 7: fork version *)
         replicate 32 x44;          (* 8: some well-formed root *)
         replicate 48 x09;          (* 9: public key of validator 1 *)
         replicate 48 x0a ];        (* 10: public key of validator 2 *)
     words :=
       [ [32000000000; 31500000000; 32000000000]%Z;  (* 0: balances *)
         [0; 0]%Z ] |}.             (* 1: slashings *)

Definition whole (p n : nat) : slice := Slice (Some p) 0 n n.

Definition sample_validator (key : nat) (effective : Z)
  : option (ethpb.Validator slice) :=
  Some {| ethpb.Val_PublicKey := whole key 48;
          ethpb.Val_WithdrawalCredentials := whole 5 32;
          ethpb.Val_EffectiveBalance := effective;
          ethpb.Val_Slashed := false;
          ethpb.Val_ActivationEligibilityEpoch := 0;
          ethpb.Val_ActivationEpoch := 0;
          ethpb.Val_ExitEpoch := 18446744073709551615;
          ethpb.Val_WithdrawableEpoch := 18446744073709551615 |}.

Definition sample_checkpoint (epoch : Z) : option (ethpb.Checkpoint slice) :=
  Some {| ethpb.Cp_Epoch := epoch; ethpb.Cp_Root := whole 3 3 |}.

Definition sample_attestation : option (pbp2p.PendingAttestation slice) :=
  Some {| pbp2p.Att_AggregationBits := whole 6 1;
          pbp2p.Att_Data :=
            Some {| ethpb.AttData_Slot := 9;
                    ethpb.AttData_CommitteeIndex := 1;
                    ethpb.AttData_BeaconBlockRoot := whole 8 32;
                    ethpb.AttData_Source := sample_checkpoint 1;
                    ethpb.AttData_Target := None |};
          pbp2p.Att_InclusionDelay := 1;
          pbp2p.Att_ProposerIndex := 2 |}.

Definition sample_state : pbp2p.BeaconState slice slice :=
  {| pbp2p.st_GenesisTime := 1578009600;
     pbp2p.st_Slot := 10;
     pbp2p.st_Fork :=
       Some {| pbp2p.Fork_PreviousVersion := whole 7 4;
               pbp2p.Fork_CurrentVersion := whole 7 4;
               pbp2p.Fork_Epoch := 0 |};
     pbp2p.st_LatestBlockHeader :=
       Some {| ethpb.Header_Slot := 9;
               ethpb.Header_ParentRoot := whole 0 40;
               ethpb.Header_StateRoot := whole 1 32;
               ethpb.Header_BodyRoot := whole 2 32 |};
     pbp2p.st_BlockRoots := Made [whole 3 3; whole 0 40; whole 8 32];
     pbp2p.st_StateRoots := Made [whole 1 32];
     pbp2p.st_HistoricalRoots := Made [nil_slice];
     pbp2p.st_Eth1Data :=
       Some {| ethpb.Eth1_DepositRoot := whole 8 32;
               ethpb.Eth1_DepositCount := 5;
               ethpb.Eth1_BlockHash := whole 1 32 |};
     pbp2p.st_Eth1DataVotes :=
       Made [Some {| ethpb.Eth1_DepositRoot := whole 2 32;
                     ethpb.Eth1_DepositCount := 7;
                     ethpb.Eth1_BlockHash := whole 8 32 |}];
     pbp2p.st_Eth1DepositIndex := 5;
     pbp2p.st_Validators :=
       Made [sample_validator 4 32000000000; sample_validator 9 31000000000;
             sample_validator 10 32000000000];
     pbp2p.st_Balances := whole 0 3;
     pbp2p.st_RandaoMixes := Made [whole 8 32; whole 3 3];
     pbp2p.st_Slashings := whole 1 2;
     pbp2p.st_PreviousEpochAttestations := Made [sample_attestation];
     pbp2p.st_CurrentEpochAttestations := Made [sample_attestation; None];
     pbp2p.st_JustificationBits := whole 6 1;
     pbp2p.st_PreviousJustifiedCheckpoint := sample_checkpoint 0;
     pbp2p.st_CurrentJustifiedCheckpoint := sample_checkpoint 1;
     pbp2p.st_FinalizedCheckpoint := sample_checkpoint 0 |}.

Definition sample : state.BeaconState := {| state.state := sample_state |}.

(** A state right after construction from an empty protobuf whose nested
    messages are set: every sequence is empty, and every slice is nil but
    the historical roots and the randao mixes, which are made with no
    element. *)
Definition empty_state : pbp2p.BeaconState slice slice :=
  {| pbp2p.st_GenesisTime := 0;
     pbp2p.st_Slot := 0;
     pbp2p.st_Fork :=
       Some {| pbp2p.Fork_PreviousVersion := nil_slice;
               pbp2p.Fork_CurrentVersion := nil_slice;
               pbp2p.Fork_Epoch := 0 |};
     pbp2p.st_LatestBlockHeader :=
       Some {| ethpb.Header_Slot := 0;
               ethpb.Header_ParentRoot := nil_slice;
               ethpb.Header_StateRoot := nil_slice;
               ethpb.Header_BodyRoot := nil_slice |};
     pbp2p.st_BlockRoots := Nil;
     pbp2p.st_StateRoots := Nil;
     pbp2p.st_HistoricalRoots := Made [];
     pbp2p.st_Eth1Data :=
       Some {| ethpb.Eth1_DepositRoot := nil_slice;
               ethpb.Eth1_DepositCount := 0;
               ethpb.Eth1_BlockHash := nil_slice |};
     pbp2p.st_Eth1DataVotes := Nil;
     pbp2p.st_Eth1DepositIndex := 0;
     pbp2p.st_Validators := Nil;
     pbp2p.st_Balances := nil_slice;
     pbp2p.st_RandaoMixes := Made [];
     pbp2p.st_Slashings := nil_slice;
     pbp2p.st_PreviousEpochAttestations := Nil;
     pbp2p.st_CurrentEpochAttestations := Nil;
     pbp2p.st_JustificationBits := nil_slice;
     pbp2p.st_PreviousJustifiedCheckpoint :=
       Some {| ethpb.Cp_Epoch := 0; ethpb.Cp_Root := nil_slice |};
     pbp2p.st_CurrentJustifiedCheckpoint :=
       Some {| ethpb.Cp_Epoch := 0; ethpb.Cp_Root := nil_slice |};
     pbp2p.st_FinalizedCheckpoint :=
       Some {| ethpb.Cp_Epoch := 0; ethpb.Cp_Root := nil_slice |} |}.

Definition empty_sample : state.BeaconState := {| state.state := empty_state |}.

(** ** A caller that writes into what it was given *)

(** [vs[0].PublicKey[0] = 0xff] *)
Definition scribble (vs : slice_of (option (ethpb.Validator slice))) : M unit :=
  match elems vs with
  | Some v :: _ => set_byte (ethpb.Val_PublicKey v) 0 xff
  | _ => panic
  end.

(** Two calls of [Validators], a write into the first result, and a third
    call. *)
Definition probe_Validators (b : state.BeaconState) :=
  let* a1 := state.Validators b in
  let* a2 := state.Validators b in
  let* _ := scribble a1 in
  let* a3 := state.Validators b in
  ret (a1, a2, a3).

(** Two calls of [Clone], a write into the validators of the first clone,
    and a call of [Validators]. *)
Definition probe_Clone (b : state.BeaconState) :=
  let* c1 := state.Clone b in
  let* c2 := state.Clone b in
  let* _ := scribble (from_option pbp2p.st_Validators Nil c1) in
  let* a3 := state.Validators b in
  ret (c1, c2, a3).

(** The public key of the first validator of a sequence, as found in [m]. *)
Definition first_key (m : mem) (vs : slice_of (option (ethpb.Validator slice)))
  : list byte :=
  match elems vs with
  | Some v :: _ => read (bytes m) (ethpb.Val_PublicKey v)
  | _ => []
  end.

(** ** Ownership of arrays, and writes by callers *)

(** The slice is nil or points inside [lo, hi). *)
Definition within (lo hi : nat) (s : slice) : Prop :=
  match ptr s with
  | None => True
  | Some p => lo ≤ p < hi
  end.

(** The slice is nil or points outside [lo, hi). *)
Definition avoids (lo hi : nat) (s : slice) : Prop :=
  match ptr s with
  | None => True
  | Some p => ¬ (lo ≤ p < hi)
  end.

(** A range of addresses in each heap. *)
Record region := Region { b_lo : nat; b_hi : nat; w_lo : nat; w_hi : nat }.

(** The addresses allocated on the way from [m] to [m']. *)
Definition span (m m' : mem) : region :=
  {| b_lo := length (bytes m); b_hi := length (bytes m');
     w_lo := length (words m); w_hi := length (words m') |}.

(** Every slice of [r] is nil or points into the region. *)
Definition inside {R V} (sh : shape R V) (g : region) (r : R) : Prop :=
  sh_all sh (within (b_lo g) (b_hi g)) (within (w_lo g) (w_hi g)) r.

(** No slice of [r] points into the region. *)
Definition outside {R V} (sh : shape R V) (g : region) (r : R) : Prop :=
  sh_all sh (avoids (b_lo g) (b_hi g)) (avoids (w_lo g) (w_hi g)) r.

(** The getter returns a value all of whose arrays were allocated by the
    call. *)
Definition getter_fresh {R V} (sh : shape R V) (acc : state.BeaconState → M R) : Prop :=
  ∀ b m, wf m b → wp (acc b) m (λ r m', extends m m' ∧ inside sh (span m m') r).

Definition copier_fresh {A B VA VB} (shA : shape A VA) (shB : shape B VB)
    (P : A → Prop) (f : A → M B) : Prop :=
  ∀ x m, P x → ok shA m x →
    wp (f x) m (λ y m', extends m m' ∧ inside shB (span m m') y).

(** [s[i] = x] on a [[]uint64]; an index out of range panics. *)
Definition set_uint64 (s : slice) (i : nat) (x : Z) : M unit :=
  λ m, if decide (i < len s)
       then Ok () (Mem (bytes m) (set_index s i x (words m)))
       else Panic.

(** One assignment through a slice. *)
Inductive store : Type :=
  | StoreByte (d : slice) (i : nat) (x : byte)
  | StoreUint64 (d : slice) (i : nat) (x : Z).

Definition run_store (w : store) : M unit :=
  match w with
  | StoreByte d i x => set_byte d i x
  | StoreUint64 d i x => set_uint64 d i x
  end.

(** A sequence of assignments, in order. *)
Fixpoint stores (ws : list store) : M unit :=
  match ws with
  | [] => ret ()
  | w :: ws' => let* _ := run_store w in stores ws'
  end.

(** [d] is one of the [[]byte] slices of [r]: not all of them differ from it. *)
Definition bytes_of {R V} (sh : shape R V) (r : R) (d : slice) : Prop :=
  ¬ sh_all sh (λ s, s ≠ d) (λ _, True) r.

(** [d] is one of the [[]uint64] slices of [r]. *)
Definition uint64s_of {R V} (sh : shape R V) (r : R) (d : slice) : Prop :=
  ¬ sh_all sh (λ _, True) (λ s, s ≠ d) r.

(** The assignment goes through a slice of [r]. *)
Definition into {R V} (sh : shape R V) (r : R) (w : store) : Prop :=
  match w with
  | StoreByte d _ _ => bytes_of sh r d
  | StoreUint64 d _ _ => uint64s_of sh r d
  end.

(** The assignment goes through a slice that is nil or points into the
    region. *)
Definition store_inside (g : region) (w : store) : Prop :=
  match w with
  | StoreByte d _ _ => within (b_lo g) (b_hi g) d
  | StoreUint64 d _ _ => within (w_lo g) (w_hi g) d
  end.

(** Two heaps of the same size that hold the same arrays at every address
    outside [lo, hi). *)
Definition agree_outside {A} (lo hi : nat) (h h' : heap A) : Prop :=
  length h' = length h ∧ ∀ p, ¬ (lo ≤ p < hi) → h' !! p = h !! p.

(** Two memories that differ inside the region at most. *)
Definition same_outside (g : region) (m m' : mem) : Prop :=
  agree_outside (b_lo g) (b_hi g) (bytes m) (bytes m')
  ∧ agree_outside (w_lo g) (w_hi g) (words m) (words m').

(** Alias-freedom of a getter.  Take two results [a1] and [a2] of the
    getter, one call after the other, then any sequence of assignments
    through the slices of one of them.  The other result and the state keep
    their contents, and a further call returns what the calls returned
    before. *)
Definition alias_free {R V} (sh : shape R V) (acc : state.BeaconState → M R) : Prop :=
  ∀ m b a1 m1 a2 m2 ws m3,
    wf m b →
    acc b m = Ok a1 m1 →
    acc b m1 = Ok a2 m2 →
    Forall (into sh a1) ws ∨ Forall (into sh a2) ws →
    stores ws m2 = Ok () m3 →
    (Forall (into sh a1) ws → view sh m3 a2 = view sh m2 a2)
    ∧ (Forall (into sh a2) ws → view sh m3 a1 = view sh m2 a1)
    ∧ view sh_State m3 (state.state b) = view sh_State m (state.state b)
    ∧ ∃ a3 m4, acc b m3 = Ok a3 m4 ∧ view sh m4 a3 = view sh m2 a2.

(** The computation never panics. *)
Definition runs {A} (c : M A) : Prop := ∀ m, ∃ a m', c m = Ok a m'.

(** The header with state root and body root exchanged. *)
Definition swap_state_body {B} (h : ethpb.BeaconBlockHeader B)
  : ethpb.BeaconBlockHeader B :=
  {| ethpb.Header_Slot := ethpb.Header_Slot h;
     ethpb.Header_ParentRoot := ethpb.Header_ParentRoot h;
     ethpb.Header_StateRoot := ethpb.Header_BodyRoot h;
     ethpb.Header_BodyRoot := ethpb.Header_StateRoot h |}.

(** The state with another header. *)
Definition with_header {B W} (h : option (ethpb.BeaconBlockHeader B))
    (v : pbp2p.BeaconState B W) : pbp2p.BeaconState B W :=
  {| pbp2p.st_GenesisTime := pbp2p.st_GenesisTime v;
     pbp2p.st_Slot := pbp2p.st_Slot v;
     pbp2p.st_Fork := pbp2p.st_Fork v;
     pbp2p.st_LatestBlockHeader := h;
     pbp2p.st_BlockRoots := pbp2p.st_BlockRoots v;
     pbp2p.st_StateRoots := pbp2p.st_StateRoots v;
     pbp2p.st_HistoricalRoots := pbp2p.st_HistoricalRoots v;
     pbp2p.st_Eth1Data := pbp2p.st_Eth1Data v;
     pbp2p.st_Eth1DataVotes := pbp2p.st_Eth1DataVotes v;
     pbp2p.st_Eth1DepositIndex := pbp2p.st_Eth1DepositIndex v;
     pbp2p.st_Validators := pbp2p.st_Validators v;
     pbp2p.st_Balances := pbp2p.st_Balances v;
     pbp2p.st_RandaoMixes := pbp2p.st_RandaoMixes v;
     pbp2p.st_Slashings := pbp2p.st_Slashings v;
     pbp2p.st_PreviousEpochAttestations := pbp2p.st_PreviousEpochAttestations v;
     pbp2p.st_CurrentEpochAttestations := pbp2p.st_CurrentEpochAttestations v;
     pbp2p.st_JustificationBits := pbp2p.st_JustificationBits v;
     pbp2p.st_PreviousJustifiedCheckpoint := pbp2p.st_PreviousJustifiedCheckpoint v;
     pbp2p.st_CurrentJustifiedCheckpoint := pbp2p.st_CurrentJustifiedCheckpoint v;
     pbp2p.st_FinalizedCheckpoint := pbp2p.st_FinalizedCheckpoint v |}.

(** The fixed-width invariant: every root of the state holds 32 bytes. *)
Definition fixed_width (m : mem) (st : pbp2p.BeaconState slice slice) : Prop :=
  Forall (root32 m) (elems (pbp2p.st_BlockRoots st))
  ∧ Forall (root32 m) (elems (pbp2p.st_StateRoots st))
  ∧ Forall (root32 m) (elems (pbp2p.st_HistoricalRoots st))
  ∧ Forall (root32 m) (elems (pbp2p.st_RandaoMixes st))
  ∧ (∀ h, pbp2p.st_LatestBlockHeader st = Some h →
       root32 m (ethpb.Header_ParentRoot h)
       ∧ root32 m (ethpb.Header_StateRoot h)
       ∧ root32 m (ethpb.Header_BodyRoot h))
  ∧ (∀ e, pbp2p.st_Eth1Data st = Some e →
       root32 m (ethpb.Eth1_DepositRoot e) ∧ root32 m (ethpb.Eth1_BlockHash e))
  ∧ (∀ j v, elems (pbp2p.st_Eth1DataVotes st) !! j = Some (Some v) →
       root32 m (ethpb.Eth1_DepositRoot v) ∧ root32 m (ethpb.Eth1_BlockHash v))
  ∧ (∀ c, pbp2p.st_PreviousJustifiedCheckpoint st = Some c → root32 m (ethpb.Cp_Root c))
  ∧ (∀ c, pbp2p.st_CurrentJustifiedCheckpoint st = Some c → root32 m (ethpb.Cp_Root c))
  ∧ (∀ c, pbp2p.st_FinalizedCheckpoint st = Some c → root32 m (ethpb.Cp_Root c)).

(** The state without its fork and its validators. *)
Definition without_fork_and_validators {B W} (v : pbp2p.BeaconState B W)
  : pbp2p.BeaconState B W :=
  {| pbp2p.st_GenesisTime := pbp2p.st_GenesisTime v;
     pbp2p.st_Slot := pbp2p.st_Slot v;
     pbp2p.st_Fork := None;
     pbp2p.st_LatestBlockHeader := pbp2p.st_LatestBlockHeader v;
     pbp2p.st_BlockRoots := pbp2p.st_BlockRoots v;
     pbp2p.st_StateRoots := pbp2p.st_StateRoots v;
     pbp2p.st_HistoricalRoots := pbp2p.st_HistoricalRoots v;
     pbp2p.st_Eth1Data := pbp2p.st_Eth1Data v;
     pbp2p.st_Eth1DataVotes := pbp2p.st_Eth1DataVotes v;
     pbp2p.st_Eth1DepositIndex := pbp2p.st_Eth1DepositIndex v;
     pbp2p.st_Validators := Nil;
     pbp2p.st_Balances := pbp2p.st_Balances v;
     pbp2p.st_RandaoMixes := pbp2p.st_RandaoMixes v;
     pbp2p.st_Slashings := pbp2p.st_Slashings v;
     pbp2p.st_PreviousEpochAttestations := pbp2p.st_PreviousEpochAttestations v;
     pbp2p.st_CurrentEpochAttestations := pbp2p.st_CurrentEpochAttestations v;
     pbp2p.st_JustificationBits := pbp2p.st_JustificationBits v;
     pbp2p.st_PreviousJustifiedCheckpoint := pbp2p.st_PreviousJustifiedCheckpoint v;
     pbp2p.st_CurrentJustifiedCheckpoint := pbp2p.st_CurrentJustifiedCheckpoint v;
     pbp2p.st_FinalizedCheckpoint := pbp2p.st_FinalizedCheckpoint v |}.

(** ** Heap lemmas *)

Section heap_lemmas.
Context {A : Type}.
Implicit Types (h k : heap A) (s : slice).

Lemma valid_allocated h s : valid h s → allocated h s.
Proof.
  unfold valid, allocated. destruct (ptr s) as [p|]; [|done].
  intros (arr & Hp & _). by eapply lookup_lt_Some.
Qed.

Lemma read_app h k s : allocated h s → read (h ++ k) s = read h s.
Proof.
  unfold allocated, read. destruct (ptr s) as [p|]; [|done].
  intros Hp. by rewrite lookup_app_l.
Qed.

Lemma valid_app h k s : valid h s → valid (h ++ k) s.
Proof.
  unfold valid. destruct (ptr s) as [p|]; [|done].
  intros (arr & Hp & ?). exists arr. split; [|done]. by apply lookup_app_l_Some.
Qed.

Lemma length_read h s : length (read h s) ≤ len s.
Proof.
  unfold read. destruct (ptr s); simpl; [|lia]. rewrite length_take. lia.
Qed.

Lemma length_read_valid h s : valid h s → length (read h s) = len s.
Proof.
  unfold valid, read. destruct (ptr s) as [p|].
  - intros (arr & -> & ? & ?). simpl. rewrite length_take, length_drop. lia.
  - by intros [-> _].
Qed.

Lemma length_pad (zero : A) n xs : length (pad zero n xs) = n.
Proof. unfold pad. rewrite length_app, length_take, length_replicate. lia. Qed.

Lemma pad_short (zero : A) n xs :
  length xs ≤ n → pad zero n xs = xs ++ replicate (n - length xs) zero.
Proof. intros H. unfold pad. by rewrite take_ge. Qed.

Lemma pad_long (zero : A) n xs : n ≤ length xs → pad zero n xs = take n xs.
Proof.
  intros H. unfold pad. replace (n - length xs) with 0 by lia.
  apply app_nil_r.
Qed.

Lemma pad_exact (zero : A) xs : pad zero (length xs) xs = xs.
Proof. rewrite pad_short by done. rewrite Nat.sub_diag. apply app_nil_r. Qed.

Lemma alter_last (f : list A → list A) h x :
  alter f (length h) (h ++ [x]) = h ++ [f x].
Proof. induction h as [|y h' IH]; simpl; [done|]. by f_equal. Qed.

Lemma alter_lookup_insert (f : list A → list A) k i x :
  k !! i = Some x → alter f i k = <[i := f x]> k.
Proof.
  revert i. induction k as [|y k IH]; intros [|i] Hi; simplify_eq/=; [done|].
  f_equal. by apply IH.
Qed.

(** Overwriting the front of a zeroed array. *)
Lemma inserts_zeros (zero : A) n m xs :
  length xs ≤ m →
  list_inserts 0 (take (min n m) xs) (replicate n zero) = pad zero n xs.
Proof.
  intros Hlen.
  replace (take (min n m) xs) with (take n xs).
  2:{ destruct (decide (n ≤ m)).
      - by rewrite Nat.min_l.
      - rewrite Nat.min_r by lia. by rewrite !take_ge by lia. }
  unfold pad.
  replace (replicate n zero)
    with (replicate (length (take n xs)) zero ++ replicate (n - length xs) zero).
  2:{ rewrite <-replicate_add. f_equal. rewrite length_take. lia. }
  apply list_inserts_0_r. by rewrite length_replicate.
Qed.

(** [copy] into an array that was allocated after the source and is still
    zeroed: the array becomes the padded source, nothing else changes. *)
Lemma copy_fresh (zero : A) h k i n src :
  k !! i = Some (replicate n zero) →
  valid h src →
  copy (Slice (Some (length h + i)) 0 n n) src (h ++ k)
  = (min n (len src), h ++ <[i := pad zero n (read h src)]> k).
Proof.
  intros Hi Hsrc. unfold copy. simpl. f_equal.
  rewrite read_app by by apply valid_allocated.
  rewrite alter_app_r. f_equal.
  rewrite (alter_lookup_insert _ _ _ _ Hi). f_equal.
  apply inserts_zeros, length_read.
Qed.

(** An array of [n] elements allocated after [h], read through the slice
    [make] returned for it. *)
Lemma read_fresh h k i n x :
  k !! i = Some x → length x = n →
  read (h ++ k) (Slice (Some (length h + i)) 0 n n) = x.
Proof.
  intros Hi Hn. unfold read. simpl.
  rewrite lookup_app_r by lia.
  replace (length h + i - length h) with i by lia.
  rewrite Hi. simpl. rewrite drop_0. apply take_ge. lia.
Qed.

Lemma valid_fresh h k i n x :
  k !! i = Some x → length x = n →
  valid (h ++ k) (Slice (Some (length h + i)) 0 n n).
Proof.
  intros Hi Hn. unfold valid. simpl. exists x. split; [|lia].
  rewrite lookup_app_r by lia.
  by replace (length h + i - length h) with i by lia.
Qed.

Lemma set_index_last h arr n i (x : A) :
  set_index (Slice (Some (length h)) 0 n n) i x (h ++ [arr])
  = h ++ [<[i := x]> arr].
Proof. unfold set_index. simpl. by rewrite alter_last. Qed.
End heap_lemmas.

(** ** Shapes are lawful *)

Lemma lawful_pure A : lawful (sh_pure A).
Proof. by split. Qed.

Lemma lawful_bytes : lawful sh_bytes.
Proof. split; simpl; auto. Qed.

Lemma lawful_uint64s : lawful sh_uint64s.
Proof. split; simpl; auto. Qed.

Lemma lawful_option {R V} (sh : shape R V) : lawful sh → lawful (sh_option sh).
Proof.
  intros [Hmono Hext]. split.
  - intros P P' Q Q' [r|]; simpl; eauto.
  - intros f f' g g' [r|]; simpl; [|done]. intros H. f_equal. by apply Hext.
Qed.

Lemma lawful_list {R V} (sh : shape R V) : lawful sh → lawful (sh_list sh).
Proof.
  intros [Hmono Hext]. split.
  - intros P P' Q Q' l HP HQ. simpl. intros H.
    eapply Forall_impl; [exact H|]. eauto.
  - intros f f' g g' l. simpl. intros H. apply Forall_fmap_ext.
    eapply Forall_impl; [exact H|]. intros r. apply Hext.
Qed.

Lemma lawful_slice_of {R V} (sh : shape R V) : lawful sh → lawful (sh_slice_of sh).
Proof.
  intros [Hmono Hext]. split.
  - intros P P' Q Q' s HP HQ. simpl. intros H.
    eapply Forall_impl; [exact H|]. eauto.
  - intros f f' g g' [|l]; simpl; [done|]. intros H. f_equal.
    apply Forall_fmap_ext. eapply Forall_impl; [exact H|]. intros r. apply Hext.
Qed.

Lemma elems_map_of {A B} (f : A → B) (s : slice_of A) :
  elems (map_of f s) = f <$> elems s.
Proof. by destruct s. Qed.

Lemma lawful_Fork : lawful sh_Fork.
Proof.
  split.
  - intros P P' Q Q' r HP HQ. simpl. intuition auto.
  - intros f f' g g' r. simpl. intros [H1 H2]. by rewrite H1, H2.
Qed.

Lemma lawful_Header : lawful sh_Header.
Proof.
  split.
  - intros P P' Q Q' r HP HQ. simpl. intuition auto.
  - intros f f' g g' r. simpl. intros (H1 & H2 & H3). by rewrite H1, H2, H3.
Qed.

Lemma lawful_Eth1Data : lawful sh_Eth1Data.
Proof.
  split.
  - intros P P' Q Q' r HP HQ. simpl. intuition auto.
  - intros f f' g g' r. simpl. intros [H1 H2]. by rewrite H1, H2.
Qed.

Lemma lawful_Validator : lawful sh_Validator.
Proof.
  split.
  - intros P P' Q Q' r HP HQ. simpl. intuition auto.
  - intros f f' g g' r. simpl. intros [H1 H2]. by rewrite H1, H2.
Qed.

Lemma lawful_Checkpoint : lawful sh_Checkpoint.
Proof.
  split.
  - intros P P' Q Q' r HP HQ. simpl. auto.
  - intros f f' g g' r. simpl. intros H1. by rewrite H1.
Qed.

Lemma lawful_AttestationData : lawful sh_AttestationData.
Proof.
  destruct (lawful_option _ lawful_Checkpoint) as [Hmono Hext]. split.
  - intros P P' Q Q' r HP HQ (? & ? & ?). repeat split; eauto.
  - intros f f' g g' r (Hr & Hs & Ht). unfold sh_AttestationData. cbn [sh_map].
    rewrite Hr. f_equal; by apply Hext.
Qed.

Lemma lawful_PendingAttestation : lawful sh_PendingAttestation.
Proof.
  destruct (lawful_option _ lawful_AttestationData) as [Hmono Hext]. split.
  - intros P P' Q Q' r HP HQ (? & ?). split; eauto.
  - intros f f' g g' r (Hr & Hd). unfold sh_PendingAttestation. cbn [sh_map].
    rewrite Hr. f_equal; by apply Hext.
Qed.

Create HintDb lawful.
#[global] Hint Resolve lawful_pure lawful_bytes lawful_uint64s lawful_option
  lawful_list lawful_slice_of lawful_Fork lawful_Header lawful_Eth1Data
  lawful_Validator
  lawful_Checkpoint lawful_AttestationData lawful_PendingAttestation : lawful.

Lemma lawful_State : lawful sh_State.
Proof.
  split.
  - intros P P' Q Q' r HP HQ. unfold sh_State. cbn [sh_all].
    intros H. repeat (destruct H as [? H]).
    repeat split;
      try (by apply HP); try (by apply HQ);
      match goal with
      | |- sh_all ?sh P' Q' ?x =>
          let L := fresh in
          assert (L : lawful sh) by auto 6 with lawful;
          apply (proj1 L P P' Q Q' x HP HQ); assumption
      end.
  - intros f f' g g' r. unfold sh_State. cbn [sh_all sh_map].
    intros H. repeat (destruct H as [? H]).
    f_equal; try done;
      match goal with
      | |- sh_map ?sh f g ?x = sh_map ?sh f' g' ?x =>
          let L := fresh in
          assert (L : lawful sh) by auto 6 with lawful;
          by apply (proj2 L)
      end.
Qed.
#[global] Hint Resolve lawful_State : lawful.

(** ** Growing the memory *)

Lemma extends_refl m : extends m m.
Proof. by split. Qed.

Lemma extends_trans m1 m2 m3 : extends m1 m2 → extends m2 m3 → extends m1 m3.
Proof. intros [? ?] [? ?]. split; by etrans. Qed.

Lemma valid_extends_bytes m m' s :
  extends m m' → valid (bytes m) s → valid (bytes m') s.
Proof. intros [[k ->] _]. apply valid_app. Qed.

Lemma valid_extends_words m m' s :
  extends m m' → valid (words m) s → valid (words m') s.
Proof. intros [_ [k ->]]. apply valid_app. Qed.

Lemma read_extends_bytes m m' s :
  extends m m' → valid (bytes m) s → read (bytes m') s = read (bytes m) s.
Proof. intros [[k ->] _] Hs. by apply read_app, valid_allocated. Qed.

Lemma read_extends_words m m' s :
  extends m m' → valid (words m) s → read (words m') s = read (words m) s.
Proof. intros [_ [k ->]] Hs. by apply read_app, valid_allocated. Qed.

(** A well-formed value stays well-formed when the memory grows ... *)
Lemma ok_extends {R V} (sh : shape R V) m m' r :
  lawful sh → extends m m' → ok sh m r → ok sh m' r.
Proof.
  intros [Hmono _] Hext. apply Hmono.
  - intros s. by apply valid_extends_bytes.
  - intros s. by apply valid_extends_words.
Qed.

(** ... and keeps its contents. *)
Lemma view_extends {R V} (sh : shape R V) m m' r :
  lawful sh → extends m m' → ok sh m r → view sh m' r = view sh m r.
Proof.
  intros [Hmono Hmap] Hext Hok. apply Hmap. revert Hok. apply Hmono.
  - intros s. by apply read_extends_bytes.
  - intros s. by apply read_extends_words.
Qed.

Lemma holds_extends {R V} (sh : shape R V) r v m m' :
  lawful sh → extends m m' → holds sh r v m → holds sh r v m'.
Proof.
  intros Hl Hext [Hok <-]. split; [by eapply ok_extends|by apply view_extends].
Qed.

Lemma wf_extends m m' b : extends m m' → wf m b → wf m' b.
Proof.
  intros Hext [Hp Hok]. split; [done|].
  eapply ok_extends; eauto with lawful.
Qed.

(** ** Rules for [wp] *)

Lemma wp_ret {A} (a : A) m (Q : A → mem → Prop) : Q a m → wp (ret a) m Q.
Proof. done. Qed.

Lemma wp_bind {A B} (c : M A) (k : A → M B) m (Q : B → mem → Prop) :
  wp c m (λ a m', wp (k a) m' Q) → wp (bind c k) m Q.
Proof. unfold wp, bind. by destruct (c m). Qed.

Lemma wp_mono {A} (c : M A) m (Q Q' : A → mem → Prop) :
  (∀ a m', Q a m' → Q' a m') → wp c m Q → wp c m Q'.
Proof. unfold wp. destruct (c m); auto. Qed.

Lemma wp_deref {A} (p : option A) m (Q : A → mem → Prop) :
  (∃ a, p = Some a ∧ Q a m) → wp (deref p) m Q.
Proof. by intros (a & -> & ?). Qed.

Lemma wp_run {A} (c : M A) m (Q : A → mem → Prop) :
  wp c m Q ↔ ∃ a m', c m = Ok a m' ∧ Q a m'.
Proof.
  unfold wp. destruct (c m) as [a m'|]; split.
  - eauto.
  - by intros (? & ? & [= <- <-] & ?).
  - done.
  - by intros (? & ? & ? & _).
Qed.

(** ** Straight-line blocks: allocate, then fill *)

Lemma wp_start {A} (c : M A) h w (Q : A → mem → Prop) :
  wp c (Mem (h ++ []) w) Q → wp c (Mem h w) Q.
Proof. by rewrite app_nil_r. Qed.

Lemma wp_start_words {A} (c : M A) b h (Q : A → mem → Prop) :
  wp c (Mem b (h ++ [])) Q → wp c (Mem b h) Q.
Proof. by rewrite app_nil_r. Qed.

Lemma wp_make_bytes_at h k w n (Q : slice → mem → Prop) :
  Q (Slice (Some (length h + length k)) 0 n n)
    (Mem (h ++ (k ++ [replicate n x00])) w) →
  wp (make_bytes n) (Mem (h ++ k) w) Q.
Proof. unfold wp, make_bytes, make. simpl. by rewrite length_app, <-app_assoc. Qed.

Lemma wp_copy_bytes_at h k w i n src (Q : nat → mem → Prop) :
  k !! i = Some (replicate n x00) →
  valid h src →
  Q (min n (len src)) (Mem (h ++ <[i := pad x00 n (read h src)]> k) w) →
  wp (copy_bytes (Slice (Some (length h + i)) 0 n n) src) (Mem (h ++ k) w) Q.
Proof.
  intros Hi Hsrc HQ. unfold wp, copy_bytes. cbn [bytes words].
  by rewrite (copy_fresh x00 h k i n src Hi Hsrc).
Qed.

Lemma wp_make_uint64_at h k b n (Q : slice → mem → Prop) :
  Q (Slice (Some (length h + length k)) 0 n n)
    (Mem b (h ++ (k ++ [replicate n 0%Z]))) →
  wp (make_uint64 n) (Mem b (h ++ k)) Q.
Proof. unfold wp, make_uint64, make. simpl. by rewrite length_app, <-app_assoc. Qed.

Lemma wp_copy_uint64_at h k b i n src (Q : nat → mem → Prop) :
  k !! i = Some (replicate n 0%Z) →
  valid h src →
  Q (min n (len src)) (Mem b (h ++ <[i := pad 0%Z n (read h src)]> k)) →
  wp (copy_uint64 (Slice (Some (length h + i)) 0 n n) src) (Mem b (h ++ k)) Q.
Proof.
  intros Hi Hsrc HQ. unfold wp, copy_uint64. cbn [bytes words].
  by rewrite (copy_fresh 0%Z h k i n src Hi Hsrc).
Qed.

Lemma extends_app_bytes h k w : extends (Mem h w) (Mem (h ++ k) w).
Proof. split; simpl; [by apply prefix_app_r|done]. Qed.

Lemma extends_app_words b h k : extends (Mem b h) (Mem b (h ++ k)).
Proof. split; simpl; [done|by apply prefix_app_r]. Qed.

Lemma length_pad32 bs : length (pad32 bs) = 32.
Proof. apply length_pad. Qed.

#[local] Arguments valid : simpl never.
#[local] Arguments read : simpl never.
#[local] Arguments pad : simpl never.
#[local] Arguments extends : simpl never.

(** One step of a block. *)
Ltac wp_step :=
  lazymatch goal with
  | |- wp (bind (deref _) _) _ _ =>
      apply wp_bind, wp_deref; eexists; split; [reflexivity|]; cbv beta
  | |- wp (bind (make_bytes _) _) _ _ =>
      apply wp_bind, wp_make_bytes_at; cbv beta
  | |- wp (bind (copy_bytes _ _) _) _ _ =>
      apply wp_bind, wp_copy_bytes_at; [reflexivity|assumption|]; cbv beta
  | |- wp (bind (make_uint64 _) _) _ _ =>
      apply wp_bind, wp_make_uint64_at; cbv beta
  | |- wp (bind (copy_uint64 _ _) _) _ _ =>
      apply wp_bind, wp_copy_uint64_at; [reflexivity|assumption|]; cbv beta
  | |- wp (ret _) _ _ => apply wp_ret
  end.

(** The facts about a slice [make] returned, after the block. *)
Ltac fresh_slice :=
  first
    [ apply extends_app_bytes
    | apply extends_app_words
    | eapply valid_fresh; [reflexivity|apply length_pad]
    | erewrite !read_fresh by (reflexivity || apply length_pad); reflexivity ].

(** ** The getters, one by one *)

Lemma LatestBlockHeader_spec :
  getter_spec (sh_option sh_Header) state.LatestBlockHeader contents.LatestBlockHeader.
Proof.
  intros [st] [hb hw] [Hp Hok]. simpl in *.
  destruct Hp as (_ & [h Hh] & _).
  destruct Hok as (_ & Hok & _). rewrite Hh in Hok. destruct Hok as (Hpr & Hsr & Hbr).
  unfold state.LatestBlockHeader, contents.LatestBlockHeader. simpl. rewrite Hh.
  apply wp_start. repeat wp_step.
  unfold holds, ok, view. simpl. repeat split; fresh_slice.
Qed.

(** ** Loops *)

(** The elements of the contents are the contents of the elements. *)
Lemma elems_sh_map {R V} (sh : shape R V) f g (s : slice_of R) :
  elems (sh_map (sh_slice_of sh) f g s) = sh_map sh f g <$> elems s.
Proof. by destruct s. Qed.

(** The loop, started at index [length pre] on a slice that holds [pre]
    and then zero values, one for each element still to do: it leaves a
    made slice that holds [pre] and then the values assigned. *)
Lemma fill_from {A B} (f : A → M B) (zero : B) xs pre m :
  fill f (length pre) xs (Made (pre ++ replicate (length xs) zero)) m
  = (let* ys := mapM f xs in ret (Made (pre ++ ys))) m.
Proof.
  revert pre m. induction xs as [|x xs IH]; intros pre m.
  - reflexivity.
  - cbn [fill mapM length replicate]. unfold bind.
    destruct (f x m) as [y m1|]; [|done].
    unfold set_at. cbn [elems].
    rewrite decide_True by (rewrite length_app; simpl; lia).
    unfold ret at 1. rewrite insert_app_r_alt, Nat.sub_diag by lia.
    cbn [insert list_insert].
    rewrite (cons_middle y pre), app_assoc.
    replace (S (length pre)) with (length (pre ++ [y]))
      by (rewrite length_app; simpl; lia).
    rewrite IH. unfold bind. destruct (mapM f xs m1) as [ys m2|]; [|done].
    unfold ret. by rewrite <-app_assoc.
Qed.

(** A slice made as long as [xs] and filled from [xs] is a made slice that
    holds what the loop assigned. *)
Lemma fill_made {A B} (f : A → M B) (zero : B) xs m :
  fill f 0 xs (make_of zero (length xs)) m
  = (let* ys := mapM f xs in ret (Made ys)) m.
Proof. exact (fill_from f zero xs [] m). Qed.

Lemma wp_fill {A B} (f : A → M B) (zero : B) xs m (Q : slice_of B → mem → Prop) :
  wp (mapM f xs) m (λ ys m', Q (Made ys) m') →
  wp (fill f 0 xs (make_of zero (length xs))) m Q.
Proof.
  unfold wp. rewrite fill_made. unfold bind. by destruct (mapM f xs m).
Qed.

Lemma fill_Ok_inv {A B} (f : A → M B) (zero : B) xs m r m' :
  fill f 0 xs (make_of zero (length xs)) m = Ok r m' →
  ∃ ys, r = Made ys ∧ mapM f xs m = Ok ys m'.
Proof.
  rewrite fill_made. unfold bind. destruct (mapM f xs m) as [ys m2|]; [|done].
  intros [= <- <-]. eauto.
Qed.

(** ** Copiers *)

(** Using a copier inside a longer computation. *)
Lemma wp_copier {A B VA VB} (shA : shape A VA) (shB : shape B VB)
    (P : A → Prop) f G x m (Q : B → mem → Prop) :
  copier_spec shA shB P f G → P x → ok shA m x →
  (∀ y m', extends m m' → holds shB y (G (view shA m x)) m' → Q y m') →
  wp (f x) m Q.
Proof.
  intros Hf HP Hx HQ. eapply wp_mono; [|by apply Hf].
  intros y m' [? ?]. by apply HQ.
Qed.

(** A loop over a sequence copies the sequence, element by element: same
    length, same order. *)
Lemma mapM_spec {A B VA VB} (shA : shape A VA) (shB : shape B VB)
    (P : A → Prop) f (G : VA → VB) :
  lawful shA → lawful shB →
  copier_spec shA shB P f G →
  copier_spec (sh_list shA) (sh_list shB) (Forall P) (mapM f) (fmap G).
Proof.
  intros LA LB Hf xs. induction xs as [|x xs IH]; intros m HP Hok.
  - apply wp_ret. split; [apply extends_refl|]. split; [constructor|done].
  - apply Forall_cons in HP as [HPx HPxs]. apply Forall_cons in Hok as [Hx Hxs].
    simpl mapM. apply wp_bind.
    eapply wp_copier; [exact Hf|done|done|]. intros y m1 E1 Hy.
    apply wp_bind. eapply wp_mono; [|apply IH; [done|]].
    2:{ eapply (ok_extends (sh_list shA)); eauto with lawful. }
    intros ys m2 [E2 [Hys Hvs]]. apply wp_ret.
    split; [by eapply extends_trans|].
    apply (holds_extends shB _ _ _ _ LB E2) in Hy as [Hy Hvy].
    split.
    + by apply Forall_cons.
    + unfold view in *. cbn [sh_map sh_list fmap list_fmap] in *.
      rewrite Hvy. f_equal. rewrite Hvs. f_equal.
      apply (view_extends (sh_list shA)); auto with lawful.
Qed.

(** The same for a slice that is made and then filled. *)
Lemma fill_spec {A B VA VB} (shA : shape A VA) (shB : shape B VB)
    (P : A → Prop) f (G : VA → VB) (zero : B) :
  lawful shA → lawful shB →
  copier_spec shA shB P f G →
  copier_spec (sh_slice_of shA) (sh_slice_of shB) (λ xs, Forall P (elems xs))
    (λ xs, fill f 0 (elems xs) (make_of zero (length (elems xs))))
    (λ v, Made (G <$> elems v)).
Proof.
  intros LA LB Hf xs m HP Hok. apply wp_fill.
  eapply wp_mono; [|apply (mapM_spec shA shB P f G LA LB Hf); [exact HP|exact Hok]].
  intros ys m' [E [Hys Hv]]. split; [done|]. split; [exact Hys|].
  unfold view in *. rewrite elems_sh_map.
  cbn [sh_map sh_slice_of sh_list map_of] in *. by rewrite Hv.
Qed.

Lemma normalize_spec : copier_spec sh_bytes sh_bytes (λ _, True) normalize pad32.
Proof.
  intros src [hb hw] _ Hsrc. unfold ok in Hsrc. simpl in Hsrc.
  unfold normalize. apply wp_start. repeat wp_step.
  unfold holds, ok, view. simpl. repeat split; fresh_slice.
Qed.

Lemma valid_nil_slice {A} (h : heap A) : valid h nil_slice.
Proof. by split. Qed.

Lemma clone_bytes_spec : copier_spec sh_bytes sh_bytes (λ _, True) clone_bytes id.
Proof.
  intros src [hb hw] _ Hsrc. unfold ok in Hsrc. simpl in Hsrc.
  unfold clone_bytes, is_nil. destruct (ptr src) as [p|] eqn:Hp.
  - apply wp_start. repeat wp_step.
    unfold holds, ok, view. simpl. repeat split; try fresh_slice.
    erewrite read_fresh by (reflexivity || apply length_pad).
    rewrite <-(length_read_valid hb src) by done. apply pad_exact.
  - apply wp_ret. split; [apply extends_refl|]. split.
    + apply valid_nil_slice.
    + unfold view. simpl. unfold read. simpl. by rewrite Hp.
Qed.

Lemma clone_Checkpoint_spec :
  copier_spec (sh_option sh_Checkpoint) (sh_option sh_Checkpoint)
    (λ _, True) clone_Checkpoint id.
Proof.
  intros [c|] m _ Hc; simpl.
  - apply wp_bind. eapply wp_copier; [apply clone_bytes_spec|done|exact Hc|].
    intros root m1 E1 [Hroot Hv]. apply wp_ret. split; [done|].
    split; [exact Hroot|]. unfold view in *. simpl in *. by rewrite Hv.
  - apply wp_ret. split; [apply extends_refl|]. by split.
Qed.

Lemma clone_AttestationData_spec :
  copier_spec (sh_option sh_AttestationData) (sh_option sh_AttestationData)
    (λ _, True) clone_AttestationData id.
Proof.
  intros [d|] m _ Hd; simpl.
  - destruct Hd as (Hr & Hs & Ht).
    apply wp_bind. eapply wp_copier; [apply clone_bytes_spec|done|exact Hr|].
    intros root m1 E1 Hroot.
    apply wp_bind. eapply wp_copier; [apply clone_Checkpoint_spec|done| |].
    { eapply (ok_extends (sh_option sh_Checkpoint)); eauto with lawful. }
    intros source m2 E2 Hsource.
    apply wp_bind. eapply wp_copier; [apply clone_Checkpoint_spec|done| |].
    { eapply (ok_extends (sh_option sh_Checkpoint)); [| |exact Ht]; eauto using extends_trans with lawful. }
    intros target m3 E3 [Htarget Hvt]. apply wp_ret.
    split; [eauto using extends_trans|].
    eapply (holds_extends sh_bytes) in Hroot as [Hroot Hvr];
      [|auto with lawful|eapply extends_trans; eassumption].
    eapply (holds_extends (sh_option sh_Checkpoint)) in Hsource as [Hsource Hvs];
      [|auto with lawful|eassumption].
    split; [by repeat split|].
    unfold view, id in *. simpl in *. f_equal.
    rewrite Hvr, Hvs, Hvt. f_equal.
    + apply (view_extends (sh_option sh_Checkpoint)); auto with lawful.
    + apply (view_extends (sh_option sh_Checkpoint)); eauto using extends_trans with lawful.
  - apply wp_ret. split; [apply extends_refl|]. by split.
Qed.

Lemma proto_Clone_spec :
  copier_spec (sh_option sh_PendingAttestation) (sh_option sh_PendingAttestation)
    (λ _, True) proto_Clone id.
Proof.
  intros [a|] m _ Ha; simpl.
  - destruct Ha as (Hb & Hd).
    apply wp_bind. eapply wp_copier; [apply clone_bytes_spec|done|exact Hb|].
    intros bits m1 E1 Hbits.
    apply wp_bind. eapply wp_copier; [apply clone_AttestationData_spec|done| |].
    { eapply (ok_extends (sh_option sh_AttestationData)); eauto with lawful. }
    intros data m2 E2 [Hdata Hvd]. apply wp_ret.
    split; [eauto using extends_trans|].
    eapply (holds_extends sh_bytes) in Hbits as [Hbits Hvb];
      [|auto with lawful|eassumption].
    split; [by split|].
    unfold view, id in *. simpl in *. f_equal.
    rewrite Hvb, Hvd. f_equal.
    apply (view_extends (sh_option sh_AttestationData)); auto with lawful.
  - apply wp_ret. split; [apply extends_refl|]. by split.
Qed.

Lemma Validators_at_spec :
  copier_spec (sh_option sh_Validator) (sh_option sh_Validator)
    is_Some state.Validators_at id.
Proof.
  intros val m [v ->] Hv. unfold state.Validators_at. simpl.
  apply wp_ret. split; [apply extends_refl|]. by split.
Qed.

Lemma Eth1DataVotes_at_spec b e :
  pbp2p.st_Eth1Data (state.state b) = Some e →
  copier_spec (sh_option sh_Eth1Data) (sh_option sh_Eth1Data)
    is_Some (state.Eth1DataVotes_at b)
    (fmap (contents.Vote (ethpb.Eth1_DepositCount e))).
Proof.
  intros He vote [hb hw] [v ->] [Hdr Hbh]. simpl in Hdr, Hbh.
  unfold state.Eth1DataVotes_at. rewrite He.
  apply wp_start. repeat wp_step.
  unfold holds, ok, view. simpl. repeat split; fresh_slice.
Qed.

Lemma checkpoint_spec :
  copier_spec (sh_option sh_Checkpoint) (sh_option sh_Checkpoint)
    is_Some state.checkpoint (fmap contents.Checkpoint).
Proof.
  intros cp [hb hw] [c ->] Hc. unfold ok in Hc. simpl in Hc.
  unfold state.checkpoint.
  apply wp_start. repeat wp_step.
  unfold holds, ok, view. simpl. repeat split; fresh_slice.
Qed.

(** ** Every getter meets its specification *)

(** What [wf] says about one field. *)
Ltac wf_fields H :=
  let Hp := fresh "Hp" in
  let Hok := fresh "Hok" in
  destruct H as [Hp Hok];
  destruct Hp as (Hp_fork & Hp_hdr & Hp_eth1 & Hp_votes & Hp_vals
                  & Hp_prev & Hp_cur & Hp_fin);
  destruct Hok as (Hok_fork & Hok_hdr & Hok_broots & Hok_sroots & Hok_hroots
                   & Hok_eth1 & Hok_votes & Hok_vals & Hok_bal & Hok_mixes
                   & Hok_slash & Hok_patts & Hok_catts & Hok_bits
                   & Hok_prev & Hok_cur & Hok_fin).

Lemma GenesisTime_spec : getter_spec (sh_pure Z) state.GenesisTime contents.GenesisTime.
Proof. intros b m _. apply wp_ret. split; [apply extends_refl|]. by split. Qed.

Lemma Slot_spec : getter_spec (sh_pure Z) state.Slot contents.Slot.
Proof. intros b m _. apply wp_ret. split; [apply extends_refl|]. by split. Qed.

Lemma Eth1DepositIndex_spec :
  getter_spec (sh_pure Z) state.Eth1DepositIndex contents.Eth1DepositIndex.
Proof. intros b m _. apply wp_ret. split; [apply extends_refl|]. by split. Qed.

Lemma Fork_spec : getter_spec (sh_option sh_Fork) state.Fork contents.Fork.
Proof.
  intros [st] m Hwf. wf_fields Hwf. simpl in *.
  destruct Hp_fork as [f Hf]. unfold state.Fork, contents.Fork. simpl.
  rewrite Hf in *. apply wp_ret. split; [apply extends_refl|]. by split.
Qed.

Lemma roots_spec (sel : ∀ B W, pbp2p.BeaconState B W → slice_of B) :
  (∀ m st, ok sh_State m st → ok sh_roots m (sel _ _ st)) →
  (∀ f g st, sel _ _ (sh_map sh_State f g st) = sh_map sh_roots f g (sel _ _ st)) →
  getter_spec sh_roots
    (λ b, fill normalize 0 (elems (sel _ _ (state.state b)))
            (make_of nil_slice (length (elems (sel _ _ (state.state b))))))
    (λ v, Made (pad32 <$> elems (sel _ _ v))).
Proof.
  intros Hok Hsel [st] m [_ Hst]. cbn [state.state] in *.
  eapply wp_mono;
    [|apply (fill_spec sh_bytes sh_bytes (λ _, True) normalize pad32 nil_slice
               lawful_bytes lawful_bytes normalize_spec)]; auto.
  - intros r m' [? [? Hv]]. split; [done|]. split; [done|].
    rewrite Hv. unfold view. by rewrite Hsel.
  - by apply Forall_true.
Qed.

Lemma BlockRoots_spec : getter_spec sh_roots state.BlockRoots contents.BlockRoots.
Proof.
  apply (roots_spec (@pbp2p.st_BlockRoots)); [|done].
  intros m st H. apply H.
Qed.

Lemma StateRoots_spec : getter_spec sh_roots state.StateRoots contents.StateRoots.
Proof.
  apply (roots_spec (@pbp2p.st_StateRoots)); [|done].
  intros m st H. apply H.
Qed.

Lemma HistoricalRoots_spec :
  getter_spec sh_roots state.HistoricalRoots contents.HistoricalRoots.
Proof.
  apply (roots_spec (@pbp2p.st_HistoricalRoots)); [|done].
  intros m st H. apply H.
Qed.

Lemma RandaoMixes_spec : getter_spec sh_roots state.RandaoMixes contents.RandaoMixes.
Proof.
  apply (roots_spec (@pbp2p.st_RandaoMixes)); [|done].
  intros m st H. apply H.
Qed.

Lemma Eth1Data_spec : getter_spec (sh_option sh_Eth1Data) state.Eth1Data contents.Eth1Data.
Proof.
  intros [st] [hb hw] Hwf. wf_fields Hwf. simpl in *.
  destruct Hp_eth1 as [e He]. rewrite He in Hok_eth1. destruct Hok_eth1 as [Hdr Hbh].
  unfold state.Eth1Data, contents.Eth1Data. simpl. rewrite He.
  apply wp_start. repeat wp_step.
  unfold holds, ok, view. simpl. repeat split; fresh_slice.
Qed.

Lemma Eth1DataVotes_spec :
  getter_spec sh_votes state.Eth1DataVotes contents.Eth1DataVotes.
Proof.
  intros [st] m Hwf. wf_fields Hwf. cbn [state.state] in *.
  destruct Hp_eth1 as [e He].
  eapply wp_mono;
    [|apply (fill_spec _ _ _ _ _ None (lawful_option _ lawful_Eth1Data)
               (lawful_option _ lawful_Eth1Data)
               (Eth1DataVotes_at_spec {| state.state := st |} e He)); done].
  intros r m' [? [? Hv]]. split; [done|]. split; [done|].
  rewrite Hv. unfold contents.Eth1DataVotes, view.
  cbn [sh_map sh_State pbp2p.st_Eth1Data pbp2p.st_Eth1DataVotes].
  rewrite He. done.
Qed.

Lemma Validators_spec : getter_spec sh_validators state.Validators contents.Validators.
Proof.
  intros [st] m Hwf. wf_fields Hwf. cbn [state.state] in *.
  eapply wp_mono;
    [|apply (fill_spec _ _ _ _ _ None (lawful_option _ lawful_Validator)
               (lawful_option _ lawful_Validator) Validators_at_spec); done].
  intros r m' [? [? Hv]]. split; [done|]. split; [done|].
  rewrite Hv. unfold contents.Validators, view.
  cbn [sh_map sh_State pbp2p.st_Validators].
  rewrite list_fmap_id. done.
Qed.

Lemma attestations_spec
    (sel : ∀ B W, pbp2p.BeaconState B W
                  → slice_of (option (pbp2p.PendingAttestation B))) :
  (∀ m st, ok sh_State m st → ok sh_attestations m (sel _ _ st)) →
  (∀ f g st, sel _ _ (sh_map sh_State f g st) = sh_map sh_attestations f g (sel _ _ st)) →
  getter_spec sh_attestations
    (λ b, fill proto_Clone 0 (elems (sel _ _ (state.state b)))
            (make_of None (length (elems (sel _ _ (state.state b))))))
    (λ v, Made (elems (sel _ _ v))).
Proof.
  intros Hok Hsel [st] m [_ Hst]. cbn [state.state] in *.
  eapply wp_mono;
    [|apply (fill_spec _ _ _ _ _ None (lawful_option _ lawful_PendingAttestation)
               (lawful_option _ lawful_PendingAttestation) proto_Clone_spec)];
    auto.
  - intros r m' [? [? Hv]]. split; [done|]. split; [done|].
    rewrite Hv. unfold view. rewrite Hsel. by rewrite list_fmap_id.
  - by apply Forall_true.
Qed.

Lemma PreviousEpochAttestations_spec :
  getter_spec sh_attestations state.PreviousEpochAttestations
    contents.PreviousEpochAttestations.
Proof.
  apply (attestations_spec (@pbp2p.st_PreviousEpochAttestations)); [|done].
  intros m st H. apply H.
Qed.

Lemma CurrentEpochAttestations_spec :
  getter_spec sh_attestations state.CurrentEpochAttestations
    contents.CurrentEpochAttestations.
Proof.
  apply (attestations_spec (@pbp2p.st_CurrentEpochAttestations)); [|done].
  intros m st H. apply H.
Qed.

(** [make] then [copy] of a whole [[]uint64]. *)
Lemma uint64s_spec (sel : ∀ B W, pbp2p.BeaconState B W → W) :
  (∀ m st, ok sh_State m st → valid (words m) (sel _ _ st)) →
  (∀ f g st, sel _ _ (sh_map sh_State f g st) = g (sel _ _ st)) →
  getter_spec sh_uint64s
    (λ b, let* res := make_uint64 (len (sel _ _ (state.state b))) in
          let* _ := copy_uint64 res (sel _ _ (state.state b)) in
          ret res)
    (λ v, sel _ _ v).
Proof.
  intros Hok Hsel [st] [hb hw] [_ Hst]. cbn [state.state] in *.
  apply Hok in Hst. simpl in Hst.
  apply wp_start_words. repeat wp_step.
  unfold holds, ok, view. rewrite Hsel. cbn [sh_all sh_map sh_uint64s bytes words].
  repeat split; try fresh_slice.
  erewrite read_fresh by (reflexivity || apply length_pad).
  rewrite <-(length_read_valid hw (sel _ _ st)) by done. apply pad_exact.
Qed.

Lemma Balances_spec : getter_spec sh_uint64s state.Balances contents.Balances.
Proof.
  apply (uint64s_spec (@pbp2p.st_Balances)); [|done].
  intros m st H. apply H.
Qed.

Lemma Slashings_spec : getter_spec sh_uint64s state.Slashings contents.Slashings.
Proof.
  apply (uint64s_spec (@pbp2p.st_Slashings)); [|done].
  intros m st H. apply H.
Qed.

Lemma JustificationBits_spec :
  getter_spec sh_bytes state.JustificationBits contents.JustificationBits.
Proof.
  intros [st] [hb hw] Hwf. wf_fields Hwf. simpl in *.
  unfold state.JustificationBits. simpl.
  apply wp_start. repeat wp_step.
  unfold holds, ok, view. simpl. repeat split; fresh_slice.
Qed.

Lemma checkpoints_spec (sel : ∀ B W, pbp2p.BeaconState B W → option (ethpb.Checkpoint B)) :
  (∀ st, present st → is_Some (sel _ _ st)) →
  (∀ m st, ok sh_State m st → ok (sh_option sh_Checkpoint) m (sel _ _ st)) →
  (∀ f g st, sel _ _ (sh_map sh_State f g st)
             = sh_map (sh_option sh_Checkpoint) f g (sel _ _ st)) →
  getter_spec (sh_option sh_Checkpoint) (λ b, state.checkpoint (sel _ _ (state.state b)))
    (λ v, contents.Checkpoint <$> sel _ _ v).
Proof.
  intros Hp Hok Hsel [st] m [Hpst Hst]. cbn [state.state] in *.
  eapply wp_mono; [|apply checkpoint_spec; auto].
  intros r m' [? [? Hv]]. split; [done|]. split; [done|].
  rewrite Hv. unfold view. by rewrite Hsel.
Qed.

Lemma PreviousJustifiedCheckpoint_spec :
  getter_spec (sh_option sh_Checkpoint) state.PreviousJustifiedCheckpoint
    contents.PreviousJustifiedCheckpoint.
Proof.
  apply (checkpoints_spec (@pbp2p.st_PreviousJustifiedCheckpoint)); [| |done].
  - intros st H. apply H.
  - intros m st H. apply H.
Qed.

Lemma CurrentJustifiedCheckpoint_spec :
  getter_spec (sh_option sh_Checkpoint) state.CurrentJustifiedCheckpoint
    contents.CurrentJustifiedCheckpoint.
Proof.
  apply (checkpoints_spec (@pbp2p.st_CurrentJustifiedCheckpoint)); [| |done].
  - intros st H. apply H.
  - intros m st H. apply H.
Qed.

Lemma FinalizedCheckpoint_spec :
  getter_spec (sh_option sh_Checkpoint) state.FinalizedCheckpoint
    contents.FinalizedCheckpoint.
Proof.
  apply (checkpoints_spec (@pbp2p.st_FinalizedCheckpoint)); [| |done].
  - intros st H. apply H.
  - intros m st H. apply H.
Qed.

(** ** Clone *)

(** Calling a getter in the middle of a computation that started in [m0]. *)
Lemma wp_getter {R V} (sh : shape R V) acc F b m0 m (Q : R → mem → Prop) :
  getter_spec sh acc F → wf m0 b → extends m0 m →
  (∀ r m', extends m m' → holds sh r (F (view sh_State m0 (state.state b))) m' → Q r m') →
  wp (acc b) m Q.
Proof.
  intros Hacc Hwf E HQ. eapply wp_mono; [|apply Hacc; by eapply wf_extends].
  intros r m' [E' H]. apply HQ; [done|].
  rewrite (view_extends sh_State m0 m) in H; auto with lawful. apply Hwf.
Qed.

Ltac clone_step spec :=
  apply wp_bind;
  lazymatch goal with
  | Hwf : wf ?m0 ?b, E : extends ?m0 ?m |- wp _ ?m _ =>
      eapply (wp_getter _ _ _ b m0 m _ spec Hwf E);
      let r := fresh "r" in
      let m' := fresh "m" in
      let E' := fresh "E" in
      let H := fresh "H" in
      intros r m' E' H;
      repeat match goal with
        | H0 : holds ?sh ?x ?v m |- _ =>
            apply (holds_extends sh x v m m' ltac:(auto 8 with lawful) E') in H0
        end;
      apply (extends_trans _ _ _ E) in E'; clear E
  end.

Lemma Clone_spec : getter_spec (sh_option sh_State) state.Clone contents.Clone.
Proof.
  intros b m Hwf. pose proof (extends_refl m) as E. unfold state.Clone.
  clone_step GenesisTime_spec.
  clone_step Slot_spec.
  clone_step Fork_spec.
  clone_step LatestBlockHeader_spec.
  clone_step BlockRoots_spec.
  clone_step StateRoots_spec.
  clone_step HistoricalRoots_spec.
  clone_step Eth1Data_spec.
  clone_step Eth1DataVotes_spec.
  clone_step Eth1DepositIndex_spec.
  clone_step Validators_spec.
  clone_step Balances_spec.
  clone_step RandaoMixes_spec.
  clone_step Slashings_spec.
  clone_step PreviousEpochAttestations_spec.
  clone_step CurrentEpochAttestations_spec.
  clone_step JustificationBits_spec.
  clone_step PreviousJustifiedCheckpoint_spec.
  clone_step CurrentJustifiedCheckpoint_spec.
  clone_step FinalizedCheckpoint_spec.
  apply wp_ret. split; [done|].
  repeat match goal with H : holds _ _ _ _ |- _ => destruct H as [? ?] end.
  split.
  - unfold ok. cbn [sh_all sh_option sh_State]. repeat split; assumption.
  - unfold view, contents.Clone in *.
    cbn [sh_map sh_option sh_State sh_pure sh_bytes sh_uint64s
         fmap option_fmap option_map] in *.
    do 2 f_equal; assumption.
Qed.

(** ** The sample states are well-formed *)

Lemma valid_whole {A} (h : heap A) p n arr :
  h !! p = Some arr → n ≤ length arr → valid h (whole p n).
Proof. intros Hp Hn. exists arr. simpl. split; [done|lia]. Qed.

Ltac prove_valid :=
  first [ apply valid_nil_slice
        | eapply valid_whole; [reflexivity|simpl; lia] ].

Ltac prove_wf :=
  split;
  [ repeat split; repeat constructor; eauto
  | unfold ok; simpl; repeat split; repeat constructor; simpl;
    repeat split; try prove_valid ].

Lemma sample_wf : wf sample_mem sample.
Proof. prove_wf. Qed.

Lemma empty_sample_wf : wf empty_mem empty_sample.
Proof. prove_wf. Qed.

(** ** Root normalization *)

(** C5.  Root normalization is pure and total.  For every memory and every
    valid buffer [src], [normalize] returns without panic, leaves the
    arrays that were there untouched, and hands back 32 bytes: the input
    followed by zeros when the input has at most 32 bytes (the empty input
    gives 32 zeros), the first 32 bytes of the input when it has more.  In
    particular, when the parent root of the latest block header is stored
    as 40 bytes of 0xAA, [LatestBlockHeader] returns a parent root of
    exactly 32 bytes of 0xAA. *)
Theorem normalize_pads_or_truncates
    (m : mem) (src : slice) (b : state.BeaconState) (h : ethpb.BeaconBlockHeader slice) :
  valid (bytes m) src →
  wf m b →
  pbp2p.st_LatestBlockHeader (state.state b) = Some h →
  (∃ r m',
      normalize src m = Ok r m'
      ∧ extends m m'
      ∧ length (read (bytes m') r) = 32
      ∧ (len src ≤ 32 →
         read (bytes m') r = read (bytes m) src ++ replicate (32 - len src) x00)
      ∧ (32 < len src → read (bytes m') r = take 32 (read (bytes m) src)))
  ∧ (read (bytes m) (ethpb.Header_ParentRoot h) = replicate 40 xaa →
     ∃ hdr m',
       state.LatestBlockHeader b m = Ok (Some hdr) m'
       ∧ read (bytes m') (ethpb.Header_ParentRoot hdr) = replicate 32 xaa).
Proof.
  intros Hsrc Hwf Hh. split.
  - pose proof (normalize_spec src m I Hsrc) as H.
    apply wp_run in H as (r & m' & Hrun & Hext & _ & Hv).
    unfold view in Hv. simpl in Hv.
    pose proof (length_read_valid _ _ Hsrc) as Hlen.
    exists r, m'. split; [done|]. split; [done|]. split; [|split].
    + rewrite Hv. apply length_pad32.
    + intros Hle. rewrite Hv. unfold pad32. rewrite pad_short by lia.
      by rewrite Hlen.
    + intros Hlt. rewrite Hv. unfold pad32. rewrite pad_long by lia. done.
  - intros Hparent.
    pose proof (LatestBlockHeader_spec b m Hwf) as H.
    apply wp_run in H as (r & m' & Hrun & _ & _ & Hv).
    unfold view, contents.LatestBlockHeader in Hv. simpl in Hv.
    rewrite Hh in Hv. simpl in Hv.
    destruct r as [hdr|]; [|done]. exists hdr, m'. split; [done|].
    apply (f_equal (fmap ethpb.Header_ParentRoot)) in Hv. simpl in Hv.
    injection Hv as Hv. rewrite Hv, Hparent. reflexivity.
Qed.

Lemma normalize_pads_or_truncates_witness :
  valid (bytes sample_mem) (whole 3 3)
  ∧ wf sample_mem sample
  ∧ (∃ r m',
      normalize (whole 3 3) sample_mem = Ok r m'
      ∧ extends sample_mem m'
      ∧ length (read (bytes m') r) = 32
      ∧ (3 ≤ 32 →
         read (bytes m') r
         = read (bytes sample_mem) (whole 3 3) ++ replicate (32 - 3) x00)
      ∧ (32 < 3 → read (bytes m') r = take 32 (read (bytes sample_mem) (whole 3 3))))
  ∧ (read (bytes sample_mem) (whole 0 40) = replicate 40 xaa →
     ∃ hdr m',
       state.LatestBlockHeader sample sample_mem = Ok (Some hdr) m'
       ∧ read (bytes m') (ethpb.Header_ParentRoot hdr) = replicate 32 xaa).
Proof.
  assert (Hv : valid (bytes sample_mem) (whole 3 3)) by prove_valid.
  split; [exact Hv|]. split; [exact sample_wf|].
  exact (normalize_pads_or_truncates sample_mem (whole 3 3) sample _
           Hv sample_wf eq_refl).
Defined.

(** ** Root widths on the way out *)

Lemma roots_all_32 m' (r : slice_of slice) (l : list (list byte)) :
  view sh_roots m' r = Made (pad32 <$> l) → Forall (root32 m') (elems r).
Proof.
  intros Hv.
  assert (H : Forall (λ bs, length bs = 32) (elems (view sh_roots m' r))).
  { rewrite Hv. apply Forall_fmap, Forall_true. intros bs. apply length_pad32. }
  unfold view in H. rewrite elems_sh_map in H. by apply Forall_fmap in H.
Qed.

Lemma roots_getter_32 acc F m b :
  getter_spec sh_roots acc (λ v, Made (pad32 <$> F v)) → wf m b →
  ∃ r m', acc b m = Ok (Made r) m' ∧ Forall (root32 m') r.
Proof.
  intros Hacc Hwf. pose proof (Hacc b m Hwf) as H.
  apply wp_run in H as (r & m' & Hrun & _ & _ & Hv).
  destruct r as [|r]; [done|]. exists r, m'. split; [done|].
  by apply (roots_all_32 m' (Made r) _ Hv).
Qed.

Lemma checkpoint_32 cp m :
  is_Some cp → ok (sh_option sh_Checkpoint) m cp →
  ∃ c m', state.checkpoint cp m = Ok (Some c) m' ∧ root32 m' (ethpb.Cp_Root c).
Proof.
  intros [c0 ->] Hok. pose proof (checkpoint_spec (Some c0) m) as H.
  apply wp_run in H as (r & m' & Hrun & _ & _ & Hv); [|done..].
  unfold view in Hv. simpl in Hv.
  destruct r as [c|]; [|done]. exists c, m'. split; [done|].
  simpl in Hv. injection Hv as _ Hv.
  unfold root32. rewrite Hv. apply length_pad32.
Qed.

(** C9.  Whatever the widths of the roots the state stores, every getter
    that returns roots completes without panic, and every root it returns
    is exactly 32 bytes long: [BlockRoots], [StateRoots],
    [HistoricalRoots], [RandaoMixes], [Eth1Data], the three checkpoint
    getters and [LatestBlockHeader].  ([wf] asks that the nested messages
    are there and that the slices are valid; it puts no condition on the
    length of any root.) *)
Theorem root_getters_total_32 (m : mem) (b : state.BeaconState) :
  wf m b →
  (∃ r m', state.BlockRoots b m = Ok (Made r) m' ∧ Forall (root32 m') r)
  ∧ (∃ r m', state.StateRoots b m = Ok (Made r) m' ∧ Forall (root32 m') r)
  ∧ (∃ r m', state.HistoricalRoots b m = Ok (Made r) m' ∧ Forall (root32 m') r)
  ∧ (∃ r m', state.RandaoMixes b m = Ok (Made r) m' ∧ Forall (root32 m') r)
  ∧ (∃ e m', state.Eth1Data b m = Ok (Some e) m'
       ∧ root32 m' (ethpb.Eth1_DepositRoot e) ∧ root32 m' (ethpb.Eth1_BlockHash e))
  ∧ (∃ c m', state.PreviousJustifiedCheckpoint b m = Ok (Some c) m'
       ∧ root32 m' (ethpb.Cp_Root c))
  ∧ (∃ c m', state.CurrentJustifiedCheckpoint b m = Ok (Some c) m'
       ∧ root32 m' (ethpb.Cp_Root c))
  ∧ (∃ c m', state.FinalizedCheckpoint b m = Ok (Some c) m'
       ∧ root32 m' (ethpb.Cp_Root c))
  ∧ (∃ h m', state.LatestBlockHeader b m = Ok (Some h) m'
       ∧ root32 m' (ethpb.Header_ParentRoot h)
       ∧ root32 m' (ethpb.Header_StateRoot h)
       ∧ root32 m' (ethpb.Header_BodyRoot h)).
Proof.
  intros Hwf. repeat apply conj.
  - exact (roots_getter_32 _ _ m b BlockRoots_spec Hwf).
  - exact (roots_getter_32 _ _ m b StateRoots_spec Hwf).
  - exact (roots_getter_32 _ _ m b HistoricalRoots_spec Hwf).
  - exact (roots_getter_32 _ _ m b RandaoMixes_spec Hwf).
  - pose proof (Eth1Data_spec b m Hwf) as H.
    apply wp_run in H as (r & m' & Hrun & _ & _ & Hv).
    unfold view, contents.Eth1Data in Hv. simpl in Hv.
    destruct Hwf as [(_ & _ & [e0 He0] & _) _]. rewrite He0 in Hv.
    destruct r as [e|]; [|done]. exists e, m'. split; [done|].
    simpl in Hv. injection Hv as Hdr _ Hbh.
    unfold root32. rewrite Hdr, Hbh. split; apply length_pad32.
  - apply checkpoint_32; apply Hwf.
  - apply checkpoint_32; apply Hwf.
  - apply checkpoint_32; apply Hwf.
  - pose proof (LatestBlockHeader_spec b m Hwf) as H.
    apply wp_run in H as (r & m' & Hrun & _ & _ & Hv).
    unfold view, contents.LatestBlockHeader in Hv. simpl in Hv.
    destruct Hwf as [(_ & [h0 Hh0] & _) _]. rewrite Hh0 in Hv.
    destruct r as [h|]; [|done]. exists h, m'. split; [done|].
    simpl in Hv. injection Hv as _ Hp Hs Hb.
    unfold root32. rewrite Hp, Hs, Hb. repeat split; apply length_pad32.
Qed.

Lemma root_getters_total_32_witness :
  wf sample_mem sample
  ∧ length (read (bytes sample_mem) (whole 3 3)) = 3
  ∧ length (read (bytes sample_mem) (whole 0 40)) = 40
  ∧ ∃ r m', state.BlockRoots sample sample_mem = Ok (Made r) m'
      ∧ Forall (root32 m') r.
Proof.
  split; [exact sample_wf|]. split; [reflexivity|]. split; [reflexivity|].
  exact (proj1 (root_getters_total_32 sample_mem sample sample_wf)).
Defined.

(** ** Empty sequences *)

(** C10.  A getter that returns a sequence returns an empty sequence, of
    length 0, when the sequence in the state is empty: no panic, and no nil
    in place of the sequence.  The getters that build a sequence of
    messages or of roots return the slice they made, [Made []], which is
    not the nil slice, whether the stored sequence is nil or made with no
    element; the arrays of bytes and of uint64 are left as they were.
    [Balances] and [Slashings] return a non-nil slice of length 0 with
    nothing behind it. *)
Theorem empty_in_empty_out (m : mem) (b : state.BeaconState) :
  (elems (pbp2p.st_BlockRoots (state.state b)) = [] →
   state.BlockRoots b m = Ok (Made []) m)
  ∧ (elems (pbp2p.st_StateRoots (state.state b)) = [] →
     state.StateRoots b m = Ok (Made []) m)
  ∧ (elems (pbp2p.st_HistoricalRoots (state.state b)) = [] →
     state.HistoricalRoots b m = Ok (Made []) m)
  ∧ (elems (pbp2p.st_Eth1DataVotes (state.state b)) = [] →
     state.Eth1DataVotes b m = Ok (Made []) m)
  ∧ (elems (pbp2p.st_Validators (state.state b)) = [] →
     state.Validators b m = Ok (Made []) m)
  ∧ (len (pbp2p.st_Balances (state.state b)) = 0 →
     ∃ r m', state.Balances b m = Ok r m'
       ∧ is_nil r = false ∧ len r = 0 ∧ read (words m') r = [])
  ∧ (elems (pbp2p.st_RandaoMixes (state.state b)) = [] →
     state.RandaoMixes b m = Ok (Made []) m)
  ∧ (len (pbp2p.st_Slashings (state.state b)) = 0 →
     ∃ r m', state.Slashings b m = Ok r m'
       ∧ is_nil r = false ∧ len r = 0 ∧ read (words m') r = [])
  ∧ (elems (pbp2p.st_PreviousEpochAttestations (state.state b)) = [] →
     state.PreviousEpochAttestations b m = Ok (Made []) m)
  ∧ (elems (pbp2p.st_CurrentEpochAttestations (state.state b)) = [] →
     state.CurrentEpochAttestations b m = Ok (Made []) m).
Proof.
  assert (Hw : ∀ src, len src = 0 →
    ∃ r m', (let* res := make_uint64 (len src) in
             let* _ := copy_uint64 res src in ret res) m = Ok r m'
      ∧ is_nil r = false ∧ len r = 0 ∧ read (words m') r = []).
  { intros src Hlen. rewrite Hlen. eexists _, _. split; [reflexivity|].
    split; [reflexivity|]. split; [reflexivity|].
    apply length_zero_iff_nil, Nat.le_0_r. exact (length_read _ _). }
  unfold state.BlockRoots, state.StateRoots, state.HistoricalRoots,
    state.Eth1DataVotes, state.Validators, state.RandaoMixes,
    state.PreviousEpochAttestations, state.CurrentEpochAttestations.
  repeat apply conj; try apply Hw; intros Hempty; by rewrite Hempty.
Qed.

Lemma empty_in_empty_out_witness :
  pbp2p.st_Validators (state.state empty_sample) = Nil
  ∧ state.Validators empty_sample empty_mem = Ok (Made []) empty_mem
  ∧ pbp2p.st_HistoricalRoots (state.state empty_sample) = Made []
  ∧ state.HistoricalRoots empty_sample empty_mem = Ok (Made []) empty_mem
  ∧ len (pbp2p.st_Balances (state.state empty_sample)) = 0
  ∧ ∃ r m', state.Balances empty_sample empty_mem = Ok r m'
      ∧ is_nil r = false ∧ len r = 0 ∧ read (words m') r = [].
Proof.
  pose proof (empty_in_empty_out empty_mem empty_sample) as H.
  split; [reflexivity|]. split.
  { exact (proj1 (proj2 (proj2 (proj2 (proj2 H)))) eq_refl). }
  split; [reflexivity|]. split.
  { exact (proj1 (proj2 (proj2 H)) eq_refl). }
  split; [reflexivity|].
  exact (proj1 (proj2 (proj2 (proj2 (proj2 (proj2 H))))) eq_refl).
Defined.

(** ** Clone against the getters *)

Lemma getter_run {R V} (sh : shape R V) acc F b m :
  getter_spec sh acc F → wf m b →
  ∃ a m1, acc b m = Ok a m1 ∧ view sh m1 a = F (view sh_State m (state.state b)).
Proof.
  intros Hacc Hwf. pose proof (Hacc b m Hwf) as H.
  apply wp_run in H as (a & m1 & Hrun & _ & _ & Hv). eauto.
Qed.

Lemma agrees_getter {R V} (sh : shape R V) acc F b m r m' :
  getter_spec sh acc F → wf m b →
  view sh m' r = F (view sh_State m (state.state b)) →
  agrees sh (acc b) m r m'.
Proof.
  intros Hacc Hwf Hr.
  destruct (getter_run sh acc F b m Hacc Hwf) as (a & m1 & Hrun & Hva).
  exists a, m1. split; [done|]. by rewrite Hva.
Qed.

(** C6.  On a well-formed state [Clone] returns a record that is, field
    for field, what the getters return: for each of the twenty getters, the
    contents of the field of the clone (read in the memory [Clone] leaves)
    are the contents of the result of calling that getter on the same state
    in the same memory. *)
Theorem Clone_field_for_field (m : mem) (b : state.BeaconState) :
  wf m b →
  ∃ c m',
    state.Clone b m = Ok (Some c) m'
    ∧ agrees (sh_pure Z) (state.GenesisTime b) m (pbp2p.st_GenesisTime c) m'
    ∧ agrees (sh_pure Z) (state.Slot b) m (pbp2p.st_Slot c) m'
    ∧ agrees (sh_option sh_Fork) (state.Fork b) m (pbp2p.st_Fork c) m'
    ∧ agrees (sh_option sh_Header) (state.LatestBlockHeader b) m
        (pbp2p.st_LatestBlockHeader c) m'
    ∧ agrees sh_roots (state.BlockRoots b) m (pbp2p.st_BlockRoots c) m'
    ∧ agrees sh_roots (state.StateRoots b) m (pbp2p.st_StateRoots c) m'
    ∧ agrees sh_roots (state.HistoricalRoots b) m (pbp2p.st_HistoricalRoots c) m'
    ∧ agrees (sh_option sh_Eth1Data) (state.Eth1Data b) m (pbp2p.st_Eth1Data c) m'
    ∧ agrees sh_votes (state.Eth1DataVotes b) m (pbp2p.st_Eth1DataVotes c) m'
    ∧ agrees (sh_pure Z) (state.Eth1DepositIndex b) m (pbp2p.st_Eth1DepositIndex c) m'
    ∧ agrees sh_validators (state.Validators b) m (pbp2p.st_Validators c) m'
    ∧ agrees sh_uint64s (state.Balances b) m (pbp2p.st_Balances c) m'
    ∧ agrees sh_roots (state.RandaoMixes b) m (pbp2p.st_RandaoMixes c) m'
    ∧ agrees sh_uint64s (state.Slashings b) m (pbp2p.st_Slashings c) m'
    ∧ agrees sh_attestations (state.PreviousEpochAttestations b) m
        (pbp2p.st_PreviousEpochAttestations c) m'
    ∧ agrees sh_attestations (state.CurrentEpochAttestations b) m
        (pbp2p.st_CurrentEpochAttestations c) m'
    ∧ agrees sh_bytes (state.JustificationBits b) m (pbp2p.st_JustificationBits c) m'
    ∧ agrees (sh_option sh_Checkpoint) (state.PreviousJustifiedCheckpoint b) m
        (pbp2p.st_PreviousJustifiedCheckpoint c) m'
    ∧ agrees (sh_option sh_Checkpoint) (state.CurrentJustifiedCheckpoint b) m
        (pbp2p.st_CurrentJustifiedCheckpoint c) m'
    ∧ agrees (sh_option sh_Checkpoint) (state.FinalizedCheckpoint b) m
        (pbp2p.st_FinalizedCheckpoint c) m'.
Proof.
  intros Hwf.
  destruct (getter_run _ _ _ b m Clone_spec Hwf) as (r & m' & Hrun & Hv).
  unfold view, contents.Clone in Hv.
  destruct r as [c|]; [|done]. exists c, m'. split; [done|].
  cbn [sh_map sh_option sh_State fmap option_fmap option_map] in Hv.
  injection Hv as H1 H2 H3 H4 H5 H6 H7 H8 H9 H10 H11 H12 H13 H14 H15 H16 H17
    H18 H19 H20.
  repeat apply conj.
  - exact (agrees_getter _ _ _ b m _ m' GenesisTime_spec Hwf H1).
  - exact (agrees_getter _ _ _ b m _ m' Slot_spec Hwf H2).
  - exact (agrees_getter _ _ _ b m _ m' Fork_spec Hwf H3).
  - exact (agrees_getter _ _ _ b m _ m' LatestBlockHeader_spec Hwf H4).
  - exact (agrees_getter _ _ _ b m _ m' BlockRoots_spec Hwf H5).
  - exact (agrees_getter _ _ _ b m _ m' StateRoots_spec Hwf H6).
  - exact (agrees_getter _ _ _ b m _ m' HistoricalRoots_spec Hwf H7).
  - exact (agrees_getter _ _ _ b m _ m' Eth1Data_spec Hwf H8).
  - exact (agrees_getter _ _ _ b m _ m' Eth1DataVotes_spec Hwf H9).
  - exact (agrees_getter _ _ _ b m _ m' Eth1DepositIndex_spec Hwf H10).
  - exact (agrees_getter _ _ _ b m _ m' Validators_spec Hwf H11).
  - exact (agrees_getter _ _ _ b m _ m' Balances_spec Hwf H12).
  - exact (agrees_getter _ _ _ b m _ m' RandaoMixes_spec Hwf H13).
  - exact (agrees_getter _ _ _ b m _ m' Slashings_spec Hwf H14).
  - exact (agrees_getter _ _ _ b m _ m' PreviousEpochAttestations_spec Hwf H15).
  - exact (agrees_getter _ _ _ b m _ m' CurrentEpochAttestations_spec Hwf H16).
  - exact (agrees_getter _ _ _ b m _ m' JustificationBits_spec Hwf H17).
  - exact (agrees_getter _ _ _ b m _ m' PreviousJustifiedCheckpoint_spec Hwf H18).
  - exact (agrees_getter _ _ _ b m _ m' CurrentJustifiedCheckpoint_spec Hwf H19).
  - exact (agrees_getter _ _ _ b m _ m' FinalizedCheckpoint_spec Hwf H20).
Qed.

Lemma Clone_field_for_field_witness :
  wf sample_mem sample
  ∧ ∃ c m',
      state.Clone sample sample_mem = Ok (Some c) m'
      ∧ agrees sh_validators (state.Validators sample) sample_mem
          (pbp2p.st_Validators c) m'
      ∧ agrees sh_uint64s (state.Balances sample) sample_mem
          (pbp2p.st_Balances c) m'.
Proof.
  split; [exact sample_wf|].
  destruct (Clone_field_for_field sample_mem sample sample_wf)
    as (c & m' & Hrun & H).
  exists c, m'. split; [exact Hrun|].
  split; [apply H|apply H].
Defined.

(** ** Balances *)

(** [make] then [copy] of a whole [[]uint64], as a closed form. *)
Lemma uint64s_run src hb hw :
  valid hw src →
  (let* res := make_uint64 (len src) in
   let* _ := copy_uint64 res src in
   ret res) (Mem hb hw)
  = Ok (Slice (Some (length hw)) 0 (len src) (len src))
       (Mem hb (hw ++ [read hw src])).
Proof.
  intros Hsrc. unfold bind, make_uint64, copy_uint64, make, ret. cbn [bytes words].
  pose proof (copy_fresh 0%Z hw [replicate (len src) 0%Z] 0 (len src) src
                eq_refl Hsrc) as H.
  rewrite Nat.add_0_r in H. rewrite H. simpl.
  rewrite <-(length_read_valid hw src Hsrc). by rewrite pad_exact.
Qed.

(** [append] to a slice that fills its backing array moves to a new array:
    the memory only grows. *)
Lemma append_full hb hw s x :
  valid hw s → len s = cap s →
  ∃ a' m2,
    append_uint64 s x (Mem hb hw) = Ok a' m2
    ∧ extends (Mem hb hw) m2
    ∧ read (words m2) a' = read hw s ++ [x].
Proof.
  intros Hs Hfull. unfold append_uint64.
  destruct (decide (len s < cap s)) as [?|_]; [lia|].
  set (newcap := max (S (len s)) (2 * cap s)).
  unfold bind, make_uint64, copy_uint64, make. cbn [bytes words].
  pose proof (copy_fresh 0%Z hw [replicate newcap 0%Z] 0 newcap s eq_refl Hs) as H.
  rewrite Nat.add_0_r in H. rewrite H. cbn [bytes words fst snd].
  change (<[0:=pad 0%Z newcap (read hw s)]> [replicate newcap 0%Z])
    with [pad 0%Z newcap (read hw s)].
  rewrite set_index_last.
  eexists _, _. split; [reflexivity|]. split; [apply extends_app_words|].
  cbn [words]. rewrite <-(Nat.add_0_r (length hw)).
  pose proof (length_read_valid hw s Hs) as Hlen.
  assert (Hk : ∃ k, newcap - length (read hw s) = S k).
  { exists (newcap - length (read hw s) - 1). lia. }
  destruct Hk as [k Hk].
  unfold read at 1. cbn [ptr off len].
  rewrite lookup_app_r by lia.
  replace (length hw + 0 - length hw) with 0 by lia. simpl. rewrite drop_0.
  rewrite pad_short by lia. rewrite Hk.
  rewrite <-Hlen. rewrite insert_app_r_alt by lia. rewrite Nat.sub_diag.
  simpl.
  replace (S (length (read hw s))) with (length (read hw s ++ [x]))
    by (rewrite length_app; simpl; lia).
  rewrite (cons_middle x (read hw s) (replicate k 0%Z)), app_assoc.
  apply take_app_length.
Qed.

(** C8.  On a well-formed state [Balances] returns a newly allocated
    sequence with the contents, and so the length, of the balances of the
    state.  Appending an element to the returned sequence leaves the state
    alone: a second call to [Balances] returns the same contents again.
    For the sample state, with three validators and balances
    [32000000000, 31500000000, 32000000000], this is the scenario of the
    specification: the second call still returns three balances. *)
Theorem Balances_fresh_copy (m : mem) (b : state.BeaconState) (x : Z) :
  wf m b →
  ∃ a m1,
    state.Balances b m = Ok a m1
    ∧ fresh_in (words m) a
    ∧ read (words m1) a = read (words m) (pbp2p.st_Balances (state.state b))
    ∧ ∃ a' m2,
        append_uint64 a x m1 = Ok a' m2
        ∧ read (words m2) a' = read (words m) (pbp2p.st_Balances (state.state b)) ++ [x]
        ∧ ∃ c m3,
            state.Balances b m2 = Ok c m3
            ∧ read (words m3) c = read (words m) (pbp2p.st_Balances (state.state b))
            ∧ length (read (words m3) c)
              = length (read (words m) (pbp2p.st_Balances (state.state b))).
Proof.
  intros Hwf. destruct m as [hb hw].
  assert (Hbal : valid hw (pbp2p.st_Balances (state.state b))) by apply Hwf.
  set (src := pbp2p.st_Balances (state.state b)) in *.
  eexists _, _. split; [apply uint64s_run; exact Hbal|].
  split; [eexists; split; [reflexivity|done]|].
  assert (Hread : read (hw ++ [read hw src])
                    (Slice (Some (length hw)) 0 (len src) (len src))
                  = read hw src).
  { rewrite <-(Nat.add_0_r (length hw)).
    apply read_fresh; [done|]. by apply length_read_valid. }
  split; [exact Hread|].
  destruct (append_full hb (hw ++ [read hw src])
              (Slice (Some (length hw)) 0 (len src) (len src)) x)
    as (a' & m2 & Happ & Hext & Hra'); [|done|].
  { rewrite <-(Nat.add_0_r (length hw)).
    eapply valid_fresh; [reflexivity|]. by apply length_read_valid. }
  exists a', m2. split; [exact Happ|]. rewrite Hread in Hra'. split; [exact Hra'|].
  assert (Hext2 : extends (Mem hb hw) m2).
  { eapply extends_trans; [apply extends_app_words|exact Hext]. }
  destruct (getter_run _ _ _ b m2 Balances_spec (wf_extends _ _ _ Hext2 Hwf))
    as (c & m3 & Hrun & Hv).
  exists c, m3. split; [exact Hrun|].
  unfold view, contents.Balances in Hv. simpl in Hv.
  fold src in Hv. rewrite Hv.
  rewrite (read_extends_words _ _ _ Hext2 Hbal). done.
Qed.

Lemma Balances_fresh_copy_witness :
  wf sample_mem sample
  ∧ length (elems (pbp2p.st_Validators (state.state sample))) = 3
  ∧ read (words sample_mem) (pbp2p.st_Balances (state.state sample))
    = [32000000000; 31500000000; 32000000000]%Z
  ∧ ∃ a m1,
      state.Balances sample sample_mem = Ok a m1
      ∧ fresh_in (words sample_mem) a
      ∧ read (words m1) a = [32000000000; 31500000000; 32000000000]%Z
      ∧ ∃ a' m2,
          append_uint64 a 32000000000%Z m1 = Ok a' m2
          ∧ read (words m2) a'
            = [32000000000; 31500000000; 32000000000; 32000000000]%Z
          ∧ ∃ c m3,
              state.Balances sample m2 = Ok c m3
              ∧ read (words m3) c = [32000000000; 31500000000; 32000000000]%Z
              ∧ length (read (words m3) c) = 3.
Proof.
  split; [exact sample_wf|]. split; [reflexivity|]. split; [reflexivity|].
  exact (Balances_fresh_copy sample_mem sample 32000000000%Z sample_wf).
Defined.

(** ** Where the getters depart from the specification *)

(** C1.  [LatestBlockHeader] on the sample state, whose header stores the
    state root 0x22.. and the body root 0x33..: the header returned has
    state root 0x33.. and body root 0x22.., each the normalized contents of
    the other stored field. *)
Theorem LatestBlockHeader_swaps_state_and_body :
  ∃ h m',
    state.LatestBlockHeader sample sample_mem = Ok (Some h) m'
    ∧ view (sh_option sh_Header) sample_mem (pbp2p.st_LatestBlockHeader sample_state)
      = Some {| ethpb.Header_Slot := 9;
                ethpb.Header_ParentRoot := replicate 40 xaa;
                ethpb.Header_StateRoot := replicate 32 x22;
                ethpb.Header_BodyRoot := replicate 32 x33 |}
    ∧ view sh_Header m' h
      = {| ethpb.Header_Slot := 9;
           ethpb.Header_ParentRoot := replicate 32 xaa;
           ethpb.Header_StateRoot := replicate 32 x33;
           ethpb.Header_BodyRoot := replicate 32 x22 |}
    ∧ ethpb.Header_StateRoot (view sh_Header m' h) ≠ pad32 (replicate 32 x22).
Proof.
  eexists _, _. split; [vm_compute; reflexivity|].
  split; [vm_compute; reflexivity|]. split; [vm_compute; reflexivity|].
  vm_compute. discriminate.
Qed.

(** C2.  [Eth1DataVotes] on the sample state, whose only vote has deposit
    count 7 while [Eth1Data] has deposit count 5: the vote returned has
    deposit count 5. *)
Theorem Eth1DataVotes_takes_count_from_Eth1Data :
  ∃ v m',
    state.Eth1DataVotes sample sample_mem = Ok (Made [Some v]) m'
    ∧ (λ vote : option (ethpb.Eth1Data slice), ethpb.Eth1_DepositCount <$> vote)
        <$> elems (pbp2p.st_Eth1DataVotes sample_state) = [Some 7%Z]
    ∧ ethpb.Eth1_DepositCount <$> pbp2p.st_Eth1Data sample_state = Some 5%Z
    ∧ ethpb.Eth1_DepositCount v = 5%Z.
Proof.
  eexists _, _. split; [vm_compute; reflexivity|]. by repeat split.
Qed.

(** C3.  [JustificationBits] on the sample state, whose justification bits
    are the byte 0x01: the vector returned holds no byte at all, so bit 0,
    set in the state, reads as not set in the result. *)
Theorem JustificationBits_returns_no_bits :
  ∃ r m',
    state.JustificationBits sample sample_mem = Ok r m'
    ∧ read (bytes sample_mem) (pbp2p.st_JustificationBits sample_state) = [x01]
    ∧ read (bytes m') r = []
    ∧ BitAt (read (bytes sample_mem) (pbp2p.st_JustificationBits sample_state)) 0 = true
    ∧ BitAt (read (bytes m') r) 0 = false.
Proof.
  eexists _, _. split; [vm_compute; reflexivity|]. by repeat split.
Qed.

(** C4.  Two calls of [Validators] on the sample state, then a write of
    0xff into the first byte of the public key of the first validator of
    the first result.  The same byte changes in the second result, in the
    state, and in what a later call returns: the public key is shared. *)
Theorem Validators_shares_public_keys :
  ∃ a1 a2 a3 m',
    probe_Validators sample sample_mem = Ok (a1, a2, a3) m'
    ∧ first_key sample_mem (pbp2p.st_Validators sample_state) = replicate 48 x07
    ∧ first_key sample_mem a2 = replicate 48 x07
    ∧ first_key m' a2 = xff :: replicate 47 x07
    ∧ first_key m' (pbp2p.st_Validators sample_state) = xff :: replicate 47 x07
    ∧ first_key m' a3 = xff :: replicate 47 x07.
Proof.
  eexists _, _, _, _. split; [vm_compute; reflexivity|]. by repeat split.
Qed.

(** Two clones taken one after the other have the same contents. *)
Lemma Clone_twice_equal m b c1 m1 c2 m2 :
  wf m b →
  state.Clone b m = Ok c1 m1 → state.Clone b m1 = Ok c2 m2 →
  view (sh_option sh_State) m2 c1 = view (sh_option sh_State) m2 c2.
Proof.
  intros Hwf H1 H2.
  pose proof (Clone_spec b m Hwf) as S1. unfold wp in S1. rewrite H1 in S1.
  destruct S1 as (E1 & Hok1 & Hv1).
  pose proof (Clone_spec b m1 (wf_extends _ _ _ E1 Hwf)) as S2.
  unfold wp in S2. rewrite H2 in S2. destruct S2 as (E2 & Hok2 & Hv2).
  rewrite Hv2, (view_extends (sh_option sh_State) m1 m2), Hv1;
    auto with lawful.
  f_equal. symmetry. apply (view_extends sh_State); auto with lawful. apply Hwf.
Qed.

(** C7.  Two calls of [Clone] on the sample state, then a write of 0xff
    into the first byte of the public key of the first validator of the
    first clone.  The same byte changes in the second clone, in the state,
    and in what [Validators] returns afterwards. *)
Theorem Clone_shares_public_keys :
  ∃ c1 c2 a3 m',
    probe_Clone sample sample_mem = Ok (Some c1, Some c2, a3) m'
    ∧ first_key sample_mem (pbp2p.st_Validators sample_state) = replicate 48 x07
    ∧ first_key m' (pbp2p.st_Validators c2) = xff :: replicate 47 x07
    ∧ first_key m' (pbp2p.st_Validators sample_state) = xff :: replicate 47 x07
    ∧ first_key m' a3 = xff :: replicate 47 x07.
Proof.
  eexists _, _, _, _. split; [vm_compute; reflexivity|]. by repeat split.
Qed.

(** ** What a getter allocates *)

Lemma within_widen lo hi lo' hi' s :
  lo' ≤ lo → hi ≤ hi' → within lo hi s → within lo' hi' s.
Proof. unfold within. destruct (ptr s); [lia|done]. Qed.

Lemma extends_length m m' :
  extends m m' →
  length (bytes m) ≤ length (bytes m') ∧ length (words m) ≤ length (words m').
Proof. intros [Hb Hw]. split; by apply prefix_length. Qed.

Lemma inside_widen {R V} (sh : shape R V) m0 m m' m1 r :
  lawful sh → extends m0 m → extends m' m1 →
  inside sh (span m m') r → inside sh (span m0 m1) r.
Proof.
  intros [Hmono _] E0 E1. apply extends_length in E0 as [? ?].
  apply extends_length in E1 as [? ?].
  apply Hmono; intros s; by apply within_widen.
Qed.

Lemma wp_fresh {A B VA VB} (shA : shape A VA) (shB : shape B VB)
    (P : A → Prop) f x m (Q : B → mem → Prop) :
  copier_fresh shA shB P f → P x → ok shA m x →
  (∀ y m', extends m m' → inside shB (span m m') y → Q y m') →
  wp (f x) m Q.
Proof.
  intros Hf HP Hx HQ. eapply wp_mono; [|by apply Hf].
  intros y m' [? ?]. by apply HQ.
Qed.

Lemma mapM_fresh {A B VA VB} (shA : shape A VA) (shB : shape B VB)
    (P : A → Prop) f :
  lawful shA → lawful shB →
  copier_fresh shA shB P f →
  copier_fresh (sh_list shA) (sh_list shB) (Forall P) (mapM f).
Proof.
  intros LA LB Hf xs. induction xs as [|x xs IH]; intros m HP Hok.
  - apply wp_ret. split; [apply extends_refl|constructor].
  - apply Forall_cons in HP as [HPx HPxs]. apply Forall_cons in Hok as [Hx Hxs].
    simpl mapM. apply wp_bind.
    eapply wp_fresh; [exact Hf|done|done|]. intros y m1 E1 Hy.
    apply wp_bind. eapply wp_mono; [|apply IH; [done|]].
    2:{ eapply (ok_extends (sh_list shA)); eauto with lawful. }
    intros ys m2 [E2 Hys]. apply wp_ret.
    split; [by eapply extends_trans|].
    apply Forall_cons. split.
    + eapply (inside_widen shB m m m1 m2); eauto using extends_refl.
    + eapply (inside_widen (sh_list shB) m m1 m2 m2);
        eauto using extends_refl with lawful.
Qed.

Lemma fill_fresh {A B VA VB} (shA : shape A VA) (shB : shape B VB)
    (P : A → Prop) f (zero : B) :
  lawful shA → lawful shB →
  copier_fresh shA shB P f →
  copier_fresh (sh_slice_of shA) (sh_slice_of shB) (λ xs, Forall P (elems xs))
    (λ xs, fill f 0 (elems xs) (make_of zero (length (elems xs)))).
Proof.
  intros LA LB Hf xs m HP Hok. apply wp_fill.
  exact (mapM_fresh shA shB P f LA LB Hf (elems xs) m HP Hok).
Qed.

(** A slice [make] returned lies in what the block allocated. *)
Ltac fresh_inside :=
  first
    [ apply extends_app_bytes
    | apply extends_app_words
    | unfold within; simpl; rewrite ?length_app; simpl; lia ].

Lemma normalize_fresh : copier_fresh sh_bytes sh_bytes (λ _, True) normalize.
Proof.
  intros src [hb hw] _ Hsrc. unfold ok in Hsrc. simpl in Hsrc.
  unfold normalize. apply wp_start. repeat wp_step.
  unfold inside, span. simpl. repeat split; fresh_inside.
Qed.

Lemma clone_bytes_fresh : copier_fresh sh_bytes sh_bytes (λ _, True) clone_bytes.
Proof.
  intros src [hb hw] _ Hsrc. unfold ok in Hsrc. simpl in Hsrc.
  unfold clone_bytes, is_nil. destruct (ptr src) as [p|] eqn:Hp.
  - apply wp_start. repeat wp_step.
    unfold inside, span. simpl. repeat split; fresh_inside.
  - apply wp_ret. split; [apply extends_refl|]. by unfold inside.
Qed.

Lemma clone_Checkpoint_fresh :
  copier_fresh (sh_option sh_Checkpoint) (sh_option sh_Checkpoint)
    (λ _, True) clone_Checkpoint.
Proof.
  intros [c|] m _ Hc; simpl.
  - apply wp_bind. eapply wp_fresh; [apply clone_bytes_fresh|done|exact Hc|].
    intros root m1 E1 Hroot. apply wp_ret. by split.
  - apply wp_ret. split; [apply extends_refl|]. by unfold inside.
Qed.

Lemma clone_AttestationData_fresh :
  copier_fresh (sh_option sh_AttestationData) (sh_option sh_AttestationData)
    (λ _, True) clone_AttestationData.
Proof.
  intros [d|] m _ Hd; simpl.
  - destruct Hd as (Hr & Hs & Ht).
    apply wp_bind. eapply wp_fresh; [apply clone_bytes_fresh|done|exact Hr|].
    intros root m1 E1 Hroot.
    apply wp_bind. eapply wp_fresh; [apply clone_Checkpoint_fresh|done| |].
    { eapply (ok_extends (sh_option sh_Checkpoint)); eauto with lawful. }
    intros source m2 E2 Hsource.
    apply wp_bind. eapply wp_fresh; [apply clone_Checkpoint_fresh|done| |].
    { eapply (ok_extends (sh_option sh_Checkpoint)); [| |exact Ht];
        eauto using extends_trans with lawful. }
    intros target m3 E3 Htarget. apply wp_ret.
    split; [eauto using extends_trans|].
    repeat split.
    + eapply (inside_widen sh_bytes m m m1 m3);
        eauto using extends_refl, extends_trans with lawful.
    + eapply (inside_widen (sh_option sh_Checkpoint) m m1 m2 m3);
        eauto using extends_refl with lawful.
    + eapply (inside_widen (sh_option sh_Checkpoint) m m2 m3 m3);
        eauto using extends_refl, extends_trans with lawful.
  - apply wp_ret. split; [apply extends_refl|]. by unfold inside.
Qed.

Lemma proto_Clone_fresh :
  copier_fresh (sh_option sh_PendingAttestation) (sh_option sh_PendingAttestation)
    (λ _, True) proto_Clone.
Proof.
  intros [a|] m _ Ha; simpl.
  - destruct Ha as (Hb & Hd).
    apply wp_bind. eapply wp_fresh; [apply clone_bytes_fresh|done|exact Hb|].
    intros bits m1 E1 Hbits.
    apply wp_bind. eapply wp_fresh; [apply clone_AttestationData_fresh|done| |].
    { eapply (ok_extends (sh_option sh_AttestationData)); eauto with lawful. }
    intros data m2 E2 Hdata. apply wp_ret.
    split; [eauto using extends_trans|].
    split.
    + eapply (inside_widen sh_bytes m m m1 m2);
        eauto using extends_refl with lawful.
    + eapply (inside_widen (sh_option sh_AttestationData) m m1 m2 m2);
        eauto using extends_refl with lawful.
  - apply wp_ret. split; [apply extends_refl|]. by unfold inside.
Qed.

Lemma Eth1DataVotes_at_fresh b e :
  pbp2p.st_Eth1Data (state.state b) = Some e →
  copier_fresh (sh_option sh_Eth1Data) (sh_option sh_Eth1Data)
    is_Some (state.Eth1DataVotes_at b).
Proof.
  intros He vote [hb hw] [v ->] [Hdr Hbh]. simpl in Hdr, Hbh.
  unfold state.Eth1DataVotes_at. rewrite He.
  apply wp_start. repeat wp_step.
  unfold inside, span. simpl. repeat split; fresh_inside.
Qed.

Lemma checkpoint_fresh :
  copier_fresh (sh_option sh_Checkpoint) (sh_option sh_Checkpoint)
    is_Some state.checkpoint.
Proof.
  intros cp [hb hw] [c ->] Hc. unfold ok in Hc. simpl in Hc.
  unfold state.checkpoint.
  apply wp_start. repeat wp_step.
  unfold inside, span. simpl. repeat split; fresh_inside.
Qed.

Lemma pure_fresh {A} (acc : state.BeaconState → M A) (f : state.BeaconState → A) :
  (∀ b, acc b = ret (f b)) → getter_fresh (sh_pure A) acc.
Proof.
  intros Hacc b m _. rewrite Hacc. apply wp_ret.
  split; [apply extends_refl|]. by unfold inside.
Qed.

Lemma LatestBlockHeader_fresh : getter_fresh (sh_option sh_Header) state.LatestBlockHeader.
Proof.
  intros [st] [hb hw] Hwf. wf_fields Hwf. simpl in *.
  destruct Hp_hdr as [h Hh]. rewrite Hh in Hok_hdr.
  destruct Hok_hdr as (Hpr & Hsr & Hbr).
  unfold state.LatestBlockHeader. simpl. rewrite Hh.
  apply wp_start. repeat wp_step.
  unfold inside, span. simpl. repeat split; fresh_inside.
Qed.

Lemma Eth1Data_fresh : getter_fresh (sh_option sh_Eth1Data) state.Eth1Data.
Proof.
  intros [st] [hb hw] Hwf. wf_fields Hwf. simpl in *.
  destruct Hp_eth1 as [e He]. rewrite He in Hok_eth1. destruct Hok_eth1 as [Hdr Hbh].
  unfold state.Eth1Data. simpl. rewrite He.
  apply wp_start. repeat wp_step.
  unfold inside, span. simpl. repeat split; fresh_inside.
Qed.

Lemma roots_fresh (sel : ∀ B W, pbp2p.BeaconState B W → slice_of B) :
  (∀ m st, ok sh_State m st → ok sh_roots m (sel _ _ st)) →
  getter_fresh sh_roots
    (λ b, fill normalize 0 (elems (sel _ _ (state.state b)))
            (make_of nil_slice (length (elems (sel _ _ (state.state b)))))).
Proof.
  intros Hok [st] m [_ Hst]. cbn [state.state] in *.
  apply (fill_fresh sh_bytes sh_bytes (λ _, True) normalize nil_slice
           lawful_bytes lawful_bytes normalize_fresh); auto.
  by apply Forall_true.
Qed.

Lemma Eth1DataVotes_fresh : getter_fresh sh_votes state.Eth1DataVotes.
Proof.
  intros [st] m Hwf. wf_fields Hwf. cbn [state.state] in *.
  destruct Hp_eth1 as [e He].
  apply (fill_fresh _ _ _ _ None (lawful_option _ lawful_Eth1Data)
           (lawful_option _ lawful_Eth1Data)
           (Eth1DataVotes_at_fresh {| state.state := st |} e He)); done.
Qed.

Lemma attestations_fresh
    (sel : ∀ B W, pbp2p.BeaconState B W
                  → slice_of (option (pbp2p.PendingAttestation B))) :
  (∀ m st, ok sh_State m st → ok sh_attestations m (sel _ _ st)) →
  getter_fresh sh_attestations
    (λ b, fill proto_Clone 0 (elems (sel _ _ (state.state b)))
            (make_of None (length (elems (sel _ _ (state.state b)))))).
Proof.
  intros Hok [st] m [_ Hst]. cbn [state.state] in *.
  apply (fill_fresh _ _ _ _ None (lawful_option _ lawful_PendingAttestation)
           (lawful_option _ lawful_PendingAttestation) proto_Clone_fresh); auto.
  by apply Forall_true.
Qed.

Lemma uint64s_fresh (sel : ∀ B W, pbp2p.BeaconState B W → W) :
  (∀ m st, ok sh_State m st → valid (words m) (sel _ _ st)) →
  getter_fresh sh_uint64s
    (λ b, let* res := make_uint64 (len (sel _ _ (state.state b))) in
          let* _ := copy_uint64 res (sel _ _ (state.state b)) in
          ret res).
Proof.
  intros Hok [st] [hb hw] [_ Hst]. cbn [state.state] in *.
  apply Hok in Hst. simpl in Hst.
  apply wp_start_words. repeat wp_step.
  unfold inside, span. cbn [sh_all sh_uint64s bytes words w_lo w_hi].
  split; fresh_inside.
Qed.

Lemma JustificationBits_fresh : getter_fresh sh_bytes state.JustificationBits.
Proof.
  intros [st] [hb hw] Hwf. wf_fields Hwf. simpl in *.
  unfold state.JustificationBits. simpl.
  apply wp_start. repeat wp_step.
  unfold inside, span. simpl. repeat split; fresh_inside.
Qed.

Lemma checkpoints_fresh (sel : ∀ B W, pbp2p.BeaconState B W → option (ethpb.Checkpoint B)) :
  (∀ st, present st → is_Some (sel _ _ st)) →
  (∀ m st, ok sh_State m st → ok (sh_option sh_Checkpoint) m (sel _ _ st)) →
  getter_fresh (sh_option sh_Checkpoint) (λ b, state.checkpoint (sel _ _ (state.state b))).
Proof.
  intros Hp Hok [st] m [Hpst Hst]. cbn [state.state] in *.
  apply checkpoint_fresh; auto.
Qed.

(** ** Writes that stay inside a region *)

Section agree_lemmas.
Context {A : Type}.
Implicit Types (h : heap A) (s d : slice).

Lemma agree_outside_refl lo hi h : agree_outside lo hi h h.
Proof. by split. Qed.

Lemma agree_outside_trans lo hi h1 h2 h3 :
  agree_outside lo hi h1 h2 → agree_outside lo hi h2 h3 → agree_outside lo hi h1 h3.
Proof.
  intros [L1 H1] [L2 H2]. split; [congruence|].
  intros p Hp. by rewrite H2, H1.
Qed.

Lemma read_agree lo hi h h' s :
  agree_outside lo hi h h' → avoids lo hi s → read h' s = read h s.
Proof.
  intros [_ H]. unfold avoids, read. destruct (ptr s) as [p|]; [|done].
  intros Hp. by rewrite H.
Qed.

Lemma valid_agree lo hi h h' s :
  agree_outside lo hi h h' → avoids lo hi s → valid h s → valid h' s.
Proof.
  intros [_ H]. unfold avoids, valid. destruct (ptr s) as [p|]; [|done].
  intros Hp. by rewrite H.
Qed.

Lemma set_index_agree lo hi h d i (x : A) :
  within lo hi d → agree_outside lo hi h (set_index d i x h).
Proof.
  unfold within, set_index. destruct (ptr d) as [p|]; [|intros; apply agree_outside_refl].
  intros Hp. split; [apply length_alter|].
  intros q Hq. apply list_lookup_alter_ne. lia.
Qed.

(** The element written is the element read back. *)
Lemma read_set_index h s i (x : A) :
  valid h s → i < len s → read (set_index s i x h) s !! i = Some x.
Proof.
  unfold valid, read, set_index. destruct (ptr s) as [p|]; [|lia].
  intros (arr & Hp & Hlen & Hcap) Hi.
  rewrite list_lookup_alter_eq, Hp. simpl.
  rewrite lookup_take, decide_True by lia. rewrite lookup_drop.
  apply list_lookup_insert_eq. lia.
Qed.
End agree_lemmas.

Lemma same_outside_refl g m : same_outside g m m.
Proof. split; apply agree_outside_refl. Qed.

Lemma same_outside_trans g m1 m2 m3 :
  same_outside g m1 m2 → same_outside g m2 m3 → same_outside g m1 m3.
Proof. intros [? ?] [? ?]. split; by eapply agree_outside_trans. Qed.

Lemma run_store_same g w m m' :
  store_inside g w → run_store w m = Ok () m' → same_outside g m m'.
Proof.
  destruct w as [d i x|d i x]; simpl; intros Hd;
    unfold set_byte, set_uint64; destruct (decide (i < len d)); intros [= <-].
  - split; simpl; [by apply set_index_agree|apply agree_outside_refl].
  - split; simpl; [apply agree_outside_refl|by apply set_index_agree].
Qed.

Lemma stores_same g ws m m' :
  Forall (store_inside g) ws → stores ws m = Ok () m' → same_outside g m m'.
Proof.
  intros Hws. revert m. induction Hws as [|w ws Hw Hws IH]; intros m.
  - intros [= <-]. apply same_outside_refl.
  - simpl. unfold bind. destruct (run_store w m) as [[] m1|] eqn:Hrun; [|done].
    intros Hrest. eapply same_outside_trans; [by eapply run_store_same|by apply IH].
Qed.

Lemma view_same {R V} (sh : shape R V) g m m' r :
  lawful sh → same_outside g m m' → outside sh g r → view sh m' r = view sh m r.
Proof.
  intros [Hmono Hext] [Hb Hw] Hr. apply Hext. revert Hr. apply Hmono.
  - intros s. by apply read_agree.
  - intros s. by apply read_agree.
Qed.

(** A value that was well-formed before the region was allocated keeps its
    contents, and stays well-formed, whatever is written inside the region. *)
Lemma below_same {R V} (sh : shape R V) g m0 m m' r :
  lawful sh → ok sh m0 r → extends m0 m →
  length (bytes m0) ≤ b_lo g → length (words m0) ≤ w_lo g →
  same_outside g m m' →
  ok sh m' r ∧ view sh m' r = view sh m0 r.
Proof.
  intros [Hmono Hext] Hok E Hlb Hlw [Hb Hw].
  assert (Hav : ∀ A (h : heap A) lo hi s, valid h s → length h ≤ lo → avoids lo hi s).
  { intros A h lo hi s Hs Hlo. apply valid_allocated in Hs.
    unfold allocated, avoids in *. destruct (ptr s); [lia|done]. }
  split.
  - revert Hok. apply Hmono; intros s Hs.
    + eapply valid_agree; [exact Hb|by eapply Hav|by eapply valid_extends_bytes].
    + eapply valid_agree; [exact Hw|by eapply Hav|by eapply valid_extends_words].
  - apply Hext. revert Hok. apply Hmono; intros s Hs.
    + rewrite (read_agree _ _ _ _ _ Hb) by by eapply Hav.
      by apply read_extends_bytes.
    + rewrite (read_agree _ _ _ _ _ Hw) by by eapply Hav.
      by apply read_extends_words.
Qed.

Lemma within_dec lo hi s : Decision (within lo hi s).
Proof. unfold within. destruct (ptr s); apply _. Qed.

(** A store through a slice of [r] stays where the slices of [r] are. *)
Lemma into_inside {R V} (sh : shape R V) g r w :
  lawful sh → inside sh g r → into sh r w → store_inside g w.
Proof.
  intros [Hmono _] Hr. destruct w as [d i x|d i x]; simpl; intros Hd.
  - destruct (within_dec (b_lo g) (b_hi g) d) as [|Hn]; [done|].
    exfalso. apply Hd. revert Hr. apply Hmono; [|done].
    intros s Hs ->. done.
  - destruct (within_dec (w_lo g) (w_hi g) d) as [|Hn]; [done|].
    exfalso. apply Hd. revert Hr. apply Hmono; [done|].
    intros s Hs ->. done.
Qed.

Lemma within_avoids lo hi lo' hi' s :
  hi ≤ lo' ∨ hi' ≤ lo → within lo hi s → avoids lo' hi' s.
Proof. unfold within, avoids. destruct (ptr s); [lia|done]. Qed.

Lemma inside_outside {R V} (sh : shape R V) g g' r :
  lawful sh →
  b_hi g ≤ b_lo g' ∨ b_hi g' ≤ b_lo g →
  w_hi g ≤ w_lo g' ∨ w_hi g' ≤ w_lo g →
  inside sh g r → outside sh g' r.
Proof.
  intros [Hmono _] Hb Hw. apply Hmono; intros s; by apply within_avoids.
Qed.

Lemma ok_outside_later {R V} (sh : shape R V) m1 m2 r :
  lawful sh → ok sh m1 r → outside sh (span m1 m2) r.
Proof.
  intros [Hmono _]. apply Hmono; intros s Hs; apply valid_allocated in Hs;
    unfold allocated, avoids in *; simpl; destruct (ptr s); (lia || done).
Qed.

(** A getter that meets its specification and returns only arrays of its
    own is alias-free. *)
Lemma alias_free_intro {R V} (sh : shape R V) acc F :
  lawful sh → getter_spec sh acc F → getter_fresh sh acc → alias_free sh acc.
Proof.
  intros L Hspec Hfresh m b a1 m1 a2 m2 ws m3 Hwf Hrun1 Hrun2 Hws Hstores.
  pose proof (Hspec b m Hwf) as S1. pose proof (Hfresh b m Hwf) as F1.
  unfold wp in S1, F1. rewrite Hrun1 in S1, F1.
  destruct S1 as (E1 & Hok1 & Hv1). destruct F1 as (_ & Hin1).
  pose proof (wf_extends _ _ _ E1 Hwf) as Hwf1.
  pose proof (Hspec b m1 Hwf1) as S2. pose proof (Hfresh b m1 Hwf1) as F2.
  unfold wp in S2, F2. rewrite Hrun2 in S2, F2.
  destruct S2 as (E2 & Hok2 & Hv2). destruct F2 as (_ & Hin2).
  pose proof (extends_trans _ _ _ E1 E2) as E12.
  pose proof (extends_length _ _ E1) as [Lb1 Lw1].
  pose proof (extends_length _ _ E2) as [Lb2 Lw2].
  assert (Hstate : ∃ g, same_outside g m2 m3
                        ∧ length (bytes m) ≤ b_lo g ∧ length (words m) ≤ w_lo g).
  { destruct Hws as [Hws|Hws].
    - exists (span m m1). split; [|by simpl].
      eapply stores_same; [|exact Hstores].
      eapply Forall_impl; [exact Hws|]. intros w. by apply into_inside.
    - exists (span m1 m2). split; [|by simpl].
      eapply stores_same; [|exact Hstores].
      eapply Forall_impl; [exact Hws|]. intros w. by apply into_inside. }
  destruct Hstate as (g & Hsame & Hgb & Hgw).
  destruct Hwf as [Hp Hst].
  destruct (below_same sh_State g m m2 m3 (state.state b))
    as [Hst3 Hvst3]; auto with lawful.
  repeat split.
  - intros Hws1. apply (view_same sh (span m m1)); [done| |].
    + eapply stores_same; [|exact Hstores].
      eapply Forall_impl; [exact Hws1|]. intros w. by apply into_inside.
    + apply (inside_outside sh (span m1 m2)); simpl; auto.
  - intros Hws2. apply (view_same sh (span m1 m2)); [done| |].
    + eapply stores_same; [|exact Hstores].
      eapply Forall_impl; [exact Hws2|]. intros w. by apply into_inside.
    + by apply ok_outside_later.
  - exact Hvst3.
  - pose proof (Hspec b m3 (conj Hp Hst3)) as S3.
    apply wp_run in S3 as (a3 & m4 & Hrun3 & _ & _ & Hv3).
    exists a3, m4. split; [done|].
    rewrite Hv3, Hvst3, Hv2.
    f_equal. symmetry. apply (view_extends sh_State); auto with lawful.
Qed.

(** ** Further properties of the getters *)

Lemma roots_contents acc (sel : ∀ B W, pbp2p.BeaconState B W → slice_of B) m b :
  getter_spec sh_roots acc (λ v, Made (pad32 <$> elems (sel _ _ v))) →
  (∀ f g st, sel _ _ (sh_map sh_State f g st) = sh_map sh_roots f g (sel _ _ st)) →
  wf m b →
  ∃ r m', acc b m = Ok (Made r) m'
    ∧ read (bytes m') <$> r
      = (λ s, pad32 (read (bytes m) s)) <$> elems (sel _ _ (state.state b)).
Proof.
  intros Hacc Hsel Hwf.
  destruct (getter_run _ _ _ b m Hacc Hwf) as (r & m' & Hrun & Hv).
  destruct r as [|r]; [done|]. exists r, m'. split; [done|].
  unfold view in Hv. rewrite Hsel, elems_sh_map in Hv.
  cbn [sh_map sh_slice_of sh_bytes map_of] in Hv. injection Hv as Hv.
  etrans; [exact Hv|]. by rewrite <-list_fmap_compose.
Qed.

(** X1.  On a well-formed state each of [BlockRoots], [StateRoots],
    [HistoricalRoots] and [RandaoMixes] returns a made slice of the same
    length and order as the one stored, whose i-th element holds the i-th
    stored root normalized to 32 bytes. *)
Theorem roots_getters_normalize_each_root (m : mem) (b : state.BeaconState) :
  wf m b →
  (∃ r m', state.BlockRoots b m = Ok (Made r) m'
     ∧ read (bytes m') <$> r
       = (λ s, pad32 (read (bytes m) s))
           <$> elems (pbp2p.st_BlockRoots (state.state b)))
  ∧ (∃ r m', state.StateRoots b m = Ok (Made r) m'
     ∧ read (bytes m') <$> r
       = (λ s, pad32 (read (bytes m) s))
           <$> elems (pbp2p.st_StateRoots (state.state b)))
  ∧ (∃ r m', state.HistoricalRoots b m = Ok (Made r) m'
     ∧ read (bytes m') <$> r
       = (λ s, pad32 (read (bytes m) s))
           <$> elems (pbp2p.st_HistoricalRoots (state.state b)))
  ∧ (∃ r m', state.RandaoMixes b m = Ok (Made r) m'
     ∧ read (bytes m') <$> r
       = (λ s, pad32 (read (bytes m) s))
           <$> elems (pbp2p.st_RandaoMixes (state.state b))).
Proof.
  intros Hwf. repeat apply conj.
  - by apply (roots_contents _ (@pbp2p.st_BlockRoots) m b BlockRoots_spec).
  - by apply (roots_contents _ (@pbp2p.st_StateRoots) m b StateRoots_spec).
  - by apply (roots_contents _ (@pbp2p.st_HistoricalRoots) m b HistoricalRoots_spec).
  - by apply (roots_contents _ (@pbp2p.st_RandaoMixes) m b RandaoMixes_spec).
Qed.

Lemma roots_getters_normalize_each_root_witness :
  wf sample_mem sample
  ∧ ∃ r m', state.BlockRoots sample sample_mem = Ok (Made r) m'
      ∧ read (bytes m') <$> r
        = [replicate 3 x01 ++ replicate 29 x00; replicate 32 xaa; replicate 32 x44].
Proof.
  split; [exact sample_wf|].
  exact (proj1 (roots_getters_normalize_each_root sample_mem sample sample_wf)).
Defined.

Lemma pad32_exact bs : length bs = 32 → pad32 bs = bs.
Proof. intros H. unfold pad32. rewrite <-H. apply pad_exact. Qed.

Lemma roots_faithful acc (sel : ∀ B W, pbp2p.BeaconState B W → slice_of B) m b :
  getter_spec sh_roots acc (λ v, Made (pad32 <$> elems (sel _ _ v))) →
  (∀ f g st, sel _ _ (sh_map sh_State f g st) = sh_map sh_roots f g (sel _ _ st)) →
  wf m b →
  Forall (root32 m) (elems (sel _ _ (state.state b))) →
  ∃ r m', acc b m = Ok (Made r) m'
    ∧ read (bytes m') <$> r = read (bytes m) <$> elems (sel _ _ (state.state b)).
Proof.
  intros Hacc Hsel Hwf H32.
  destruct (roots_contents _ sel m b Hacc Hsel Hwf) as (r & m' & Hrun & Hv).
  exists r, m'. split; [done|]. rewrite Hv. apply Forall_fmap_ext.
  eapply Forall_impl; [exact H32|]. intros s Hs. by apply pad32_exact.
Qed.

(** X2.  Roots that are stored 32 bytes wide are copied as they are: when
    every stored block root holds 32 bytes, [BlockRoots] returns the stored
    contents, and likewise for [StateRoots], [HistoricalRoots] and
    [RandaoMixes]. *)
Theorem roots_getters_keep_32_byte_roots (m : mem) (b : state.BeaconState) :
  wf m b →
  (Forall (root32 m) (elems (pbp2p.st_BlockRoots (state.state b))) →
   ∃ r m', state.BlockRoots b m = Ok (Made r) m'
     ∧ read (bytes m') <$> r
       = read (bytes m) <$> elems (pbp2p.st_BlockRoots (state.state b)))
  ∧ (Forall (root32 m) (elems (pbp2p.st_StateRoots (state.state b))) →
   ∃ r m', state.StateRoots b m = Ok (Made r) m'
     ∧ read (bytes m') <$> r
       = read (bytes m) <$> elems (pbp2p.st_StateRoots (state.state b)))
  ∧ (Forall (root32 m) (elems (pbp2p.st_HistoricalRoots (state.state b))) →
   ∃ r m', state.HistoricalRoots b m = Ok (Made r) m'
     ∧ read (bytes m') <$> r
       = read (bytes m) <$> elems (pbp2p.st_HistoricalRoots (state.state b)))
  ∧ (Forall (root32 m) (elems (pbp2p.st_RandaoMixes (state.state b))) →
   ∃ r m', state.RandaoMixes b m = Ok (Made r) m'
     ∧ read (bytes m') <$> r
       = read (bytes m) <$> elems (pbp2p.st_RandaoMixes (state.state b))).
Proof.
  intros Hwf. repeat apply conj.
  - by apply (roots_faithful _ (@pbp2p.st_BlockRoots) m b BlockRoots_spec).
  - by apply (roots_faithful _ (@pbp2p.st_StateRoots) m b StateRoots_spec).
  - by apply (roots_faithful _ (@pbp2p.st_HistoricalRoots) m b HistoricalRoots_spec).
  - by apply (roots_faithful _ (@pbp2p.st_RandaoMixes) m b RandaoMixes_spec).
Qed.

Lemma roots_getters_keep_32_byte_roots_witness :
  wf sample_mem sample
  ∧ Forall (root32 sample_mem) (elems (pbp2p.st_StateRoots (state.state sample)))
  ∧ ∃ r m', state.StateRoots sample sample_mem = Ok (Made r) m'
      ∧ read (bytes m') <$> r = [replicate 32 x22].
Proof.
  assert (H : Forall (root32 sample_mem)
                (elems (pbp2p.st_StateRoots (state.state sample)))).
  { repeat constructor. }
  split; [exact sample_wf|]. split; [exact H|].
  exact (proj1 (proj2 (roots_getters_keep_32_byte_roots sample_mem sample sample_wf)) H).
Defined.

(** X3.  On a well-formed state [LatestBlockHeader] returns a header with
    the stored slot, the stored parent root normalized to 32 bytes, as
    state root the stored body root normalized, and as body root the
    stored state root normalized. *)
Theorem LatestBlockHeader_contents
    (m : mem) (b : state.BeaconState) (h : ethpb.BeaconBlockHeader slice) :
  wf m b →
  pbp2p.st_LatestBlockHeader (state.state b) = Some h →
  ∃ hdr m',
    state.LatestBlockHeader b m = Ok (Some hdr) m'
    ∧ ethpb.Header_Slot hdr = ethpb.Header_Slot h
    ∧ read (bytes m') (ethpb.Header_ParentRoot hdr)
      = pad32 (read (bytes m) (ethpb.Header_ParentRoot h))
    ∧ read (bytes m') (ethpb.Header_StateRoot hdr)
      = pad32 (read (bytes m) (ethpb.Header_BodyRoot h))
    ∧ read (bytes m') (ethpb.Header_BodyRoot hdr)
      = pad32 (read (bytes m) (ethpb.Header_StateRoot h)).
Proof.
  intros Hwf Hh.
  destruct (getter_run _ _ _ b m LatestBlockHeader_spec Hwf) as (r & m' & Hrun & Hv).
  unfold view, contents.LatestBlockHeader in Hv. simpl in Hv. rewrite Hh in Hv.
  destruct r as [hdr|]; [|done]. exists hdr, m'. split; [done|].
  simpl in Hv. injection Hv as Hslot Hp Hs Hb. done.
Qed.

Lemma LatestBlockHeader_contents_witness :
  wf sample_mem sample
  ∧ ∃ hdr m',
      state.LatestBlockHeader sample sample_mem = Ok (Some hdr) m'
      ∧ ethpb.Header_Slot hdr = 9%Z
      ∧ read (bytes m') (ethpb.Header_ParentRoot hdr) = replicate 32 xaa
      ∧ read (bytes m') (ethpb.Header_StateRoot hdr) = replicate 32 x33
      ∧ read (bytes m') (ethpb.Header_BodyRoot hdr) = replicate 32 x22.
Proof.
  split; [exact sample_wf|].
  exact (LatestBlockHeader_contents sample_mem sample _ sample_wf eq_refl).
Defined.

Lemma checkpoint_contents cp c m :
  cp = Some c → ok (sh_option sh_Checkpoint) m cp →
  ∃ c' m', state.checkpoint cp m = Ok (Some c') m'
    ∧ ethpb.Cp_Epoch c' = ethpb.Cp_Epoch c
    ∧ read (bytes m') (ethpb.Cp_Root c') = pad32 (read (bytes m) (ethpb.Cp_Root c)).
Proof.
  intros -> Hok. pose proof (checkpoint_spec (Some c) m) as H.
  apply wp_run in H as (r & m' & Hrun & _ & _ & Hv); [|done..].
  unfold view in Hv. simpl in Hv.
  destruct r as [c'|]; [|done]. exists c', m'. split; [done|].
  simpl in Hv. by injection Hv as He Hr.
Qed.

(** X4.  On a well-formed state [Eth1Data] returns the stored deposit count
    with the stored deposit root and block hash normalized to 32 bytes, and
    each of [PreviousJustifiedCheckpoint], [CurrentJustifiedCheckpoint] and
    [FinalizedCheckpoint] returns the stored epoch with the stored root
    normalized to 32 bytes. *)
Theorem Eth1Data_and_checkpoints_contents
    (m : mem) (b : state.BeaconState) (e : ethpb.Eth1Data slice)
    (pj cj fin : ethpb.Checkpoint slice) :
  wf m b →
  pbp2p.st_Eth1Data (state.state b) = Some e →
  pbp2p.st_PreviousJustifiedCheckpoint (state.state b) = Some pj →
  pbp2p.st_CurrentJustifiedCheckpoint (state.state b) = Some cj →
  pbp2p.st_FinalizedCheckpoint (state.state b) = Some fin →
  (∃ e' m', state.Eth1Data b m = Ok (Some e') m'
     ∧ ethpb.Eth1_DepositCount e' = ethpb.Eth1_DepositCount e
     ∧ read (bytes m') (ethpb.Eth1_DepositRoot e')
       = pad32 (read (bytes m) (ethpb.Eth1_DepositRoot e))
     ∧ read (bytes m') (ethpb.Eth1_BlockHash e')
       = pad32 (read (bytes m) (ethpb.Eth1_BlockHash e)))
  ∧ (∃ c' m', state.PreviousJustifiedCheckpoint b m = Ok (Some c') m'
     ∧ ethpb.Cp_Epoch c' = ethpb.Cp_Epoch pj
     ∧ read (bytes m') (ethpb.Cp_Root c') = pad32 (read (bytes m) (ethpb.Cp_Root pj)))
  ∧ (∃ c' m', state.CurrentJustifiedCheckpoint b m = Ok (Some c') m'
     ∧ ethpb.Cp_Epoch c' = ethpb.Cp_Epoch cj
     ∧ read (bytes m') (ethpb.Cp_Root c') = pad32 (read (bytes m) (ethpb.Cp_Root cj)))
  ∧ (∃ c' m', state.FinalizedCheckpoint b m = Ok (Some c') m'
     ∧ ethpb.Cp_Epoch c' = ethpb.Cp_Epoch fin
     ∧ read (bytes m') (ethpb.Cp_Root c') = pad32 (read (bytes m) (ethpb.Cp_Root fin))).
Proof.
  intros Hwf He Hpj Hcj Hfin. repeat apply conj.
  - destruct (getter_run _ _ _ b m Eth1Data_spec Hwf) as (r & m' & Hrun & Hv).
    unfold view, contents.Eth1Data in Hv. simpl in Hv. rewrite He in Hv.
    destruct r as [e'|]; [|done]. exists e', m'. split; [done|].
    simpl in Hv. by injection Hv as Hdr Hc Hbh.
  - apply checkpoint_contents; [done|apply Hwf].
  - apply checkpoint_contents; [done|apply Hwf].
  - apply checkpoint_contents; [done|apply Hwf].
Qed.

Lemma Eth1Data_and_checkpoints_contents_witness :
  wf sample_mem sample
  ∧ ∃ c' m', state.FinalizedCheckpoint sample sample_mem = Ok (Some c') m'
      ∧ ethpb.Cp_Epoch c' = 0%Z
      ∧ read (bytes m') (ethpb.Cp_Root c') = replicate 3 x01 ++ replicate 29 x00.
Proof.
  split; [exact sample_wf|].
  exact (proj2 (proj2 (proj2
    (Eth1Data_and_checkpoints_contents sample_mem sample _ _ _ _
       sample_wf eq_refl eq_refl eq_refl eq_refl)))).
Defined.

(** X5.  On a well-formed state [Eth1DataVotes] returns a made slice with
    as many votes as are stored, in the same order; the i-th returned vote
    has the i-th stored vote's deposit root and block hash normalized to 32
    bytes, and as deposit count the deposit count of the state's
    [Eth1Data]. *)
Theorem Eth1DataVotes_contents
    (m : mem) (b : state.BeaconState) (e : ethpb.Eth1Data slice) :
  wf m b →
  pbp2p.st_Eth1Data (state.state b) = Some e →
  ∃ r m',
    state.Eth1DataVotes b m = Ok (Made r) m'
    ∧ length r = length (elems (pbp2p.st_Eth1DataVotes (state.state b)))
    ∧ ∀ i v, elems (pbp2p.st_Eth1DataVotes (state.state b)) !! i = Some (Some v) →
        ∃ v', r !! i = Some (Some v')
          ∧ ethpb.Eth1_DepositCount v' = ethpb.Eth1_DepositCount e
          ∧ read (bytes m') (ethpb.Eth1_DepositRoot v')
            = pad32 (read (bytes m) (ethpb.Eth1_DepositRoot v))
          ∧ read (bytes m') (ethpb.Eth1_BlockHash v')
            = pad32 (read (bytes m) (ethpb.Eth1_BlockHash v)).
Proof.
  intros Hwf He.
  destruct (getter_run _ _ _ b m Eth1DataVotes_spec Hwf) as (r & m' & Hrun & Hv).
  unfold view, contents.Eth1DataVotes in Hv.
  cbn [sh_map sh_State pbp2p.st_Eth1Data pbp2p.st_Eth1DataVotes] in Hv.
  rewrite He, elems_sh_map in Hv.
  destruct r as [|r]; [done|]. cbn [sh_map sh_slice_of map_of] in Hv.
  injection Hv as Hv.
  exists r, m'. split; [done|]. split.
  - apply (f_equal length) in Hv. by rewrite !length_fmap in Hv.
  - intros i v Hi. apply (f_equal (λ l, l !! i)) in Hv.
    rewrite !list_lookup_fmap, Hi in Hv. simpl in Hv.
    destruct (r !! i) as [[v'|]|]; simplify_eq/=. exists v'. split; [done|].
    injection Hv as Hdr Hc Hbh. done.
Qed.

Lemma Eth1DataVotes_contents_witness :
  wf sample_mem sample
  ∧ ∃ r m',
      state.Eth1DataVotes sample sample_mem = Ok (Made r) m'
      ∧ length r = 1
      ∧ ∀ i v, elems (pbp2p.st_Eth1DataVotes (state.state sample)) !! i
               = Some (Some v) →
          ∃ v', r !! i = Some (Some v')
            ∧ ethpb.Eth1_DepositCount v' = 5%Z
            ∧ read (bytes m') (ethpb.Eth1_DepositRoot v')
              = pad32 (read (bytes sample_mem) (ethpb.Eth1_DepositRoot v))
            ∧ read (bytes m') (ethpb.Eth1_BlockHash v')
              = pad32 (read (bytes sample_mem) (ethpb.Eth1_BlockHash v)).
Proof.
  split; [exact sample_wf|].
  exact (Eth1DataVotes_contents sample_mem sample _ sample_wf eq_refl).
Defined.

Lemma attestations_contents acc
    (sel : ∀ B W, pbp2p.BeaconState B W
                  → slice_of (option (pbp2p.PendingAttestation B))) m b :
  getter_spec sh_attestations acc (λ v, Made (elems (sel _ _ v))) →
  (∀ f g st, sel _ _ (sh_map sh_State f g st) = sh_map sh_attestations f g (sel _ _ st)) →
  wf m b →
  ∃ r m', acc b m = Ok (Made r) m'
    ∧ view (sh_list (sh_option sh_PendingAttestation)) m' r
      = view (sh_list (sh_option sh_PendingAttestation)) m
          (elems (sel _ _ (state.state b))).
Proof.
  intros Hacc Hsel Hwf.
  destruct (getter_run _ _ _ b m Hacc Hwf) as (r & m' & Hrun & Hv).
  destruct r as [|r]; [done|]. exists r, m'. split; [done|].
  unfold view in *. rewrite Hsel, elems_sh_map in Hv.
  cbn [sh_map sh_slice_of sh_list map_of] in *. by injection Hv.
Qed.

(** X6.  On a well-formed state [PreviousEpochAttestations] and
    [CurrentEpochAttestations] return made slices with the contents of the
    stored ones: same length and order, a nil element for a nil element,
    and in every attestation the same scalars and the same bytes in the
    aggregation bits, the block root and the roots of source and target. *)
Theorem attestation_getters_copy_contents (m : mem) (b : state.BeaconState) :
  wf m b →
  (∃ r m', state.PreviousEpochAttestations b m = Ok (Made r) m'
     ∧ view (sh_list (sh_option sh_PendingAttestation)) m' r
       = view (sh_list (sh_option sh_PendingAttestation)) m
           (elems (pbp2p.st_PreviousEpochAttestations (state.state b))))
  ∧ (∃ r m', state.CurrentEpochAttestations b m = Ok (Made r) m'
     ∧ view (sh_list (sh_option sh_PendingAttestation)) m' r
       = view (sh_list (sh_option sh_PendingAttestation)) m
           (elems (pbp2p.st_CurrentEpochAttestations (state.state b)))).
Proof.
  intros Hwf. split.
  - by apply (attestations_contents _ (@pbp2p.st_PreviousEpochAttestations) m b
                PreviousEpochAttestations_spec).
  - by apply (attestations_contents _ (@pbp2p.st_CurrentEpochAttestations) m b
                CurrentEpochAttestations_spec).
Qed.

Lemma attestation_getters_copy_contents_witness :
  wf sample_mem sample
  ∧ ∃ r m', state.CurrentEpochAttestations sample sample_mem = Ok (Made r) m'
      ∧ view (sh_list (sh_option sh_PendingAttestation)) m' r
        = view (sh_list (sh_option sh_PendingAttestation)) sample_mem
            [sample_attestation; None].
Proof.
  split; [exact sample_wf|].
  exact (proj2 (attestation_getters_copy_contents sample_mem sample sample_wf)).
Defined.

(** X7.  On a well-formed state [Slashings] returns a slice with the
    contents of the stored slashings, in an array of exactly that length
    ([len] and [cap] are the stored length) allocated by the call. *)
Theorem Slashings_copy (m : mem) (b : state.BeaconState) :
  wf m b →
  ∃ r m',
    state.Slashings b m = Ok r m'
    ∧ read (words m') r = read (words m) (pbp2p.st_Slashings (state.state b))
    ∧ len r = len (pbp2p.st_Slashings (state.state b))
    ∧ cap r = len (pbp2p.st_Slashings (state.state b))
    ∧ fresh_in (words m) r.
Proof.
  intros Hwf. destruct m as [hb hw].
  assert (Hs : valid hw (pbp2p.st_Slashings (state.state b))) by apply Hwf.
  eexists _, _. split; [apply uint64s_run; exact Hs|].
  split; [|split; [done|split; [done|eexists; split; [reflexivity|done]]]].
  simpl. rewrite <-(Nat.add_0_r (length hw)).
  apply read_fresh; [done|]. by apply length_read_valid.
Qed.

Lemma Slashings_copy_witness :
  wf sample_mem sample
  ∧ ∃ r m',
      state.Slashings sample sample_mem = Ok r m'
      ∧ read (words m') r = [0; 0]%Z
      ∧ len r = 2 ∧ cap r = 2 ∧ fresh_in (words sample_mem) r.
Proof.
  split; [exact sample_wf|].
  exact (Slashings_copy sample_mem sample sample_wf).
Defined.

(** X8.  Whatever the state holds, [JustificationBits] returns a non-nil
    slice of length 0 in an array of its own: the result holds no byte, and
    every bit of it reads as not set. *)
Theorem JustificationBits_always_empty (m : mem) (b : state.BeaconState) :
  ∃ r m',
    state.JustificationBits b m = Ok r m'
    ∧ is_nil r = false
    ∧ len r = 0
    ∧ read (bytes m') r = []
    ∧ fresh_in (bytes m) r
    ∧ ∀ i, BitAt (read (bytes m') r) i = false.
Proof.
  eexists _, _. split; [reflexivity|].
  assert (Hr : ∀ h : heap byte, read h (Slice (Some (length (bytes m))) 0 0 0) = []).
  { intros h. apply length_zero_iff_nil, Nat.le_0_r. exact (length_read _ _). }
  split; [reflexivity|]. split; [reflexivity|]. split; [apply Hr|].
  split; [eexists; split; [reflexivity|done]|].
  intros i. cbn [fst snd]. rewrite Hr. unfold BitAt.
  destruct (decide _) as [|Hn]; [done|]. exfalso. apply Hn. right. done.
Qed.

(** ** Alias-freedom where it holds *)

Lemma into_first_byte {R V} (sh : shape R V) (r : list R) x d i y :
  bytes_of sh x d → into (sh_slice_of sh) (Made (x :: r)) (StoreByte d i y).
Proof.
  intros Hd H. cbn [sh_all sh_slice_of elems] in H.
  apply Forall_cons in H as [H _]. by apply Hd.
Qed.

(** X9.  [BlockRoots], [StateRoots], [HistoricalRoots] and [RandaoMixes]
    are alias-free: of two results of the same getter neither shares an
    array with the other or with the state, so assignments through the
    slices of one result change neither the other result, nor the state,
    nor what a later call returns. *)
Theorem roots_getters_alias_free :
  alias_free sh_roots state.BlockRoots
  ∧ alias_free sh_roots state.StateRoots
  ∧ alias_free sh_roots state.HistoricalRoots
  ∧ alias_free sh_roots state.RandaoMixes.
Proof.
  repeat apply conj.
  - apply (alias_free_intro sh_roots _ _ ltac:(auto with lawful) BlockRoots_spec).
    apply (roots_fresh (@pbp2p.st_BlockRoots)). intros m st H. apply H.
  - apply (alias_free_intro sh_roots _ _ ltac:(auto with lawful) StateRoots_spec).
    apply (roots_fresh (@pbp2p.st_StateRoots)). intros m st H. apply H.
  - apply (alias_free_intro sh_roots _ _ ltac:(auto with lawful) HistoricalRoots_spec).
    apply (roots_fresh (@pbp2p.st_HistoricalRoots)). intros m st H. apply H.
  - apply (alias_free_intro sh_roots _ _ ltac:(auto with lawful) RandaoMixes_spec).
    apply (roots_fresh (@pbp2p.st_RandaoMixes)). intros m st H. apply H.
Qed.

Lemma roots_getters_alias_free_witness :
  ∃ a1 m1 a2 m2 d m3,
    state.BlockRoots sample sample_mem = Ok a1 m1
    ∧ state.BlockRoots sample m1 = Ok a2 m2
    ∧ elems a1 !! 0 = Some d
    ∧ stores [StoreByte d 0 xff] m2 = Ok () m3
    ∧ read (bytes m3) d !! 0 = Some xff
    ∧ view sh_roots m3 a2 = view sh_roots m2 a2
    ∧ view sh_State m3 sample_state = view sh_State sample_mem sample_state.
Proof.
  eexists _, _, _, _, _, _.
  split; [vm_compute; reflexivity|]. split; [vm_compute; reflexivity|].
  split; [reflexivity|]. split; [vm_compute; reflexivity|].
  split; [vm_compute; reflexivity|].
  edestruct (proj1 roots_getters_alias_free sample_mem sample)
    as (P1 & _ & P3 & _).
  - exact sample_wf.
  - vm_compute; reflexivity.
  - vm_compute; reflexivity.
  - left. constructor; [|constructor].
    eapply (into_first_byte sh_bytes _ _ _ 0 xff). intros H. by apply H.
  - vm_compute; reflexivity.
  - split; [apply P1|exact P3].
    constructor; [|constructor]. apply (into_first_byte sh_bytes).
    intros H. by apply H.
Defined.

(** X10.  The getters that rebuild one message, or a sequence of messages,
    around 32-byte copies are alias-free: [LatestBlockHeader], [Eth1Data]
    and [Eth1DataVotes].  Assignments through the roots of one result
    change neither another result, nor the state, nor what a later call
    returns. *)
Theorem message_getters_alias_free :
  alias_free (sh_option sh_Header) state.LatestBlockHeader
  ∧ alias_free (sh_option sh_Eth1Data) state.Eth1Data
  ∧ alias_free sh_votes state.Eth1DataVotes.
Proof.
  repeat apply conj.
  - exact (alias_free_intro (sh_option sh_Header) _ _ ltac:(auto with lawful)
             LatestBlockHeader_spec LatestBlockHeader_fresh).
  - exact (alias_free_intro (sh_option sh_Eth1Data) _ _ ltac:(auto with lawful)
             Eth1Data_spec Eth1Data_fresh).
  - exact (alias_free_intro sh_votes _ _ ltac:(auto with lawful)
             Eth1DataVotes_spec Eth1DataVotes_fresh).
Qed.

Lemma message_getters_alias_free_witness :
  ∃ h1 m1 a2 m2 m3,
    state.LatestBlockHeader sample sample_mem = Ok (Some h1) m1
    ∧ state.LatestBlockHeader sample m1 = Ok a2 m2
    ∧ stores [StoreByte (ethpb.Header_ParentRoot h1) 31 xff] m2 = Ok () m3
    ∧ read (bytes m3) (ethpb.Header_ParentRoot h1) !! 31 = Some xff
    ∧ view (sh_option sh_Header) m3 a2 = view (sh_option sh_Header) m2 a2
    ∧ view sh_State m3 sample_state = view sh_State sample_mem sample_state.
Proof.
  eexists _, _, _, _, _.
  split; [vm_compute; reflexivity|]. split; [vm_compute; reflexivity|].
  split; [vm_compute; reflexivity|]. split; [vm_compute; reflexivity|].
  assert (Hinto : ∀ (h : ethpb.BeaconBlockHeader slice) i y,
            into (sh_option sh_Header) (Some h)
              (StoreByte (ethpb.Header_ParentRoot h) i y)).
  { intros h i y [H _]. by apply H. }
  edestruct (proj1 message_getters_alias_free sample_mem sample)
    as (P1 & _ & P3 & _).
  - exact sample_wf.
  - vm_compute; reflexivity.
  - vm_compute; reflexivity.
  - left. constructor; [|constructor]. eapply (Hinto _ 31 xff).
  - vm_compute; reflexivity.
  - split; [apply P1|exact P3].
    constructor; [|constructor]. apply Hinto.
Defined.

(** X11.  [PreviousJustifiedCheckpoint], [CurrentJustifiedCheckpoint] and
    [FinalizedCheckpoint] are alias-free: assignments through the root of
    one result change neither another result, nor the state, nor what a
    later call returns. *)
Theorem checkpoint_getters_alias_free :
  alias_free (sh_option sh_Checkpoint) state.PreviousJustifiedCheckpoint
  ∧ alias_free (sh_option sh_Checkpoint) state.CurrentJustifiedCheckpoint
  ∧ alias_free (sh_option sh_Checkpoint) state.FinalizedCheckpoint.
Proof.
  repeat apply conj.
  - apply (alias_free_intro (sh_option sh_Checkpoint) _ _ ltac:(auto with lawful)
             PreviousJustifiedCheckpoint_spec).
    apply (checkpoints_fresh (@pbp2p.st_PreviousJustifiedCheckpoint)).
    + intros st H. apply H.
    + intros m st H. apply H.
  - apply (alias_free_intro (sh_option sh_Checkpoint) _ _ ltac:(auto with lawful)
             CurrentJustifiedCheckpoint_spec).
    apply (checkpoints_fresh (@pbp2p.st_CurrentJustifiedCheckpoint)).
    + intros st H. apply H.
    + intros m st H. apply H.
  - apply (alias_free_intro (sh_option sh_Checkpoint) _ _ ltac:(auto with lawful)
             FinalizedCheckpoint_spec).
    apply (checkpoints_fresh (@pbp2p.st_FinalizedCheckpoint)).
    + intros st H. apply H.
    + intros m st H. apply H.
Qed.

Lemma checkpoint_getters_alias_free_witness :
  ∃ c1 m1 a2 m2 m3,
    state.FinalizedCheckpoint sample sample_mem = Ok (Some c1) m1
    ∧ state.FinalizedCheckpoint sample m1 = Ok a2 m2
    ∧ stores [StoreByte (ethpb.Cp_Root c1) 5 xff] m2 = Ok () m3
    ∧ read (bytes m3) (ethpb.Cp_Root c1) !! 5 = Some xff
    ∧ view (sh_option sh_Checkpoint) m3 a2 = view (sh_option sh_Checkpoint) m2 a2
    ∧ view sh_State m3 sample_state = view sh_State sample_mem sample_state.
Proof.
  eexists _, _, _, _, _.
  split; [vm_compute; reflexivity|]. split; [vm_compute; reflexivity|].
  split; [vm_compute; reflexivity|]. split; [vm_compute; reflexivity|].
  assert (Hinto : ∀ (c : ethpb.Checkpoint slice) i y,
            into (sh_option sh_Checkpoint) (Some c) (StoreByte (ethpb.Cp_Root c) i y)).
  { intros c i y H. by apply H. }
  edestruct (proj2 (proj2 checkpoint_getters_alias_free) sample_mem sample)
    as (P1 & _ & P3 & _).
  - exact sample_wf.
  - vm_compute; reflexivity.
  - vm_compute; reflexivity.
  - left. constructor; [|constructor]. eapply (Hinto _ 5 xff).
  - vm_compute; reflexivity.
  - split; [apply P1|exact P3].
    constructor; [|constructor]. apply Hinto.
Defined.

(** X12.  [Balances] and [Slashings] are alias-free: assignments to the
    elements of one result change neither another result, nor the state,
    nor what a later call returns. *)
Theorem uint64_getters_alias_free :
  alias_free sh_uint64s state.Balances ∧ alias_free sh_uint64s state.Slashings.
Proof.
  split.
  - apply (alias_free_intro sh_uint64s _ _ ltac:(auto with lawful) Balances_spec).
    apply (uint64s_fresh (@pbp2p.st_Balances)). intros m st H. apply H.
  - apply (alias_free_intro sh_uint64s _ _ ltac:(auto with lawful) Slashings_spec).
    apply (uint64s_fresh (@pbp2p.st_Slashings)). intros m st H. apply H.
Qed.

Lemma uint64_getters_alias_free_witness :
  ∃ a1 m1 a2 m2 m3,
    state.Balances sample sample_mem = Ok a1 m1
    ∧ state.Balances sample m1 = Ok a2 m2
    ∧ stores [StoreUint64 a1 1 0%Z; StoreUint64 a1 2 7%Z] m2 = Ok () m3
    ∧ read (words m3) a1 = [32000000000; 0; 7]%Z
    ∧ read (words m3) a2 = [32000000000; 31500000000; 32000000000]%Z
    ∧ view sh_State m3 sample_state = view sh_State sample_mem sample_state.
Proof.
  eexists _, _, _, _, _.
  split; [vm_compute; reflexivity|]. split; [vm_compute; reflexivity|].
  split; [vm_compute; reflexivity|]. split; [vm_compute; reflexivity|].
  assert (Hinto : ∀ (a : slice) i y, into sh_uint64s a (StoreUint64 a i y)).
  { intros a i y H. by apply H. }
  edestruct (proj1 uint64_getters_alias_free sample_mem sample)
    as (P1 & _ & P3 & _).
  - exact sample_wf.
  - vm_compute; reflexivity.
  - vm_compute; reflexivity.
  - left. constructor; [|constructor; [|constructor]].
    + eapply (Hinto _ 1 0%Z).
    + eapply (Hinto _ 2 7%Z).
  - vm_compute; reflexivity.
  - split; [|exact P3].
    etrans; [apply P1|vm_compute; reflexivity].
    constructor; [|constructor; [|constructor]]; apply Hinto.
Defined.

(** X13.  [PreviousEpochAttestations] and [CurrentEpochAttestations] are
    alias-free: assignments through any buffer of one result (aggregation
    bits, block root, roots of source and target) change neither another
    result, nor the state, nor what a later call returns. *)
Theorem attestation_getters_alias_free :
  alias_free sh_attestations state.PreviousEpochAttestations
  ∧ alias_free sh_attestations state.CurrentEpochAttestations.
Proof.
  split.
  - apply (alias_free_intro sh_attestations _ _ ltac:(auto 6 with lawful)
             PreviousEpochAttestations_spec).
    apply (attestations_fresh (@pbp2p.st_PreviousEpochAttestations)).
    intros m st H. apply H.
  - apply (alias_free_intro sh_attestations _ _ ltac:(auto 6 with lawful)
             CurrentEpochAttestations_spec).
    apply (attestations_fresh (@pbp2p.st_CurrentEpochAttestations)).
    intros m st H. apply H.
Qed.

Lemma attestation_getters_alias_free_witness :
  ∃ att r1 m1 a2 m2 m3,
    state.PreviousEpochAttestations sample sample_mem = Ok (Made (Some att :: r1)) m1
    ∧ state.PreviousEpochAttestations sample m1 = Ok a2 m2
    ∧ stores [StoreByte (pbp2p.Att_AggregationBits att) 0 xff] m2 = Ok () m3
    ∧ read (bytes m3) (pbp2p.Att_AggregationBits att) = [xff]
    ∧ view sh_attestations m3 a2 = view sh_attestations m2 a2
    ∧ view sh_State m3 sample_state = view sh_State sample_mem sample_state.
Proof.
  eexists _, _, _, _, _, _.
  split; [vm_compute; reflexivity|]. split; [vm_compute; reflexivity|].
  split; [vm_compute; reflexivity|]. split; [vm_compute; reflexivity|].
  assert (Hinto : ∀ (a : pbp2p.PendingAttestation slice) r i y,
            into sh_attestations (Made (Some a :: r))
              (StoreByte (pbp2p.Att_AggregationBits a) i y)).
  { intros a r i y H. cbn [sh_all sh_slice_of elems] in H.
    apply Forall_cons in H as [[H _] _]. by apply H. }
  edestruct (proj1 attestation_getters_alias_free sample_mem sample)
    as (P1 & _ & P3 & _).
  - exact sample_wf.
  - vm_compute; reflexivity.
  - vm_compute; reflexivity.
  - left. constructor; [|constructor]. eapply (Hinto _ _ 0 xff).
  - vm_compute; reflexivity.
  - split; [apply P1|exact P3].
    constructor; [|constructor]. apply Hinto.
Defined.

(** ** Where a result shares with the state *)

Lemma Validators_at_Some v m : state.Validators_at (Some v) m = Ok (Some v) m.
Proof. by destruct v. Qed.

Lemma mapM_Validators_at vs m :
  Forall is_Some vs → mapM state.Validators_at vs m = Ok vs m.
Proof.
  induction 1 as [|val vs [v ->] _ IH]; [done|].
  simpl. unfold bind. by rewrite Validators_at_Some, IH.
Qed.

Lemma Validators_run b m :
  Forall is_Some (elems (pbp2p.st_Validators (state.state b))) →
  state.Validators b m = Ok (Made (elems (pbp2p.st_Validators (state.state b)))) m.
Proof.
  intros H. unfold state.Validators. rewrite fill_made. unfold bind.
  by rewrite mapM_Validators_at.
Qed.

Lemma set_byte_run s i x m :
  i < len s → set_byte s i x m = Ok () (Mem (set_index s i x (bytes m)) (words m)).
Proof. intros Hi. unfold set_byte. by rewrite decide_True. Qed.

(** X14.  On a well-formed state [Validators] allocates no array of bytes
    and returns, in a made slice, validators whose [PublicKey] and
    [WithdrawalCredentials] are the state's own slices: a byte assigned
    through a returned validator's public key or withdrawal credentials is
    the byte the state's validator holds afterwards. *)
Theorem Validators_write_through (m : mem) (b : state.BeaconState) :
  wf m b →
  ∃ r,
    state.Validators b m = Ok (Made r) m
    ∧ ∀ j v i x, r !! j = Some (Some v) →
        ∃ v0, elems (pbp2p.st_Validators (state.state b)) !! j = Some (Some v0)
          ∧ (i < len (ethpb.Val_PublicKey v) →
             ∃ m', set_byte (ethpb.Val_PublicKey v) i x m = Ok () m'
               ∧ read (bytes m') (ethpb.Val_PublicKey v0) !! i = Some x)
          ∧ (i < len (ethpb.Val_WithdrawalCredentials v) →
             ∃ m', set_byte (ethpb.Val_WithdrawalCredentials v) i x m = Ok () m'
               ∧ read (bytes m') (ethpb.Val_WithdrawalCredentials v0) !! i = Some x).
Proof.
  intros Hwf. exists (elems (pbp2p.st_Validators (state.state b))).
  split; [apply Validators_run, Hwf|].
  intros j v i x Hj. exists v. split; [done|].
  assert (Hv : ok (sh_option sh_Validator) m (Some v)).
  { destruct Hwf as [_ Hok]. destruct Hok as (_ & _ & _ & _ & _ & _ & _ & Hvs & _).
    cbn [sh_all sh_slice_of] in Hvs.
    eapply Forall_lookup_1 in Hvs; [|exact Hj]. exact Hvs. }
  destruct Hv as [Hpk Hwc]. split; intros Hi.
  - eexists. split; [by apply set_byte_run|]. simpl. by apply read_set_index.
  - eexists. split; [by apply set_byte_run|]. simpl. by apply read_set_index.
Qed.

Lemma Validators_write_through_witness :
  wf sample_mem sample
  ∧ ∃ r,
      state.Validators sample sample_mem = Ok (Made r) sample_mem
      ∧ ∀ j v i x, r !! j = Some (Some v) →
          ∃ v0, elems (pbp2p.st_Validators (state.state sample)) !! j
                = Some (Some v0)
            ∧ (i < len (ethpb.Val_PublicKey v) →
               ∃ m', set_byte (ethpb.Val_PublicKey v) i x sample_mem = Ok () m'
                 ∧ read (bytes m') (ethpb.Val_PublicKey v0) !! i = Some x)
            ∧ (i < len (ethpb.Val_WithdrawalCredentials v) →
               ∃ m', set_byte (ethpb.Val_WithdrawalCredentials v) i x sample_mem
                     = Ok () m'
                 ∧ read (bytes m') (ethpb.Val_WithdrawalCredentials v0) !! i = Some x).
Proof.
  split; [exact sample_wf|].
  exact (Validators_write_through sample_mem sample sample_wf).
Defined.

(** X15.  On a well-formed state [Fork] allocates no array of bytes and
    returns a message whose [PreviousVersion] and [CurrentVersion] are the state's
    own slices: a byte assigned through either of them is the byte the
    state's fork holds afterwards. *)
Theorem Fork_write_through (m : mem) (b : state.BeaconState) :
  wf m b →
  ∃ f,
    state.Fork b m = Ok (Some f) m
    ∧ pbp2p.st_Fork (state.state b) = Some f
    ∧ ∀ i x,
        (i < len (pbp2p.Fork_PreviousVersion f) →
         ∃ m', set_byte (pbp2p.Fork_PreviousVersion f) i x m = Ok () m'
           ∧ read (bytes m') (pbp2p.Fork_PreviousVersion f) !! i = Some x)
        ∧ (i < len (pbp2p.Fork_CurrentVersion f) →
           ∃ m', set_byte (pbp2p.Fork_CurrentVersion f) i x m = Ok () m'
             ∧ read (bytes m') (pbp2p.Fork_CurrentVersion f) !! i = Some x).
Proof.
  intros [Hp Hok]. destruct Hp as ([f Hf] & _). destruct Hok as (Hfork & _).
  rewrite Hf in Hfork. destruct Hfork as [Hpv Hcv].
  exists f. split; [|split; [done|]].
  { unfold state.Fork. rewrite Hf. by destruct f. }
  intros i x. split; intros Hi.
  - eexists. split; [by apply set_byte_run|]. simpl. by apply read_set_index.
  - eexists. split; [by apply set_byte_run|]. simpl. by apply read_set_index.
Qed.

Lemma Fork_write_through_witness :
  wf sample_mem sample
  ∧ ∃ f,
      state.Fork sample sample_mem = Ok (Some f) sample_mem
      ∧ pbp2p.st_Fork (state.state sample) = Some f
      ∧ ∀ i x,
          (i < len (pbp2p.Fork_PreviousVersion f) →
           ∃ m', set_byte (pbp2p.Fork_PreviousVersion f) i x sample_mem = Ok () m'
             ∧ read (bytes m') (pbp2p.Fork_PreviousVersion f) !! i = Some x)
          ∧ (i < len (pbp2p.Fork_CurrentVersion f) →
             ∃ m', set_byte (pbp2p.Fork_CurrentVersion f) i x sample_mem = Ok () m'
               ∧ read (bytes m') (pbp2p.Fork_CurrentVersion f) !! i = Some x).
Proof.
  split; [exact sample_wf|].
  exact (Fork_write_through sample_mem sample sample_wf).
Defined.

(** ** Panics *)

Lemma runs_ret {A} (a : A) : runs (ret a).
Proof. intros m. by eexists _, _. Qed.

Lemma runs_bind {A B} (c : M A) (k : A → M B) :
  runs c → (∀ a, runs (k a)) → runs (bind c k).
Proof.
  intros Hc Hk m. destruct (Hc m) as (a & m1 & Ha).
  unfold bind. rewrite Ha. apply Hk.
Qed.

Lemma runs_make_bytes n : runs (make_bytes n).
Proof. intros m. by eexists _, _. Qed.

Lemma runs_copy_bytes d s : runs (copy_bytes d s).
Proof. intros m. by eexists _, _. Qed.

Lemma runs_make_uint64 n : runs (make_uint64 n).
Proof. intros m. by eexists _, _. Qed.

Lemma runs_copy_uint64 d s : runs (copy_uint64 d s).
Proof. intros m. by eexists _, _. Qed.

Lemma runs_mapM {A B} (f : A → M B) xs :
  Forall (λ x, runs (f x)) xs → runs (mapM f xs).
Proof.
  induction 1 as [|x xs Hx _ IH]; simpl; [apply runs_ret|].
  apply runs_bind; [done|]. intros y. apply runs_bind; [done|].
  intros ys. apply runs_ret.
Qed.

Lemma mapM_length {A B} (f : A → M B) xs m ys m' :
  mapM f xs m = Ok ys m' → length ys = length xs.
Proof.
  revert m ys m'. induction xs as [|x xs IH]; intros m ys m'; simpl.
  - by intros [= <- _].
  - unfold bind. destruct (f x m) as [y m1|]; [|done].
    destruct (mapM f xs m1) as [zs m2|] eqn:Hzs; [|done].
    intros [= <- _]. simpl. f_equal. by eapply IH.
Qed.

Ltac runs_steps :=
  repeat first
    [ apply runs_ret | apply runs_make_bytes | apply runs_copy_bytes
    | apply runs_make_uint64 | apply runs_copy_uint64
    | apply runs_bind; [|intros ?] ].

Lemma runs_normalize s : runs (normalize s).
Proof. unfold normalize. runs_steps. Qed.

Lemma runs_clone_bytes s : runs (clone_bytes s).
Proof. unfold clone_bytes. destruct (is_nil s); runs_steps. Qed.

Lemma runs_clone_Checkpoint c : runs (clone_Checkpoint c).
Proof.
  destruct c as [c|]; simpl; [|apply runs_ret].
  apply runs_bind; [apply runs_clone_bytes|]. intros r. apply runs_ret.
Qed.

Lemma runs_clone_AttestationData d : runs (clone_AttestationData d).
Proof.
  destruct d as [d|]; simpl; [|apply runs_ret].
  apply runs_bind; [apply runs_clone_bytes|]. intros r.
  apply runs_bind; [apply runs_clone_Checkpoint|]. intros s.
  apply runs_bind; [apply runs_clone_Checkpoint|]. intros t. apply runs_ret.
Qed.

Lemma runs_proto_Clone a : runs (proto_Clone a).
Proof.
  destruct a as [a|]; simpl; [|apply runs_ret].
  apply runs_bind; [apply runs_clone_bytes|]. intros r.
  apply runs_bind; [apply runs_clone_AttestationData|]. intros d. apply runs_ret.
Qed.

Lemma runs_mapM_all {A B} (f : A → M B) xs : (∀ x, runs (f x)) → runs (mapM f xs).
Proof. intros Hf. apply runs_mapM, Forall_true, Hf. Qed.

Lemma runs_fill {A B} (f : A → M B) (zero : B) xs :
  Forall (λ x, runs (f x)) xs → runs (fill f 0 xs (make_of zero (length xs))).
Proof.
  intros Hf m. destruct (runs_mapM f xs Hf m) as (r & m' & Hrun).
  exists (Made r), m'. rewrite fill_made. unfold bind. by rewrite Hrun.
Qed.

Lemma runs_fill_all {A B} (f : A → M B) (zero : B) xs :
  (∀ x, runs (f x)) → runs (fill f 0 xs (make_of zero (length xs))).
Proof. intros Hf. apply runs_fill, Forall_true, Hf. Qed.

Lemma runs_length {A B} (f : A → M B) (zero : B) xs m :
  (∀ x, runs (f x)) →
  ∃ r m', fill f 0 xs (make_of zero (length xs)) m = Ok (Made r) m'
    ∧ length r = length xs.
Proof.
  intros Hf. destruct (runs_mapM_all f xs Hf m) as (r & m' & Hrun).
  exists r, m'. split; [|by eapply mapM_length].
  rewrite fill_made. unfold bind. by rewrite Hrun.
Qed.

(** X16.  [BlockRoots], [StateRoots], [HistoricalRoots] and [RandaoMixes]
    never panic, whatever the state and the memory, and return a made
    slice as long as the stored one. *)
Theorem roots_getters_never_panic (m : mem) (b : state.BeaconState) :
  (∃ r m', state.BlockRoots b m = Ok (Made r) m'
     ∧ length r = length (elems (pbp2p.st_BlockRoots (state.state b))))
  ∧ (∃ r m', state.StateRoots b m = Ok (Made r) m'
     ∧ length r = length (elems (pbp2p.st_StateRoots (state.state b))))
  ∧ (∃ r m', state.HistoricalRoots b m = Ok (Made r) m'
     ∧ length r = length (elems (pbp2p.st_HistoricalRoots (state.state b))))
  ∧ (∃ r m', state.RandaoMixes b m = Ok (Made r) m'
     ∧ length r = length (elems (pbp2p.st_RandaoMixes (state.state b)))).
Proof. repeat apply conj; apply runs_length, runs_normalize. Qed.

(** X17.  [Balances], [Slashings] and the two attestation getters never
    panic, whatever the state and the memory: the attestation getters
    return a made slice as long as the stored one (a nil attestation is
    copied as nil), and [Balances] and [Slashings] return a non-nil slice
    as long as the stored one. *)
Theorem copying_getters_never_panic (m : mem) (b : state.BeaconState) :
  (∃ r m', state.PreviousEpochAttestations b m = Ok (Made r) m'
     ∧ length r = length (elems (pbp2p.st_PreviousEpochAttestations (state.state b))))
  ∧ (∃ r m', state.CurrentEpochAttestations b m = Ok (Made r) m'
     ∧ length r = length (elems (pbp2p.st_CurrentEpochAttestations (state.state b))))
  ∧ (∃ r m', state.Balances b m = Ok r m'
     ∧ is_nil r = false ∧ len r = len (pbp2p.st_Balances (state.state b)))
  ∧ (∃ r m', state.Slashings b m = Ok r m'
     ∧ is_nil r = false ∧ len r = len (pbp2p.st_Slashings (state.state b))).
Proof.
  repeat apply conj; try (apply runs_length, runs_proto_Clone); by eexists _, _.
Qed.

Lemma bind_Ok_inv {A B} (c : M A) (k : A → M B) m r m' :
  bind c k m = Ok r m' → ∃ a m1, c m = Ok a m1 ∧ k a m1 = Ok r m'.
Proof. unfold bind. destruct (c m) as [a m1|]; [eauto|done]. Qed.

Lemma bind_Panic {A B} (c : M A) (k : A → M B) m :
  bind c k m = Panic ↔ c m = Panic ∨ ∃ a m1, c m = Ok a m1 ∧ k a m1 = Panic.
Proof.
  unfold bind. destruct (c m) as [a m1|]; split.
  - intros H. right. eauto.
  - intros [?|(? & ? & [= <- <-] & ?)]; done.
  - by left.
  - done.
Qed.

Lemma runs_not_Panic {A} (c : M A) m : runs c → c m ≠ Panic.
Proof. intros H. destruct (H m) as (a & m' & ->). done. Qed.

Lemma deref_block_Panic {A B} (p : option A) (k : A → M B) m :
  (∀ a, runs (k a)) → bind (deref p) k m = Panic ↔ p = None.
Proof.
  intros Hk. destruct p as [a|]; simpl; [|done].
  split; [|done]. intros H. by apply (runs_not_Panic (k a) m) in H.
Qed.

Lemma runs_checkpoint_body (c : ethpb.Checkpoint slice) :
  runs (let* root := make_bytes 32 in
        let* _ := copy_bytes root (ethpb.Cp_Root c) in
        ret (Some {| ethpb.Cp_Epoch := ethpb.Cp_Epoch c; ethpb.Cp_Root := root |})).
Proof. runs_steps. Qed.

Lemma checkpoint_Panic cp m : state.checkpoint cp m = Panic ↔ cp = None.
Proof. apply deref_block_Panic. intros c. apply runs_checkpoint_body. Qed.

Lemma Fork_Panic b m : state.Fork b m = Panic ↔ pbp2p.st_Fork (state.state b) = None.
Proof. apply deref_block_Panic. intros f. apply runs_ret. Qed.

Lemma LatestBlockHeader_Panic b m :
  state.LatestBlockHeader b m = Panic
  ↔ pbp2p.st_LatestBlockHeader (state.state b) = None.
Proof. apply deref_block_Panic. intros h. runs_steps. Qed.

Lemma Eth1Data_Panic b m :
  state.Eth1Data b m = Panic ↔ pbp2p.st_Eth1Data (state.state b) = None.
Proof. apply deref_block_Panic. intros e. runs_steps. Qed.

Lemma mapM_Panic {A B} (f : A → M B) xs m :
  (∀ x, (∀ m, f x m = Panic) ∨ runs (f x)) →
  mapM f xs m = Panic ↔ ∃ j x, xs !! j = Some x ∧ ∀ m, f x m = Panic.
Proof.
  intros Hf. revert m. induction xs as [|x xs IH]; intros m; simpl.
  - split; [done|]. by intros (j & x & Hj & _).
  - rewrite bind_Panic. split.
    + intros [Hx|(y & m1 & Hy & Hrest)].
      * exists 0, x. split; [done|].
        destruct (Hf x) as [?|Hr]; [done|]. by apply (runs_not_Panic _ m) in Hx.
      * apply bind_Panic in Hrest as [Hrest|(ys & m2 & _ & ?)]; [|done].
        apply IH in Hrest as (j & x' & Hj & Hx'). by exists (S j), x'.
    + intros ([|j] & x' & Hj & Hx'); simplify_eq/=; [by left|].
      destruct (Hf x) as [Hx|Hr]; [by left|]. right.
      destruct (Hr m) as (y & m1 & Hy). exists y, m1. split; [done|].
      apply bind_Panic. left. apply IH. eauto.
Qed.

Lemma fill_Panic {A B} (f : A → M B) (zero : B) xs m :
  fill f 0 xs (make_of zero (length xs)) m = Panic ↔ mapM f xs m = Panic.
Proof. rewrite fill_made. unfold bind. by destruct (mapM f xs m). Qed.

Lemma Validators_at_cases val :
  (∀ m, state.Validators_at val m = Panic) ∨ runs (state.Validators_at val).
Proof.
  destruct val as [v|]; [right|by left].
  intros m. eexists _, _. apply Validators_at_Some.
Qed.

Lemma Eth1DataVotes_at_cases b vote :
  (∀ m, state.Eth1DataVotes_at b vote m = Panic) ∨ runs (state.Eth1DataVotes_at b vote).
Proof.
  unfold state.Eth1DataVotes_at.
  destruct (pbp2p.st_Eth1Data (state.state b)) as [e|]; [|by left].
  destruct vote as [v|]; [right|by left]. simpl. runs_steps.
Qed.

(** X18.  [Fork], [LatestBlockHeader] and [Eth1Data] panic exactly when
    the message they read is nil, whatever else the state and the memory
    hold. *)
Theorem message_getters_panic_iff_nil (m : mem) (b : state.BeaconState) :
  (state.Fork b m = Panic ↔ pbp2p.st_Fork (state.state b) = None)
  ∧ (state.LatestBlockHeader b m = Panic
     ↔ pbp2p.st_LatestBlockHeader (state.state b) = None)
  ∧ (state.Eth1Data b m = Panic ↔ pbp2p.st_Eth1Data (state.state b) = None).
Proof.
  repeat match goal with |- _ ∧ _ => split end.
  - exact (Fork_Panic b m).
  - exact (LatestBlockHeader_Panic b m).
  - exact (Eth1Data_Panic b m).
Qed.

(** X19.  [PreviousJustifiedCheckpoint], [CurrentJustifiedCheckpoint] and
    [FinalizedCheckpoint] panic exactly when the checkpoint they read is
    nil. *)
Theorem checkpoint_getters_panic_iff_nil (m : mem) (b : state.BeaconState) :
  (state.PreviousJustifiedCheckpoint b m = Panic
   ↔ pbp2p.st_PreviousJustifiedCheckpoint (state.state b) = None)
  ∧ (state.CurrentJustifiedCheckpoint b m = Panic
     ↔ pbp2p.st_CurrentJustifiedCheckpoint (state.state b) = None)
  ∧ (state.FinalizedCheckpoint b m = Panic
     ↔ pbp2p.st_FinalizedCheckpoint (state.state b) = None).
Proof.
  repeat match goal with |- _ ∧ _ => split end; exact (checkpoint_Panic _ m).
Qed.

(** X20.  [Validators] panics exactly when some stored validator is nil.
    [Eth1DataVotes] panics exactly when there is at least one vote and
    either [Eth1Data] or some vote is nil: with no vote stored, a nil
    [Eth1Data] is never read. *)
Theorem sequence_getters_panic_iff_nil (m : mem) (b : state.BeaconState) :
  (state.Validators b m = Panic
   ↔ ∃ j, elems (pbp2p.st_Validators (state.state b)) !! j = Some None)
  ∧ (state.Eth1DataVotes b m = Panic
     ↔ elems (pbp2p.st_Eth1DataVotes (state.state b)) ≠ []
       ∧ (pbp2p.st_Eth1Data (state.state b) = None
          ∨ ∃ j, elems (pbp2p.st_Eth1DataVotes (state.state b)) !! j = Some None)).
Proof.
  split.
  - unfold state.Validators.
    rewrite fill_Panic, (mapM_Panic _ _ _ Validators_at_cases).
    split.
    + intros (j & [v|] & Hj & Hx); [|by exists j].
      specialize (Hx m). by rewrite Validators_at_Some in Hx.
    + intros (j & Hj). by exists j, None.
  - unfold state.Eth1DataVotes.
    rewrite fill_Panic, (mapM_Panic _ _ _ (Eth1DataVotes_at_cases b)).
    unfold state.Eth1DataVotes_at.
    destruct (pbp2p.st_Eth1Data (state.state b)) as [e|]; simpl; split.
    + intros (j & [v|] & Hj & Hx).
      * specialize (Hx m). exfalso. revert Hx. apply runs_not_Panic. runs_steps.
      * split; [by intros Hnil; rewrite Hnil in Hj|]. right. by exists j.
    + intros [_ [?|(j & Hj)]]; [done|]. by exists j, None.
    + intros (j & x & Hj & _). split; [by intros Hnil; rewrite Hnil in Hj|by left].
    + intros [Hne _].
      destruct (elems (pbp2p.st_Eth1DataVotes (state.state b))) as [|x xs];
        [done|]. by exists 0, x.
Qed.

Lemma mapM_Ok_Forall {A B} (f : A → M B) (P : A → Prop) xs m r m' :
  (∀ x m y m1, f x m = Ok y m1 → P x) →
  mapM f xs m = Ok r m' → Forall P xs.
Proof.
  intros Hf. revert m r m'. induction xs as [|x xs IH]; intros m r m'; simpl.
  - constructor.
  - intros H. apply bind_Ok_inv in H as (y & m1 & Hy & H).
    apply bind_Ok_inv in H as (ys & m2 & Hys & _).
    constructor; [by eapply Hf|by eapply IH].
Qed.

Lemma not_Panic_is_Some {A} (o : option A) (c : M (option A)) m r m' :
  (c m = Panic ↔ o = None) → c m = Ok r m' → is_Some o.
Proof.
  intros H Hrun. destruct o; [done|]. rewrite (proj2 H eq_refl) in Hrun. done.
Qed.

Lemma fill_Ok_Forall {A B} (f : A → M B) (P : A → Prop) (zero : B) xs m r m' :
  (∀ x m y m1, f x m = Ok y m1 → P x) →
  fill f 0 xs (make_of zero (length xs)) m = Ok r m' → Forall P xs.
Proof.
  intros Hf H. apply fill_Ok_inv in H as (ys & _ & H). by eapply mapM_Ok_Forall.
Qed.

(** The calls of a chain of binds, one goal for each. *)
Ltac runs_chain :=
  lazymatch goal with
  | |- runs (bind _ _) => apply runs_bind; [|intros ?; cbv beta; runs_chain]
  | _ => idtac
  end.

Lemma present_runs_Clone b : present (state.state b) → runs (state.Clone b).
Proof.
  intros ([f Hf] & [h Hh] & [e He] & Hvotes & Hvals & [pj Hpj] & [cj Hcj] & [fin Hfin]).
  unfold state.Clone. runs_chain; try apply runs_ret.
  - unfold state.Fork. rewrite Hf. simpl. apply runs_ret.
  - unfold state.LatestBlockHeader. rewrite Hh. simpl. runs_steps.
  - apply runs_fill_all, runs_normalize.
  - apply runs_fill_all, runs_normalize.
  - apply runs_fill_all, runs_normalize.
  - unfold state.Eth1Data. rewrite He. simpl. runs_steps.
  - apply runs_fill. eapply Forall_impl; [exact Hvotes|].
    intros vote [v ->]. unfold state.Eth1DataVotes_at. rewrite He. simpl. runs_steps.
  - apply runs_fill. eapply Forall_impl; [exact Hvals|].
    intros val [v ->] m. eexists _, _. apply Validators_at_Some.
  - unfold state.Balances. runs_steps.
  - apply runs_fill_all, runs_normalize.
  - unfold state.Slashings. runs_steps.
  - apply runs_fill_all, runs_proto_Clone.
  - apply runs_fill_all, runs_proto_Clone.
  - unfold state.JustificationBits. runs_steps.
  - unfold state.PreviousJustifiedCheckpoint, state.checkpoint. rewrite Hpj.
    simpl. runs_steps.
  - unfold state.CurrentJustifiedCheckpoint, state.checkpoint. rewrite Hcj.
    simpl. runs_steps.
  - unfold state.FinalizedCheckpoint, state.checkpoint. rewrite Hfin.
    simpl. runs_steps.
Qed.

(** X21.  [Clone] returns (rather than panics) exactly on the states in
    which every message a getter dereferences is there: [Fork],
    [LatestBlockHeader], [Eth1Data], the three checkpoints, every stored
    vote and every stored validator.  Nothing else about the state or the
    memory matters. *)
Theorem Clone_returns_iff_present (m : mem) (b : state.BeaconState) :
  (∃ c m', state.Clone b m = Ok c m') ↔ present (state.state b).
Proof.
  split; [|intros Hp; apply (present_runs_Clone b Hp m)].
  intros (c & m' & H). unfold state.Clone in H.
  repeat (apply bind_Ok_inv in H as (? & ? & ? & H)).
  unfold present. repeat match goal with |- _ ∧ _ => split end.
  - eapply not_Panic_is_Some; [exact (Fork_Panic b _)|eassumption].
  - eapply not_Panic_is_Some; [exact (LatestBlockHeader_Panic b _)|eassumption].
  - eapply not_Panic_is_Some; [exact (Eth1Data_Panic b _)|eassumption].
  - eapply (fill_Ok_Forall (state.Eth1DataVotes_at b)); [|eassumption].
    intros [v|] m0 y m1; [done|]. unfold state.Eth1DataVotes_at.
    intros Hv. repeat (apply bind_Ok_inv in Hv as (? & ? & ? & Hv)). done.
  - eapply (fill_Ok_Forall state.Validators_at); [|eassumption].
    by intros [v|] m0 y m1.
  - eapply not_Panic_is_Some; [exact (checkpoint_Panic _ _)|eassumption].
  - eapply not_Panic_is_Some; [exact (checkpoint_Panic _ _)|eassumption].
  - eapply not_Panic_is_Some; [exact (checkpoint_Panic _ _)|eassumption].
Qed.

(** ** The clone as a state of its own *)

Lemma Clone_result m b c m' :
  wf m b → state.Clone b m = Ok c m' →
  ∃ c0, c = Some c0
    ∧ extends m m'
    ∧ ok sh_State m' c0
    ∧ Some (view sh_State m' c0) = contents.Clone (view sh_State m (state.state b)).
Proof.
  intros Hwf Hrun. pose proof (Clone_spec b m Hwf) as H.
  unfold wp in H. rewrite Hrun in H. destruct H as (E & Hok & Hv).
  destruct c as [c0|]; [|done]. exists c0.
  split; [done|]. split; [done|]. split; [exact Hok|exact Hv].
Qed.

Lemma is_Some_of_view {A B} (f : A → B) o o' :
  f <$> o = o' → is_Some o' → is_Some o.
Proof. intros <-. by rewrite fmap_is_Some. Qed.

Lemma Forall_is_Some_of_view {A B} (f : A → B)
    (l : list (option A)) (l' : list (option B)) :
  (λ o : option A, f <$> o) <$> l = l' → Forall is_Some l' → Forall is_Some l.
Proof.
  intros <- H. rewrite Forall_fmap in H. eapply Forall_impl; [exact H|].
  intros o. simpl. by rewrite fmap_is_Some.
Qed.

Lemma elems_of_view {A B} (f : A → B) (s : slice_of A) l :
  map_of f s = Made l → f <$> elems s = l.
Proof. intros H. apply (f_equal elems) in H. by rewrite elems_map_of in H. Qed.

Lemma root32_pad32 m s bs : read (bytes m) s = pad32 bs → root32 m s.
Proof. intros H. unfold root32. rewrite H. apply length_pad32. Qed.

Lemma Clone_wf_fixed_width m b c m' :
  wf m b → state.Clone b m = Ok (Some c) m' →
  wf m' {| state.state := c |} ∧ fixed_width m' c.
Proof.
  intros Hwf Hrun.
  destruct (Clone_result m b _ m' Hwf Hrun) as (c0 & [= <-] & E & Hok & Hv).
  destruct b as [st]. wf_fields Hwf. cbn [state.state] in *.
  unfold view, contents.Clone in Hv. cbn [sh_map sh_State] in Hv.
  injection Hv as H1 H2 H3 H4 H5 H6 H7 H8 H9 H10 H11 H12 H13 H14 H15 H16 H17
    H18 H19 H20.
  destruct Hp_eth1 as [e He].
  assert (Hvotes : Forall is_Some (elems (pbp2p.st_Eth1DataVotes c))).
  { unfold contents.Eth1DataVotes in H9. apply elems_of_view in H9.
    eapply Forall_is_Some_of_view; [exact H9|].
    cbn [pbp2p.st_Eth1Data pbp2p.st_Eth1DataVotes].
    rewrite He, elems_map_of. simpl.
    apply Forall_fmap, Forall_fmap. eapply Forall_impl; [exact Hp_votes|].
    intros vote [v ->]. by eexists. }
  split; [split; [|exact Hok]|].
  - repeat split.
    + eapply is_Some_of_view; [exact H3|].
      unfold contents.Fork. simpl. by rewrite fmap_is_Some.
    + eapply is_Some_of_view; [exact H4|].
      unfold contents.LatestBlockHeader. simpl. by rewrite !fmap_is_Some.
    + eapply is_Some_of_view; [exact H8|].
      unfold contents.Eth1Data. simpl. rewrite He. by eexists.
    + exact Hvotes.
    + unfold contents.Validators in H11. apply elems_of_view in H11.
      eapply Forall_is_Some_of_view; [exact H11|].
      cbn [pbp2p.st_Validators]. rewrite elems_map_of.
      apply Forall_fmap. eapply Forall_impl; [exact Hp_vals|].
      intros val [v ->]. by eexists.
    + eapply is_Some_of_view; [exact H18|].
      unfold contents.PreviousJustifiedCheckpoint. simpl. by rewrite !fmap_is_Some.
    + eapply is_Some_of_view; [exact H19|].
      unfold contents.CurrentJustifiedCheckpoint. simpl. by rewrite !fmap_is_Some.
    + eapply is_Some_of_view; [exact H20|].
      unfold contents.FinalizedCheckpoint. simpl. by rewrite !fmap_is_Some.
  - unfold fixed_width. repeat match goal with |- _ ∧ _ => split end.
    + eapply roots_all_32. exact H5.
    + eapply roots_all_32. exact H6.
    + eapply roots_all_32. exact H7.
    + eapply roots_all_32. exact H13.
    + intros h Hh. rewrite Hh in H4. unfold contents.LatestBlockHeader in H4.
      destruct (pbp2p.st_LatestBlockHeader _) as [h0|]; [|done].
      simpl in H4. injection H4 as _ Hp Hs Hb.
      repeat split; by eapply root32_pad32.
    + intros e' He'. rewrite He' in H8. unfold contents.Eth1Data in H8.
      destruct (pbp2p.st_Eth1Data _) as [e0|]; [|done].
      simpl in H8. injection H8 as Hdr _ Hbh.
      split; by eapply root32_pad32.
    + intros j v Hj. unfold contents.Eth1DataVotes in H9.
      apply elems_of_view in H9.
      apply (f_equal (λ l, l !! j)) in H9.
      cbn [pbp2p.st_Eth1Data pbp2p.st_Eth1DataVotes] in H9.
      rewrite elems_map_of, !list_lookup_fmap, Hj in H9.
      destruct (elems (pbp2p.st_Eth1DataVotes _) !! j) as [vote0|]; [|done].
      simpl in H9. destruct (pbp2p.st_Eth1Data _) as [e0|]; [|done].
      destruct vote0 as [v0|]; [|done]. simpl in H9.
      injection H9 as Hdr _ Hbh. split; by eapply root32_pad32.
    + intros c' Hc'. rewrite Hc' in H18.
      unfold contents.PreviousJustifiedCheckpoint in H18.
      destruct (pbp2p.st_PreviousJustifiedCheckpoint _) as [c0|]; [|done].
      simpl in H18. injection H18 as _ Hr. by eapply root32_pad32.
    + intros c' Hc'. rewrite Hc' in H19.
      unfold contents.CurrentJustifiedCheckpoint in H19.
      destruct (pbp2p.st_CurrentJustifiedCheckpoint _) as [c0|]; [|done].
      simpl in H19. injection H19 as _ Hr. by eapply root32_pad32.
    + intros c' Hc'. rewrite Hc' in H20.
      unfold contents.FinalizedCheckpoint in H20.
      destruct (pbp2p.st_FinalizedCheckpoint _) as [c0|]; [|done].
      simpl in H20. injection H20 as _ Hr. by eapply root32_pad32.
Qed.

(** X22.  The clone of a well-formed state is a well-formed state in the
    memory [Clone] leaves (nested messages present, slices valid), and it
    satisfies the fixed-width invariant whether or not the state did: every
    root of the clone holds exactly 32 bytes. *)
Theorem Clone_is_well_formed
    (m : mem) (b : state.BeaconState) (c : pbp2p.BeaconState slice slice) (m' : mem) :
  wf m b →
  state.Clone b m = Ok (Some c) m' →
  wf m' {| state.state := c |} ∧ fixed_width m' c.
Proof. apply Clone_wf_fixed_width. Qed.

Lemma Clone_is_well_formed_witness :
  wf sample_mem sample
  ∧ ¬ fixed_width sample_mem sample_state
  ∧ ∃ c m',
      state.Clone sample sample_mem = Ok (Some c) m'
      ∧ wf m' {| state.state := c |} ∧ fixed_width m' c.
Proof.
  split; [exact sample_wf|]. split.
  - intros (H & _). apply Forall_cons in H as [H _]. vm_compute in H. discriminate.
  - eexists _, _. split; [vm_compute; reflexivity|].
    apply (Clone_is_well_formed sample_mem sample); [exact sample_wf|].
    vm_compute; reflexivity.
Defined.

Lemma pad32_idemp bs : pad32 (pad32 bs) = pad32 bs.
Proof. apply pad32_exact, length_pad32. Qed.

Lemma Checkpoint_idemp c :
  contents.Checkpoint (contents.Checkpoint c) = contents.Checkpoint c.
Proof. unfold contents.Checkpoint. simpl. by rewrite pad32_idemp. Qed.

(** The getters on contents, applied to what they returned. *)
Lemma contents_Clone_twice v v1 :
  contents.Clone v = Some v1 →
  contents.Clone v1
  = Some (with_header (swap_state_body <$> pbp2p.st_LatestBlockHeader v1) v1).
Proof.
  intros [= <-]. unfold contents.Clone, with_header. simpl. f_equal. f_equal.
  - unfold contents.LatestBlockHeader. simpl.
    destruct (pbp2p.st_LatestBlockHeader v) as [h|]; [|done]. simpl.
    unfold contents.Header, swap_state_body. simpl. by rewrite !pad32_idemp.
  - unfold contents.BlockRoots. simpl. rewrite <-list_fmap_compose. f_equal.
    apply list_fmap_ext. intros ? x _. apply pad32_idemp.
  - unfold contents.StateRoots. simpl. rewrite <-list_fmap_compose. f_equal.
    apply list_fmap_ext. intros ? x _. apply pad32_idemp.
  - unfold contents.HistoricalRoots. simpl. rewrite <-list_fmap_compose. f_equal.
    apply list_fmap_ext. intros ? x _. apply pad32_idemp.
  - unfold contents.Eth1Data. simpl.
    destruct (pbp2p.st_Eth1Data v) as [e|]; [|done]. simpl.
    unfold contents.Eth1. simpl. by rewrite !pad32_idemp.
  - unfold contents.Eth1DataVotes, contents.Eth1Data. simpl.
    rewrite <-list_fmap_compose. f_equal.
    apply list_fmap_ext. intros ? vote _. simpl.
    destruct (pbp2p.st_Eth1Data v) as [e|]; [|done]. simpl.
    destruct vote as [x|]; [|done]. simpl.
    unfold contents.Vote. simpl. by rewrite !pad32_idemp.
  - unfold contents.RandaoMixes. simpl. rewrite <-list_fmap_compose. f_equal.
    apply list_fmap_ext. intros ? x _. apply pad32_idemp.
  - unfold contents.PreviousJustifiedCheckpoint. simpl.
    destruct (pbp2p.st_PreviousJustifiedCheckpoint v); simpl; [|done].
    by rewrite Checkpoint_idemp.
  - unfold contents.CurrentJustifiedCheckpoint. simpl.
    destruct (pbp2p.st_CurrentJustifiedCheckpoint v); simpl; [|done].
    by rewrite Checkpoint_idemp.
  - unfold contents.FinalizedCheckpoint. simpl.
    destruct (pbp2p.st_FinalizedCheckpoint v); simpl; [|done].
    by rewrite Checkpoint_idemp.
Qed.

(** X23.  Cloning a clone.  Take the clone [c] of a well-formed state and
    clone it again: the second clone has the contents of [c] in every
    field but the header, whose state root and body root come back
    exchanged.  (The first clone exchanged them too, so the second clone
    has them under the names the state had them.) *)
Theorem Clone_of_Clone
    (m : mem) (b : state.BeaconState)
    (c : pbp2p.BeaconState slice slice) (m1 : mem)
    (c2 : pbp2p.BeaconState slice slice) (m2 : mem) :
  wf m b →
  state.Clone b m = Ok (Some c) m1 →
  state.Clone {| state.state := c |} m1 = Ok (Some c2) m2 →
  view sh_State m2 c2
  = with_header
      (swap_state_body <$> pbp2p.st_LatestBlockHeader (view sh_State m1 c))
      (view sh_State m1 c).
Proof.
  intros Hwf H1 H2.
  destruct (Clone_result m b _ m1 Hwf H1) as (c0 & [= <-] & _ & _ & Hv1).
  destruct (Clone_wf_fixed_width m b c m1 Hwf H1) as [Hwf1 _].
  destruct (Clone_result m1 _ _ m2 Hwf1 H2) as (c0 & [= <-] & _ & _ & Hv2).
  cbn [state.state] in Hv2. symmetry in Hv1.
  rewrite (contents_Clone_twice _ _ Hv1) in Hv2. by apply (inj Some).
Qed.

Lemma Clone_of_Clone_witness :
  wf sample_mem sample
  ∧ ∃ c m1 c2 m2,
      state.Clone sample sample_mem = Ok (Some c) m1
      ∧ state.Clone {| state.state := c |} m1 = Ok (Some c2) m2
      ∧ view (sh_option sh_Header) m1 (pbp2p.st_LatestBlockHeader c)
        = Some {| ethpb.Header_Slot := 9;
                  ethpb.Header_ParentRoot := replicate 32 xaa;
                  ethpb.Header_StateRoot := replicate 32 x33;
                  ethpb.Header_BodyRoot := replicate 32 x22 |}
      ∧ view sh_State m2 c2
        = with_header
            (Some {| ethpb.Header_Slot := 9;
                     ethpb.Header_ParentRoot := replicate 32 xaa;
                     ethpb.Header_StateRoot := replicate 32 x22;
                     ethpb.Header_BodyRoot := replicate 32 x33 |})
            (view sh_State m1 c).
Proof.
  split; [exact sample_wf|].
  eexists _, _, _, _.
  split; [vm_compute; reflexivity|]. split; [vm_compute; reflexivity|].
  split; [vm_compute; reflexivity|].
  etrans; [eapply (Clone_of_Clone sample_mem sample);
            [exact sample_wf|vm_compute; reflexivity|vm_compute; reflexivity]|].
  vm_compute; reflexivity.
Defined.

(** X24.  [Clone] does not write to the state: on a well-formed state,
    after [Clone] the state is still well-formed and has the contents it
    had, and [Clone] called again returns a clone with the contents of the
    first. *)
Theorem Clone_leaves_state_alone
    (m : mem) (b : state.BeaconState) (c : option (pbp2p.BeaconState slice slice))
    (m' : mem) :
  wf m b →
  state.Clone b m = Ok c m' →
  wf m' b
  ∧ view sh_State m' (state.state b) = view sh_State m (state.state b)
  ∧ ∃ c' m'', state.Clone b m' = Ok c' m''
      ∧ view (sh_option sh_State) m'' c' = view (sh_option sh_State) m' c.
Proof.
  intros Hwf Hrun.
  destruct (Clone_result m b c m' Hwf Hrun) as (c0 & -> & E & Hok & Hv).
  pose proof (wf_extends _ _ _ E Hwf) as Hwf'.
  assert (Hst : view sh_State m' (state.state b) = view sh_State m (state.state b)).
  { apply (view_extends sh_State); auto with lawful. apply Hwf. }
  split; [done|]. split; [done|].
  destruct (getter_run _ _ _ b m' Clone_spec Hwf') as (c' & m'' & Hrun' & Hv').
  exists c', m''. split; [done|]. rewrite Hv', Hst. done.
Qed.

Lemma Clone_leaves_state_alone_witness :
  wf sample_mem sample
  ∧ ∃ c m',
      state.Clone sample sample_mem = Ok c m'
      ∧ wf m' sample
      ∧ view sh_State m' sample_state = view sh_State sample_mem sample_state
      ∧ ∃ c' m'', state.Clone sample m' = Ok c' m''
          ∧ view (sh_option sh_State) m'' c' = view (sh_option sh_State) m' c.
Proof.
  split; [exact sample_wf|].
  eexists _, _. split; [vm_compute; reflexivity|].
  apply (Clone_leaves_state_alone sample_mem sample); [exact sample_wf|].
  vm_compute; reflexivity.
Defined.

(** ** What a clone shares with the state *)

Lemma wp_getter_fresh {R V} (sh : shape R V) acc b m0 m (Q : R → mem → Prop) :
  getter_fresh sh acc → wf m0 b → extends m0 m →
  (∀ r m', extends m m' → inside sh (span m m') r → Q r m') →
  wp (acc b) m Q.
Proof.
  intros Hacc Hwf E HQ. eapply wp_mono; [|apply Hacc; by eapply wf_extends].
  intros r m' [E' H]. by apply HQ.
Qed.

Lemma wp_getter_value {R V} (sh : shape R V) acc F b m0 m (Q : R → mem → Prop) :
  getter_spec sh acc F → wf m0 b → extends m0 m →
  (∀ r m', extends m m' → Q r m') →
  wp (acc b) m Q.
Proof.
  intros Hacc Hwf E HQ. eapply (wp_getter sh); eauto.
Qed.

(** After a step from [m] to [m'], what was allocated since [m0] is still
    allocated since [m0]. *)
Ltac widen_all m0 m m' E E' :=
  repeat match goal with
    | H0 : inside ?sh (span m0 m) ?x |- _ =>
        apply (inside_widen sh m0 m0 m m' x ltac:(auto 8 with lawful)
                 (extends_refl m0) E') in H0
    end;
  repeat match goal with
    | H0 : inside ?sh (span m m') ?x |- _ =>
        apply (inside_widen sh m0 m m' m' x ltac:(auto 8 with lawful)
                 E (extends_refl m')) in H0
    end.

Ltac fresh_step lem :=
  apply wp_bind;
  lazymatch goal with
  | Hwf : wf ?m0 ?b, E : extends ?m0 ?m |- wp _ ?m _ =>
      eapply (wp_getter_fresh _ _ b m0 m _ lem Hwf E);
      let r := fresh "r" in
      let m' := fresh "m" in
      let E' := fresh "E" in
      let H := fresh "H" in
      intros r m' E' H;
      widen_all m0 m m' E E';
      apply (extends_trans _ _ _ E) in E'; clear E
  end.

Ltac value_step lem :=
  apply wp_bind;
  lazymatch goal with
  | Hwf : wf ?m0 ?b, E : extends ?m0 ?m |- wp _ ?m _ =>
      eapply (wp_getter_value _ _ _ b m0 m _ lem Hwf E);
      let r := fresh "r" in
      let m' := fresh "m" in
      let E' := fresh "E" in
      intros r m' E';
      widen_all m0 m m' E E';
      apply (extends_trans _ _ _ E) in E'; clear E
  end.

Lemma BlockRoots_fresh : getter_fresh sh_roots state.BlockRoots.
Proof. apply (roots_fresh (@pbp2p.st_BlockRoots)). intros m st H. apply H. Qed.

Lemma StateRoots_fresh : getter_fresh sh_roots state.StateRoots.
Proof. apply (roots_fresh (@pbp2p.st_StateRoots)). intros m st H. apply H. Qed.

Lemma HistoricalRoots_fresh : getter_fresh sh_roots state.HistoricalRoots.
Proof. apply (roots_fresh (@pbp2p.st_HistoricalRoots)). intros m st H. apply H. Qed.

Lemma RandaoMixes_fresh : getter_fresh sh_roots state.RandaoMixes.
Proof. apply (roots_fresh (@pbp2p.st_RandaoMixes)). intros m st H. apply H. Qed.

Lemma Balances_fresh : getter_fresh sh_uint64s state.Balances.
Proof. apply (uint64s_fresh (@pbp2p.st_Balances)). intros m st H. apply H. Qed.

Lemma Slashings_fresh : getter_fresh sh_uint64s state.Slashings.
Proof. apply (uint64s_fresh (@pbp2p.st_Slashings)). intros m st H. apply H. Qed.

Lemma PreviousEpochAttestations_fresh :
  getter_fresh sh_attestations state.PreviousEpochAttestations.
Proof.
  apply (attestations_fresh (@pbp2p.st_PreviousEpochAttestations)).
  intros m st H. apply H.
Qed.

Lemma CurrentEpochAttestations_fresh :
  getter_fresh sh_attestations state.CurrentEpochAttestations.
Proof.
  apply (attestations_fresh (@pbp2p.st_CurrentEpochAttestations)).
  intros m st H. apply H.
Qed.

Lemma PreviousJustifiedCheckpoint_fresh :
  getter_fresh (sh_option sh_Checkpoint) state.PreviousJustifiedCheckpoint.
Proof.
  apply (checkpoints_fresh (@pbp2p.st_PreviousJustifiedCheckpoint)).
  - intros st H. apply H.
  - intros m st H. apply H.
Qed.

Lemma CurrentJustifiedCheckpoint_fresh :
  getter_fresh (sh_option sh_Checkpoint) state.CurrentJustifiedCheckpoint.
Proof.
  apply (checkpoints_fresh (@pbp2p.st_CurrentJustifiedCheckpoint)).
  - intros st H. apply H.
  - intros m st H. apply H.
Qed.

Lemma FinalizedCheckpoint_fresh :
  getter_fresh (sh_option sh_Checkpoint) state.FinalizedCheckpoint.
Proof.
  apply (checkpoints_fresh (@pbp2p.st_FinalizedCheckpoint)).
  - intros st H. apply H.
  - intros m st H. apply H.
Qed.

Lemma Clone_fresh_but_shared b m :
  wf m b →
  wp (state.Clone b) m (λ c m',
    inside (sh_option sh_State) (span m m') (without_fork_and_validators <$> c)).
Proof.
  intros Hwf. pose proof (extends_refl m) as E. unfold state.Clone.
  value_step GenesisTime_spec.
  value_step Slot_spec.
  value_step Fork_spec.
  fresh_step LatestBlockHeader_fresh.
  fresh_step BlockRoots_fresh.
  fresh_step StateRoots_fresh.
  fresh_step HistoricalRoots_fresh.
  fresh_step Eth1Data_fresh.
  fresh_step Eth1DataVotes_fresh.
  value_step Eth1DepositIndex_spec.
  value_step Validators_spec.
  fresh_step Balances_fresh.
  fresh_step RandaoMixes_fresh.
  fresh_step Slashings_fresh.
  fresh_step PreviousEpochAttestations_fresh.
  fresh_step CurrentEpochAttestations_fresh.
  fresh_step JustificationBits_fresh.
  fresh_step PreviousJustifiedCheckpoint_fresh.
  fresh_step CurrentJustifiedCheckpoint_fresh.
  fresh_step FinalizedCheckpoint_fresh.
  apply wp_ret.
  unfold inside in *. cbn [fmap option_fmap option_map sh_all sh_option sh_State
    without_fork_and_validators pbp2p.st_Fork pbp2p.st_LatestBlockHeader
    pbp2p.st_BlockRoots pbp2p.st_StateRoots pbp2p.st_HistoricalRoots
    pbp2p.st_Eth1Data pbp2p.st_Eth1DataVotes pbp2p.st_Validators pbp2p.st_Balances
    pbp2p.st_RandaoMixes pbp2p.st_Slashings pbp2p.st_PreviousEpochAttestations
    pbp2p.st_CurrentEpochAttestations pbp2p.st_JustificationBits
    pbp2p.st_PreviousJustifiedCheckpoint pbp2p.st_CurrentJustifiedCheckpoint
    pbp2p.st_FinalizedCheckpoint].
  repeat split; try assumption; constructor.
Qed.

Lemma Fork_value b m r m' :
  state.Fork b m = Ok r m' → r = pbp2p.st_Fork (state.state b).
Proof.
  unfold state.Fork. destruct (pbp2p.st_Fork (state.state b)) as [f|]; [|done].
  destruct f. by intros [= <- _].
Qed.

Lemma Validators_value b m r m' :
  state.Validators b m = Ok r m' →
  r = Made (elems (pbp2p.st_Validators (state.state b))).
Proof.
  intros H.
  assert (Hs : Forall is_Some (elems (pbp2p.st_Validators (state.state b)))).
  { eapply (fill_Ok_Forall state.Validators_at); [|exact H]. by intros [v|] m0 y m1. }
  rewrite (Validators_run _ _ Hs) in H. by injection H.
Qed.

(** X25.  What a clone shares with the state.  The clone of a well-formed
    state has the state's own [Fork] and, in a made slice, the state's own
    [Validators] (the same byte slices); every other array behind the
    clone was allocated by [Clone].  So
    assignments through any slice of the clone outside its fork and its
    validators leave the state well-formed and with the contents it had. *)
Theorem Clone_shares_only_fork_and_validators
    (m : mem) (b : state.BeaconState) (c : pbp2p.BeaconState slice slice) (m' : mem) :
  wf m b →
  state.Clone b m = Ok (Some c) m' →
  pbp2p.st_Fork c = pbp2p.st_Fork (state.state b)
  ∧ pbp2p.st_Validators c = Made (elems (pbp2p.st_Validators (state.state b)))
  ∧ inside sh_State (span m m') (without_fork_and_validators c)
  ∧ ∀ ws m'',
      Forall (into sh_State (without_fork_and_validators c)) ws →
      stores ws m' = Ok () m'' →
      wf m'' b ∧ view sh_State m'' (state.state b) = view sh_State m (state.state b).
Proof.
  intros Hwf Hrun.
  pose proof (Clone_fresh_but_shared b m Hwf) as HF.
  unfold wp in HF. rewrite Hrun in HF. cbn [fmap option_fmap option_map] in HF.
  destruct (Clone_result m b _ m' Hwf Hrun) as (c0 & [= <-] & E & _ & _).
  assert (Hshared : pbp2p.st_Fork c = pbp2p.st_Fork (state.state b)
                    ∧ pbp2p.st_Validators c
                      = Made (elems (pbp2p.st_Validators (state.state b)))).
  { unfold state.Clone in Hrun.
    repeat (apply bind_Ok_inv in Hrun as (? & ? & ? & Hrun)).
    injection Hrun as <- _. simpl. split.
    - by eapply Fork_value.
    - by eapply Validators_value. }
  destruct Hshared as [Hfork Hvals].
  split; [done|]. split; [done|]. split; [exact HF|].
  intros ws m'' Hws Hstores.
  assert (Hsame : same_outside (span m m') m' m'').
  { eapply stores_same; [|exact Hstores].
    eapply Forall_impl; [exact Hws|]. intros w.
    apply (into_inside sh_State); auto with lawful. }
  destruct Hwf as [Hp Hok].
  destruct (below_same sh_State (span m m') m m' m'' (state.state b))
    as [Hok' Hv']; auto with lawful.
  split; [split; [exact Hp|exact Hok']|exact Hv'].
Qed.

Lemma Clone_shares_only_fork_and_validators_witness :
  wf sample_mem sample
  ∧ ∃ c m',
      state.Clone sample sample_mem = Ok (Some c) m'
      ∧ pbp2p.st_Fork c = pbp2p.st_Fork sample_state
      ∧ pbp2p.st_Validators c = Made (elems (pbp2p.st_Validators sample_state))
      ∧ inside sh_State (span sample_mem m') (without_fork_and_validators c)
      ∧ ∀ ws m'',
          Forall (into sh_State (without_fork_and_validators c)) ws →
          stores ws m' = Ok () m'' →
          wf m'' sample
          ∧ view sh_State m'' sample_state = view sh_State sample_mem sample_state.
Proof.
  split; [exact sample_wf|].
  eexists _, _. split; [vm_compute; reflexivity|].
  apply (Clone_shares_only_fork_and_validators sample_mem sample);
    [exact sample_wf|vm_compute; reflexivity].
Defined.

(** X26.  [Clone] keeps the length of every sequence of a well-formed
    state: roots, votes, validators, balances, mixes, slashings and
    attestations.  In particular, when the balances of the state are
    index-aligned with its validators, so are those of the clone. *)
Theorem Clone_keeps_lengths
    (m : mem) (b : state.BeaconState) (c : pbp2p.BeaconState slice slice) (m' : mem) :
  wf m b →
  state.Clone b m = Ok (Some c) m' →
  length (elems (pbp2p.st_BlockRoots c))
  = length (elems (pbp2p.st_BlockRoots (state.state b)))
  ∧ length (elems (pbp2p.st_StateRoots c))
    = length (elems (pbp2p.st_StateRoots (state.state b)))
  ∧ length (elems (pbp2p.st_HistoricalRoots c))
    = length (elems (pbp2p.st_HistoricalRoots (state.state b)))
  ∧ length (elems (pbp2p.st_Eth1DataVotes c))
    = length (elems (pbp2p.st_Eth1DataVotes (state.state b)))
  ∧ length (elems (pbp2p.st_Validators c))
    = length (elems (pbp2p.st_Validators (state.state b)))
  ∧ length (read (words m') (pbp2p.st_Balances c))
    = length (read (words m) (pbp2p.st_Balances (state.state b)))
  ∧ length (elems (pbp2p.st_RandaoMixes c))
    = length (elems (pbp2p.st_RandaoMixes (state.state b)))
  ∧ length (read (words m') (pbp2p.st_Slashings c))
    = length (read (words m) (pbp2p.st_Slashings (state.state b)))
  ∧ length (elems (pbp2p.st_PreviousEpochAttestations c))
    = length (elems (pbp2p.st_PreviousEpochAttestations (state.state b)))
  ∧ length (elems (pbp2p.st_CurrentEpochAttestations c))
    = length (elems (pbp2p.st_CurrentEpochAttestations (state.state b)))
  ∧ (length (read (words m) (pbp2p.st_Balances (state.state b)))
     = length (elems (pbp2p.st_Validators (state.state b))) →
     length (read (words m') (pbp2p.st_Balances c))
     = length (elems (pbp2p.st_Validators c))).
Proof.
  intros Hwf Hrun.
  destruct (Clone_result m b _ m' Hwf Hrun) as (c0 & [= <-] & _ & _ & Hv).
  unfold view, contents.Clone in Hv. cbn [sh_map sh_State] in Hv.
  injection Hv as H1 H2 H3 H4 H5 H6 H7 H8 H9 H10 H11 H12 H13 H14 H15 H16 H17
    H18 H19 H20.
  assert (L : ∀ (A B : Type) (f g : A → B) (s s' : slice_of A)
                (F : list B → list B),
            (∀ l, length (F l) = length l) →
            map_of f s = Made (F (elems (map_of g s'))) →
            length (elems s) = length (elems s')).
  { intros A B f g s s' F HF H. apply (f_equal (λ x, length (elems x))) in H.
    cbn [elems] in H. by rewrite HF, !elems_map_of, !length_fmap in H. }
  assert (Hvals : length (elems (pbp2p.st_Validators c))
                  = length (elems (pbp2p.st_Validators (state.state b)))).
  { exact (L _ _ _ _ _ _ (λ l, l) (λ _, eq_refl) H11). }
  assert (Hbal : length (read (words m') (pbp2p.st_Balances c))
                 = length (read (words m) (pbp2p.st_Balances (state.state b)))).
  { by rewrite H12. }
  repeat match goal with |- _ ∧ _ => split end.
  - exact (L _ _ _ _ _ _ (fmap pad32) (λ l, length_fmap _ l) H5).
  - exact (L _ _ _ _ _ _ (fmap pad32) (λ l, length_fmap _ l) H6).
  - exact (L _ _ _ _ _ _ (fmap pad32) (λ l, length_fmap _ l) H7).
  - exact (L _ _ _ _ _ _ (fmap _) (λ l, length_fmap _ l) H9).
  - exact Hvals.
  - exact Hbal.
  - exact (L _ _ _ _ _ _ (fmap pad32) (λ l, length_fmap _ l) H13).
  - by rewrite H14.
  - exact (L _ _ _ _ _ _ (λ l, l) (λ _, eq_refl) H15).
  - exact (L _ _ _ _ _ _ (λ l, l) (λ _, eq_refl) H16).
  - intros Hal. by rewrite Hbal, Hvals.
Qed.

Lemma Clone_keeps_lengths_witness :
  wf sample_mem sample
  ∧ length (read (words sample_mem) (pbp2p.st_Balances sample_state))
    = length (elems (pbp2p.st_Validators sample_state))
  ∧ ∃ c m',
      state.Clone sample sample_mem = Ok (Some c) m'
      ∧ length (elems (pbp2p.st_Validators c)) = 3
      ∧ length (read (words m') (pbp2p.st_Balances c)) = 3.
Proof.
  split; [exact sample_wf|]. split; [reflexivity|].
  eexists _, _. split; [vm_compute; reflexivity|].
  edestruct (Clone_keeps_lengths sample_mem sample) as (_ & _ & _ & _ & Hv & Hb & _);
    [exact sample_wf|vm_compute; reflexivity|].
  split; [exact Hv|exact Hb].
Defined.
